(** * Administrative Kafka client of terraform-provider-kafka

    A shallow embedding of the Go package [kafka] (the client and the
    string-typed ACL translation) and the properties of its
    specification.

    Go values are modelled as follows: [int], [int16], [int32] as [Z]
    (conversions written out with [wrap]); [string] as [string];
    a nilable pointer as [option]; a slice as [list]; a Go map that the
    code only ranges over as the list of its entries in the order the
    runtime iterates them; a Go map that is built key by key as a
    [gmap]; an [error] as [option error] with [None] for [nil]. *)

From stdpp Require Import base option list strings gmap.
From stdpp Require Import pretty.
From Stdlib Require Import ZArith Lia.

Local Open Scope Z_scope.
Local Open Scope string_scope.

(** ** Machine integers *)

(** Conversion of an integer to a signed [w]-bit integer, as Go's
    [int16(x)] and [int32(x)] do: the value wraps around. *)
Definition wrap (w : Z) (x : Z) : Z :=
  (x + 2 ^ (w - 1)) mod 2 ^ w - 2 ^ (w - 1).

Definition int16 (x : Z) : Z := wrap 16 x.
Definition int32 (x : Z) : Z := wrap 32 x.

(** ** Errors *)

(** [sarama.KError]: a broker error code, an [int16]. *)
Definition KError := Z.

(** The dynamic type of a Go [error] value met in this package. *)
Inductive error : Type :=
| TransportError (msg : string)    (* an error value made by the sarama library *)
| KErrorValue (code : KError)      (* a [sarama.KError] returned as an error *)
| ErrorString (msg : string)       (* made by [fmt.Errorf] or [errors.New] *)
| TopicMissing (msg : string).     (* [TopicMissingError{msg}] *)

(** The type assertion [err.(TopicMissingError)]. *)
Definition isTopicMissingError (e : error) : bool :=
  match e with TopicMissing _ => true | _ => false end.

(** [%v] of a [[]string], as package [fmt] prints it. *)
Definition fmt_strings (l : list string) : string :=
  "[" +:+ String.concat " " l +:+ "]".

(** ** The part of the sarama library the package relies on

    The constants of the vendored library are not part of the sources at
    hand.  They are the fields of a class, so that every definition
    below is read with the library's own names and every theorem holds
    for whatever values the library gives them. *)

(** [sarama.KafkaVersion] is a struct of four numbers; the constants
    [V1_0_0_0] and [V2_0_0_0] are the versions their names spell. *)
Record KafkaVersion : Type := newKafkaVersion
  { major : Z; minor : Z; veryMinor : Z; patch : Z }.

Definition V0_11_0_0 : KafkaVersion := newKafkaVersion 0 11 0 0.
Definition V1_0_0_0 : KafkaVersion := newKafkaVersion 1 0 0 0.
Definition V2_0_0_0 : KafkaVersion := newKafkaVersion 2 0 0 0.

Definition KafkaVersion_eqb (a b : KafkaVersion) : bool :=
  (major a =? major b)%Z && (minor a =? minor b)%Z &&
  (veryMinor a =? veryMinor b)%Z && (patch a =? patch b)%Z.

(** [x509.Certificate] and [tls.Certificate], identified by their
    encoded bytes. *)
Inductive x509_Certificate : Type := X509Certificate (raw : string).
Inductive tls_Certificate : Type := TLSCertificate (raw : string).

(** [x509.CertPool]: the certificates added so far, oldest first. *)
Definition CertPool := list x509_Certificate.

(** [tls.Config], the fields the package sets. *)
Record tls_Config : Type := mk_tls_Config
  { Certificates : list tls_Certificate;
    RootCAs : option CertPool;
    InsecureSkipVerify : bool }.

(** [sarama.Config], the fields the package sets. *)
Record sarama_Config : Type := mk_sarama_Config
  { Version : KafkaVersion;
    ClientID : string;
    Net_SASL_Enable : bool;
    Net_SASL_User : string;
    Net_SASL_Password : string;
    Net_TLS_Enable : bool;
    Net_TLS_Config : option tls_Config }.

Class Sarama : Type :=
  { (* errors.go *)
    ErrNoError : KError;
    KError_Error : KError -> string;
    (* describe_configs_response.go: ConfigSource *)
    SourceDefault : Z;
    SourceStaticBroker : Z;
    (* config_resource_type.go *)
    TopicResource : Z;
    (* acl_types.go: AclOperation *)
    AclOperationUnknown : Z;
    AclOperationAny : Z;
    AclOperationAll : Z;
    AclOperationRead : Z;
    AclOperationWrite : Z;
    AclOperationCreate : Z;
    AclOperationDelete : Z;
    AclOperationAlter : Z;
    AclOperationDescribe : Z;
    AclOperationClusterAction : Z;
    AclOperationDescribeConfigs : Z;
    AclOperationAlterConfigs : Z;
    AclOperationIdempotentWrite : Z;
    (* acl_types.go: AclPermissionType *)
    AclPermissionUnknown : Z;
    AclPermissionAny : Z;
    AclPermissionDeny : Z;
    AclPermissionAllow : Z;
    (* acl_types.go: AclResourceType *)
    AclResourceUnknown : Z;
    AclResourceAny : Z;
    AclResourceTopic : Z;
    AclResourceGroup : Z;
    AclResourceCluster : Z;
    AclResourceTransactionalID : Z;
    (* acl_types.go: AclResourcePatternType *)
    AclPatternAny : Z;
    AclPatternMatch : Z;
    AclPatternLiteral : Z;
    AclPatternPrefixed : Z;
    (* config.go *)
    NewConfig : sarama_Config;
    (* crypto/x509: the certificates found in PEM data *)
    certsFromPEM : string -> list x509_Certificate }.

(** [sarama.ConfigEntry], the fields the package reads. *)
Record ConfigEntry : Type := mk_ConfigEntry
  { ce_Name : string;
    ce_Value : string;
    ce_Default : bool;
    ce_Source : Z }.

(** ** String-typed ACLs *)

Record ACL : Type := mk_ACL
  { ACL_Principal : string;
    ACL_Host : string;
    ACL_Operation : string;
    ACL_PermissionType : string }.

Record Resource : Type := mk_Resource
  { Resource_Type : string;
    Resource_Name : string;
    Resource_PatternTypeFilter : string }.

Record stringlyTypedACL : Type := mk_stringlyTypedACL
  { sACL : ACL;
    sResource : Resource }.

(** [sarama.Acl], [sarama.Resource], [sarama.AclCreation] and
    [sarama.AclFilter]. *)
Record sarama_Acl : Type := mk_sarama_Acl
  { acl_Principal : string;
    acl_Host : string;
    acl_Operation : Z;
    acl_PermissionType : Z }.

Record sarama_Resource : Type := mk_sarama_Resource
  { res_ResourceType : Z;
    res_ResourceName : string;
    res_ResoucePatternType : Z }.

Record sarama_AclCreation : Type := mk_sarama_AclCreation
  { ac_Resource : sarama_Resource;
    ac_Acl : sarama_Acl }.

Record sarama_AclFilter : Type := mk_sarama_AclFilter
  { f_Version : Z;
    f_ResourceType : Z;
    f_ResourceName : option string;
    f_ResourcePatternTypeFilter : Z;
    f_Principal : option string;
    f_Host : option string;
    f_Operation : Z;
    f_PermissionType : Z }.

(** The zero value [sarama.AclCreation{}]. *)
Definition zero_AclCreation : sarama_AclCreation :=
  {| ac_Resource := mk_sarama_Resource 0 "" 0;
     ac_Acl := mk_sarama_Acl "" "" 0 0 |}.

(** Assignments to the fields of a [sarama.AclFilter]. *)
Definition set_Operation (f : sarama_AclFilter) (op : Z) : sarama_AclFilter :=
  {| f_Version := f_Version f; f_ResourceType := f_ResourceType f;
     f_ResourceName := f_ResourceName f;
     f_ResourcePatternTypeFilter := f_ResourcePatternTypeFilter f;
     f_Principal := f_Principal f; f_Host := f_Host f;
     f_Operation := op; f_PermissionType := f_PermissionType f |}.

Definition set_PermissionType (f : sarama_AclFilter) (pType : Z) : sarama_AclFilter :=
  {| f_Version := f_Version f; f_ResourceType := f_ResourceType f;
     f_ResourceName := f_ResourceName f;
     f_ResourcePatternTypeFilter := f_ResourcePatternTypeFilter f;
     f_Principal := f_Principal f; f_Host := f_Host f;
     f_Operation := f_Operation f; f_PermissionType := pType |}.

Definition set_ResourceType (f : sarama_AclFilter) (rType : Z) : sarama_AclFilter :=
  {| f_Version := f_Version f; f_ResourceType := rType;
     f_ResourceName := f_ResourceName f;
     f_ResourcePatternTypeFilter := f_ResourcePatternTypeFilter f;
     f_Principal := f_Principal f; f_Host := f_Host f;
     f_Operation := f_Operation f; f_PermissionType := f_PermissionType f |}.

Section Translation.
Context `{Sarama}.

(** *** Which configuration entries are defaults *)

Definition isDefault (tc : ConfigEntry) (version : Z) : bool :=
  if (version =? 0)%Z then ce_Default tc
  else (ce_Source tc =? SourceDefault)%Z || (ce_Source tc =? SourceStaticBroker)%Z.

Definition unknownConversion : Z := -1.

Definition stringToACLPrefix (s : string) : Z :=
  if (s =? "any")%string then AclPatternAny
  else if (s =? "match")%string then AclPatternMatch
  else if (s =? "literal")%string then AclPatternLiteral
  else if (s =? "prefixed")%string then AclPatternPrefixed
  else unknownConversion.

Definition stringToACLResouce (s : string) : Z :=
  if (s =? "Unknown")%string then AclResourceUnknown
  else if (s =? "Any")%string then AclResourceAny
  else if (s =? "Topic")%string then AclResourceTopic
  else if (s =? "Group")%string then AclResourceGroup
  else if (s =? "Cluster")%string then AclResourceCluster
  else if (s =? "TransactionalID")%string then AclResourceTransactionalID
  else unknownConversion.

Definition stringToOperation (s : string) : Z :=
  if (s =? "Unknown")%string then AclOperationUnknown
  else if (s =? "Any")%string then AclOperationAny
  else if (s =? "All")%string then AclOperationAll
  else if (s =? "Read")%string then AclOperationRead
  else if (s =? "Write")%string then AclOperationWrite
  else if (s =? "Create")%string then AclOperationCreate
  else if (s =? "Delete")%string then AclOperationDelete
  else if (s =? "Alter")%string then AclOperationAlter
  else if (s =? "Describe")%string then AclOperationDescribe
  else if (s =? "ClusterAction")%string then AclOperationClusterAction
  else if (s =? "DescribeConfigs")%string then AclOperationDescribeConfigs
  else if (s =? "AlterConfigs")%string then AclOperationAlterConfigs
  else if (s =? "IdempotentWrite")%string then AclOperationIdempotentWrite
  else unknownConversion.

Definition stringToAclPermissionType (s : string) : Z :=
  if (s =? "Unknown")%string then AclPermissionUnknown
  else if (s =? "Any")%string then AclPermissionAny
  else if (s =? "Deny")%string then AclPermissionDeny
  else if (s =? "Allow")%string then AclPermissionAllow
  else unknownConversion.

Definition AclCreation (s : stringlyTypedACL) : sarama_AclCreation * option error :=
  let acl := zero_AclCreation in
  let op := stringToOperation (ACL_Operation (sACL s)) in
  if (op =? unknownConversion)%Z then
    (acl, Some (ErrorString ("Unknown operation: '" +:+ ACL_Operation (sACL s) +:+ "'")))
  else
  let permissionType := stringToAclPermissionType (ACL_PermissionType (sACL s)) in
  if (permissionType =? unknownConversion)%Z then
    (acl, Some (ErrorString ("Unknown permission type: '" +:+ ACL_PermissionType (sACL s) +:+ "'")))
  else
  let rType := stringToACLResouce (Resource_Type (sResource s)) in
  if (rType =? unknownConversion)%Z then
    (acl, Some (ErrorString ("Unknown resource type: '" +:+ Resource_Type (sResource s) +:+ "'")))
  else
  let patternType := stringToACLPrefix (Resource_PatternTypeFilter (sResource s)) in
  if (patternType =? unknownConversion)%Z then
    (acl, Some (ErrorString ("Unknown pattern type filter: '" +:+
                             Resource_PatternTypeFilter (sResource s) +:+ "'")))
  else
  ({| ac_Acl :=
        {| acl_Principal := ACL_Principal (sACL s);
           acl_Host := ACL_Host (sACL s);
           acl_Operation := op;
           acl_PermissionType := permissionType |};
      ac_Resource :=
        {| res_ResourceType := rType;
           res_ResourceName := Resource_Name (sResource s);
           res_ResoucePatternType := patternType |} |}, None).

Definition AclFilter (s : stringlyTypedACL) : sarama_AclFilter * option error :=
  let f := {| f_Version := 0;
              f_ResourceType := 0;
              f_ResourceName := Some (Resource_Name (sResource s));
              f_ResourcePatternTypeFilter := 0;
              f_Principal := Some (ACL_Principal (sACL s));
              f_Host := Some (ACL_Host (sACL s));
              f_Operation := 0;
              f_PermissionType := 0 |} in
  let op := stringToOperation (ACL_Operation (sACL s)) in
  if (op =? unknownConversion)%Z then
    (f, Some (ErrorString ("Unknown operation: " +:+ ACL_Operation (sACL s))))
  else
  let f := set_Operation f op in
  let pType := stringToAclPermissionType (ACL_PermissionType (sACL s)) in
  if (pType =? unknownConversion)%Z then
    (f, Some (ErrorString ("Unknown permission type: " +:+ ACL_PermissionType (sACL s))))
  else
  let f := set_PermissionType f pType in
  let rType := stringToACLResouce (Resource_Type (sResource s)) in
  if (rType =? unknownConversion)%Z then
    (f, Some (ErrorString ("Unknown resource type: " +:+ Resource_Type (sResource s))))
  else
  let f := set_ResourceType f rType in
  (f, None).

End Translation.

(** ** The cluster: requests, responses and calls *)

(** The package's [Topic]. *)
Record Topic : Type := mk_Topic
  { Name : string;
    Partitions_ : Z;
    ReplicationFactor : Z;
    Config_ : gmap string (option string) }.

(** [sarama.Broker], as made by [sarama.NewBroker(addr)]. *)
Record Broker : Type := NewBroker { addr : string }.

Record TopicDetail : Type := mk_TopicDetail
  { NumPartitions : Z;
    td_ReplicationFactor : Z;
    ConfigEntries : gmap string (option string) }.

Record CreateTopicsRequest : Type := mk_CreateTopicsRequest
  { TopicDetails : gmap string TopicDetail;
    ct_Timeout : Z }.

Record TopicError : Type := mk_TopicError
  { te_Err : KError;
    te_ErrMsg : option string }.

Record CreateTopicsResponse : Type := mk_CreateTopicsResponse
  { TopicErrors : list (string * TopicError) }.

Record DeleteTopicsRequest : Type := mk_DeleteTopicsRequest
  { dt_Topics : list string;
    dt_Timeout : Z }.

Record DeleteTopicsResponse : Type := mk_DeleteTopicsResponse
  { TopicErrorCodes : list (string * KError) }.

Record AlterConfigsResource : Type := mk_AlterConfigsResource
  { acr_Type : Z;
    acr_Name : string;
    acr_ConfigEntries : gmap string (option string) }.

Record AlterConfigsRequest : Type := mk_AlterConfigsRequest
  { ac_Resources : list AlterConfigsResource;
    ac_ValidateOnly : bool }.

Record AlterConfigsResourceResponse : Type := mk_AlterConfigsResourceResponse
  { ErrorCode : Z;
    ErrorMsg : string;
    acrr_Type : Z;
    acrr_Name : string }.

Record AlterConfigsResponse : Type := mk_AlterConfigsResponse
  { acr_Resources : list AlterConfigsResourceResponse }.

Record TopicPartition : Type := mk_TopicPartition
  { Count : Z;
    Assignment : list (list Z) }.

Record CreatePartitionsRequest : Type := mk_CreatePartitionsRequest
  { TopicPartitions : gmap string TopicPartition;
    cp_Timeout : Z;
    cp_ValidateOnly : bool }.

Record TopicPartitionError : Type := mk_TopicPartitionError
  { tpe_Err : KError;
    tpe_ErrMsg : option string }.

Record CreatePartitionsResponse : Type := mk_CreatePartitionsResponse
  { TopicPartitionErrors : list (string * TopicPartitionError) }.

Record ConfigResource : Type := mk_ConfigResource
  { cr_Type : Z;
    cr_Name : string;
    cr_ConfigNames : list string }.

Record DescribeConfigsRequest : Type := mk_DescribeConfigsRequest
  { dc_Version : Z;
    dc_Resources : list ConfigResource }.

Record ResourceResponse : Type := mk_ResourceResponse
  { Configs : list ConfigEntry }.

Record DescribeConfigsResponse : Type := mk_DescribeConfigsResponse
  { dcr_Version : Z;
    dcr_Resources : list ResourceResponse }.

Record DescribeAclsRequest : Type := mk_DescribeAclsRequest
  { da_Version : Z;
    da_AclFilter : sarama_AclFilter }.

Record ResourceAcls : Type := mk_ResourceAcls
  { ra_Resource : sarama_Resource;
    ra_Acls : list sarama_Acl }.

Record DescribeAclsResponse : Type := mk_DescribeAclsResponse
  { da_Err : KError;
    da_ErrMsg : option string;
    da_ResourceAcls : list ResourceAcls }.

(** [DescribeAclsRequest.requiredVersion] of the vendored library. *)
Definition requiredVersion (d : DescribeAclsRequest) : KafkaVersion :=
  if (da_Version d =? 1)%Z then V2_0_0_0 else V0_11_0_0.

(** What a library call hands back: a value, or an error. *)
Inductive result (A : Type) : Type :=
| Ok (a : A)
| Err (e : error).
Arguments Ok {A} a.
Arguments Err {A} e.

(** The calls the package makes on the world outside it: on the
    cluster client, on a broker, and on the file system while the TLS
    configuration is built.  [ReplicaCount] is a helper of the package
    that is not part of the sources at hand; it queries the cluster
    client, and is taken as one more call. *)
Inductive Call : Type :=
| Controller
| RefreshMetadata
| Topics
| Partitions (topic : string)
| ReplicaCount (name : string) (partitions : list Z)
| CreateTopics (broker : Broker) (req : CreateTopicsRequest)
| DeleteTopics (broker : Broker) (req : DeleteTopicsRequest)
| AlterConfigs (broker : Broker) (req : AlterConfigsRequest)
| CreatePartitions (broker : Broker) (req : CreatePartitionsRequest)
| DescribeConfigs (broker : Broker) (req : DescribeConfigsRequest)
| DescribeAcls (broker : Broker) (req : DescribeAclsRequest)
| BrokerOpen (broker : Broker) (conf : sarama_Config)
| ReadFile (filename : string)
| LoadX509KeyPair (certFile keyFile : string).

Definition Resp (c : Call) : Type :=
  match c with
  | Controller => result Broker
  | RefreshMetadata => option error
  | Topics => result (list string)
  | Partitions _ => result (list Z)
  | ReplicaCount _ _ => result Z
  | CreateTopics _ _ => result CreateTopicsResponse
  | DeleteTopics _ _ => result DeleteTopicsResponse
  | AlterConfigs _ _ => result AlterConfigsResponse
  | CreatePartitions _ _ => result CreatePartitionsResponse
  | DescribeConfigs _ _ => result DescribeConfigsResponse
  | DescribeAcls _ _ => result DescribeAclsResponse
  | BrokerOpen _ _ => option error
  | ReadFile _ => result string
  | LoadX509KeyPair _ _ => result tls_Certificate
  end.

(** A call together with the answer it got. *)
Inductive Event : Type :=
| ControllerEv (r : result Broker)
| RefreshMetadataEv (r : option error)
| TopicsEv (r : result (list string))
| PartitionsEv (topic : string) (r : result (list Z))
| ReplicaCountEv (name : string) (partitions : list Z) (r : result Z)
| CreateTopicsEv (broker : Broker) (req : CreateTopicsRequest) (r : result CreateTopicsResponse)
| DeleteTopicsEv (broker : Broker) (req : DeleteTopicsRequest) (r : result DeleteTopicsResponse)
| AlterConfigsEv (broker : Broker) (req : AlterConfigsRequest) (r : result AlterConfigsResponse)
| CreatePartitionsEv (broker : Broker) (req : CreatePartitionsRequest)
    (r : result CreatePartitionsResponse)
| DescribeConfigsEv (broker : Broker) (req : DescribeConfigsRequest)
    (r : result DescribeConfigsResponse)
| DescribeAclsEv (broker : Broker) (req : DescribeAclsRequest) (r : result DescribeAclsResponse)
| BrokerOpenEv (broker : Broker) (conf : sarama_Config) (r : option error)
| ReadFileEv (filename : string) (r : result string)
| LoadX509KeyPairEv (certFile keyFile : string) (r : result tls_Certificate).

Definition event (c : Call) : Resp c -> Event :=
  match c with
  | Controller => ControllerEv
  | RefreshMetadata => RefreshMetadataEv
  | Topics => TopicsEv
  | Partitions t => PartitionsEv t
  | ReplicaCount n p => ReplicaCountEv n p
  | CreateTopics b r => CreateTopicsEv b r
  | DeleteTopics b r => DeleteTopicsEv b r
  | AlterConfigs b r => AlterConfigsEv b r
  | CreatePartitions b r => CreatePartitionsEv b r
  | DescribeConfigs b r => DescribeConfigsEv b r
  | DescribeAcls b r => DescribeAclsEv b r
  | BrokerOpen b k => BrokerOpenEv b k
  | ReadFile f => ReadFileEv f
  | LoadX509KeyPair c k => LoadX509KeyPairEv c k
  end.

(** ** Programs

    A method of the client is a tree: it returns, panics, or makes a
    call and goes on with the answer. *)
Inductive Prog (A : Type) : Type :=
| Ret (a : A)
| Panic (msg : string)
| Vis (c : Call) (k : Resp c -> Prog A).
Arguments Ret {A} a.
Arguments Panic {A} msg.
Arguments Vis {A} c k.

Fixpoint bind {A B : Type} (p : Prog A) (f : A -> Prog B) : Prog B :=
  match p with
  | Ret a => f a
  | Panic msg => Panic msg
  | Vis c k => Vis c (fun x => bind (k x) f)
  end.

#[global] Instance Prog_ret : MRet Prog := fun A a => Ret a.
#[global] Instance Prog_bind : MBind Prog := fun A B f p => bind p f.

Definition call (c : Call) : Prog (Resp c) := Vis c Ret.

(** [exec p tr a]: [p] can make the calls of [tr], get the answers of
    [tr], and return [a]. *)
Fixpoint exec {A : Type} (p : Prog A) (tr : list Event) (a : A) : Prop :=
  match p with
  | Ret v => tr = [] /\ v = a
  | Panic _ => False
  | Vis c k => exists (x : Resp c) (tr' : list Event), tr = event c x :: tr' /\ exec (k x) tr' a
  end.

(** A world answers every call, and may change as it does. *)
Definition World (W : Type) : Type := forall c : Call, W -> Resp c * W.

(** Running a program in a world: the events, and the value returned
    ([None] after a panic). *)
Fixpoint run {A W : Type} (world : World W) (p : Prog A) (w : W) : list Event * option A :=
  match p with
  | Ret a => ([], Some a)
  | Panic _ => ([], None)
  | Vis c k =>
      let '(x, w') := world c w in
      let '(tr, r) := run world (k x) w' in
      (event c x :: tr, r)
  end.

(** The answer of a call that fails in transport; worlds are conveniently
    written as the few calls that succeed, over this default. *)
Definition failed (c : Call) : Resp c :=
  let e := TransportError "unreachable" in
  match c with
  | Controller => Err e
  | RefreshMetadata => Some e
  | Topics => Err e
  | Partitions _ => Err e
  | ReplicaCount _ _ => Err e
  | CreateTopics _ _ => Err e
  | DeleteTopics _ _ => Err e
  | AlterConfigs _ _ => Err e
  | CreatePartitions _ _ => Err e
  | DescribeConfigs _ _ => Err e
  | DescribeAcls _ _ => Err e
  | BrokerOpen _ _ => Some e
  | ReadFile _ => Err e
  | LoadX509KeyPair _ _ => Err e
  end.

(** ** The client *)

(** The package's [Config]. *)
Record Config : Type := mk_Config
  { BootstrapServers : option (list string);
    Timeout : Z;
    CACert : option x509_Certificate;
    CACertFile : string;
    ClientCert : option tls_Certificate;
    ClientCertFile : string;
    ClientCertKey : string;
    TLSEnabled : bool;
    SkipTLSVerify : bool;
    SASLUsername : string;
    SASLPassword : string }.

(** The package's [Client]; the cluster client it holds is the world the
    calls go to. *)
Record Client : Type := mk_Client
  { kafkaConfig : sarama_Config;
    config : Config }.

(** [time.Duration(n) * time.Second], an [int64] of nanoseconds. *)
Definition seconds (n : Z) : Z := wrap 64 (wrap 64 n * 1000000000).

Definition set_Partitions (t : Topic) (n : Z) : Topic :=
  {| Name := Name t; Partitions_ := n;
     ReplicationFactor := ReplicationFactor t; Config_ := Config_ t |}.

Definition set_ReplicationFactor (t : Topic) (n : Z) : Topic :=
  {| Name := Name t; Partitions_ := Partitions_ t;
     ReplicationFactor := n; Config_ := Config_ t |}.

Definition set_Config (t : Topic) (m : gmap string (option string)) : Topic :=
  {| Name := Name t; Partitions_ := Partitions_ t;
     ReplicationFactor := ReplicationFactor t; Config_ := m |}.

Section Client.
Context `{Sarama}.

(** [configToResources] is a helper of the package that is not part of
    the sources at hand. *)
Variable configToResources : Topic -> list AlterConfigsResource.

(** The loop of [DeleteTopic] over [res.TopicErrorCodes]: the error
    returned from inside the loop, if any. *)
Fixpoint DeleteTopic_codes (codes : list (string * KError)) : option error :=
  match codes with
  | [] => None
  | (k, e) :: rest =>
      if negb (e =? ErrNoError)%Z
      then Some (ErrorString (k +:+ " : " +:+ KError_Error e))
      else DeleteTopic_codes rest
  end.

Definition DeleteTopic (c : Client) (t : string) : Prog (option error) :=
  broker ← call Controller;
  match broker with
  | Err err => Ret (Some err)
  | Ok broker =>
      let timeout := seconds (Timeout (config c)) in
      let req := {| dt_Topics := [t]; dt_Timeout := timeout |} in
      res ← call (DeleteTopics broker req);
      match res with
      | Ok res =>
          match DeleteTopic_codes (TopicErrorCodes res) with
          | Some e => Ret (Some e)
          | None => Ret None
          end
      | Err err => Ret (Some err)
      end
  end.

(** The loop of [UpdateTopic] over [res.Resources]. *)
Fixpoint UpdateTopic_codes (rs : list AlterConfigsResourceResponse) : option error :=
  match rs with
  | [] => None
  | e :: rest =>
      if negb (ErrorCode e =? int16 ErrNoError)%Z
      then Some (ErrorString (ErrorMsg e))
      else UpdateTopic_codes rest
  end.

Definition UpdateTopic (c : Client) (topic : Topic) : Prog (option error) :=
  broker ← call Controller;
  match broker with
  | Err err => Ret (Some err)
  | Ok broker =>
      let r := {| ac_Resources := configToResources topic; ac_ValidateOnly := false |} in
      res ← call (AlterConfigs broker r);
      match res with
      | Err err => Ret (Some err)
      | Ok res =>
          match UpdateTopic_codes (acr_Resources res) with
          | Some e => Ret (Some e)
          | None => Ret None
          end
      end
  end.

(** The loop of [CreateTopic] over [res.TopicErrors]. *)
Fixpoint CreateTopic_codes (es : list (string * TopicError)) : option error :=
  match es with
  | [] => None
  | (_, e) :: rest =>
      if negb (te_Err e =? ErrNoError)%Z
      then Some (ErrorString (KError_Error (te_Err e)))
      else CreateTopic_codes rest
  end.

Definition CreateTopic (c : Client) (t : Topic) : Prog (option error) :=
  broker ← call Controller;
  match broker with
  | Err err => Ret (Some err)
  | Ok broker =>
      let timeout := seconds (Timeout (config c)) in
      let req :=
        {| TopicDetails :=
             {[ Name t := {| NumPartitions := Partitions_ t;
                             td_ReplicationFactor := ReplicationFactor t;
                             ConfigEntries := Config_ t |} ]};
           ct_Timeout := timeout |} in
      res ← call (CreateTopics broker req);
      match res with
      | Ok res =>
          match CreateTopic_codes (TopicErrors res) with
          | Some e => Ret (Some e)
          | None => Ret None
          end
      | Err err => Ret (Some err)
      end
  end.

(** The loop of [AddPartitions] over [res.TopicPartitionErrors]. *)
Fixpoint AddPartitions_codes (es : list (string * TopicPartitionError)) : option error :=
  match es with
  | [] => None
  | (_, e) :: rest =>
      if negb (tpe_Err e =? ErrNoError)%Z
      then Some (ErrorString (KError_Error (tpe_Err e)))
      else AddPartitions_codes rest
  end.

Definition AddPartitions (c : Client) (t : Topic) : Prog (option error) :=
  broker ← call Controller;
  match broker with
  | Err err => Ret (Some err)
  | Ok broker =>
      let timeout := seconds (Timeout (config c)) in
      let tp : gmap string TopicPartition :=
        {[ Name t := {| Count := Partitions_ t; Assignment := [] |} ]} in
      let req := {| TopicPartitions := tp; cp_Timeout := timeout; cp_ValidateOnly := false |} in
      res ← call (CreatePartitions broker req);
      match res with
      | Ok res =>
          match AddPartitions_codes (TopicPartitionErrors res) with
          | Some e => Ret (Some e)
          | None => Ret None
          end
      | Err err => Ret (Some err)
      end
  end.

(** The loop of [topicConfig] over the entries of the first resource. *)
Definition topicConfig_entries (version : Z) (entries : list ConfigEntry)
    (conf : gmap string (option string)) : gmap string (option string) :=
  fold_left
    (fun conf tConf =>
       let v := ce_Value tConf in
       if isDefault tConf version then conf
       else <[ ce_Name tConf := Some v ]> conf)
    entries conf.

Definition topicConfig (c : Client) (topic : string)
    : Prog (gmap string (option string) * option error) :=
  let conf : gmap string (option string) := ∅ in
  let request :=
    {| dc_Version := 1;
       dc_Resources := [ {| cr_Type := TopicResource; cr_Name := topic; cr_ConfigNames := [] |} ] |} in
  broker ← call Controller;
  match broker with
  | Err err => Ret (conf, Some err)
  | Ok broker =>
      cr ← call (DescribeConfigs broker request);
      match cr with
      | Err err => Ret (conf, Some err)
      | Ok cr =>
          match dcr_Resources cr with
          | r0 :: _ =>
              if (0 <? Z.of_nat (length (Configs r0)))%Z
              then Ret (topicConfig_entries (dcr_Version cr) (Configs r0) conf, None)
              else Ret (conf, None)
          | [] => Ret (conf, None)
          end
      end
  end.

(** The loop of [ReadTopic] over the topic names. *)
Fixpoint ReadTopic_topics (client : Client) (name : string) (topic : Topic)
    (topics : list string) : Prog (Topic * option error) :=
  match topics with
  | [] => Ret (topic, Some (TopicMissing (name +:+ " could not be found")))
  | t :: rest =>
      if (name =? t)%string then
        p ← call (Partitions t);
        match p with
        | Ok p =>
            let partitionCount := int32 (Z.of_nat (length p)) in
            let topic := set_Partitions topic partitionCount in
            r ← call (ReplicaCount name p);
            let topic :=
              match r with
              | Ok r => set_ReplicationFactor topic (int16 r)
              | Err _ => topic
              end in
            '(configToSave, err) ← topicConfig client t;
            match err with
            | Some err => Ret (topic, Some err)
            | None => Ret (set_Config topic configToSave, None)
            end
        | Err _ => ReadTopic_topics client name topic rest
        end
      else ReadTopic_topics client name topic rest
  end.

Definition ReadTopic (client : Client) (name : string) : Prog (Topic * option error) :=
  let topic := {| Name := name; Partitions_ := 0; ReplicationFactor := 0; Config_ := ∅ |} in
  _ ← call RefreshMetadata;
  topics ← call Topics;
  match topics with
  | Err err => Ret (topic, Some err)
  | Ok topics => ReadTopic_topics client name topic topics
  end.

(** The loop of [availableBroker] over the bootstrap addresses;
    [brokers] is the whole list, for the error message. *)
Fixpoint availableBroker_try (kc : sarama_Config) (brokers rest : list string)
    : Prog (option Broker * option error) :=
  match rest with
  | [] => Ret (None, Some (ErrorString ("No Available Brokers @ " +:+ fmt_strings brokers)))
  | b :: rest =>
      let broker := NewBroker b in
      err ← call (BrokerOpen broker kc);
      match err with
      | None => Ret (Some broker, None)
      | Some _ => availableBroker_try kc brokers rest
      end
  end.

Definition availableBroker (c : Client) : Prog (option Broker * option error) :=
  match BootstrapServers (config c) with
  | None => Panic "invalid memory address or nil pointer dereference"
  | Some brokers => availableBroker_try (kafkaConfig c) brokers brokers
  end.

Definition anyFilter (resourceType : Z) : DescribeAclsRequest :=
  {| da_Version := 1;
     da_AclFilter :=
       {| f_Version := 0;
          f_ResourceType := resourceType;
          f_ResourceName := None;
          f_ResourcePatternTypeFilter := AclPatternAny;
          f_Principal := None;
          f_Host := None;
          f_Operation := AclOperationAny;
          f_PermissionType := AclPermissionAny |} |}.

Definition allResources : list DescribeAclsRequest :=
  [ anyFilter AclResourceTopic;
    anyFilter AclResourceGroup;
    anyFilter AclResourceCluster;
    anyFilter AclResourceTransactionalID ].

(** The loop of [ListACLs] over [allResources]; [err] is the variable of
    the enclosing function, which the loop does not assign. *)
Fixpoint ListACLs_describe (broker : Broker) (reqs : list DescribeAclsRequest)
    (res : list ResourceAcls) (err : option error)
    : Prog (list ResourceAcls * option error) :=
  match reqs with
  | [] => Ret (res, err)
  | r :: reqs =>
      aclsR ← call (DescribeAcls broker r);
      match aclsR with
      | Err err' => Ret ([], Some err')
      | Ok aclsR =>
          if negb (da_Err aclsR =? ErrNoError)%Z
          then Ret ([], Some (ErrorString (KError_Error (da_Err aclsR))))
          else
            let res := fold_left (fun res a => (res ++ [a])%list) (da_ResourceAcls aclsR) res in
            ListACLs_describe broker reqs res err
      end
  end.

Definition ListACLs (c : Client) : Prog (list ResourceAcls * option error) :=
  '(broker, err) ← availableBroker c;
  match err with
  | Some err => Ret ([], Some err)
  | None =>
      err ← call RefreshMetadata;
      match err with
      | Some err => Ret ([], Some err)
      | None =>
          match broker with
          | Some broker => ListACLs_describe broker allResources [] err
          | None => Panic "invalid memory address or nil pointer dereference"
          end
      end
  end.

End Client.

(** ** The connection configuration *)

Definition set_Version (k : sarama_Config) (v : KafkaVersion) : sarama_Config :=
  {| Version := v; ClientID := ClientID k;
     Net_SASL_Enable := Net_SASL_Enable k; Net_SASL_User := Net_SASL_User k;
     Net_SASL_Password := Net_SASL_Password k;
     Net_TLS_Enable := Net_TLS_Enable k; Net_TLS_Config := Net_TLS_Config k |}.

Definition set_ClientID (k : sarama_Config) (id : string) : sarama_Config :=
  {| Version := Version k; ClientID := id;
     Net_SASL_Enable := Net_SASL_Enable k; Net_SASL_User := Net_SASL_User k;
     Net_SASL_Password := Net_SASL_Password k;
     Net_TLS_Enable := Net_TLS_Enable k; Net_TLS_Config := Net_TLS_Config k |}.

Definition set_SASL (k : sarama_Config) (enable : bool) (password user : string) : sarama_Config :=
  {| Version := Version k; ClientID := ClientID k;
     Net_SASL_Enable := enable; Net_SASL_User := user;
     Net_SASL_Password := password;
     Net_TLS_Enable := Net_TLS_Enable k; Net_TLS_Config := Net_TLS_Config k |}.

Definition set_TLS (k : sarama_Config) (enable : bool) (conf : tls_Config) : sarama_Config :=
  {| Version := Version k; ClientID := ClientID k;
     Net_SASL_Enable := Net_SASL_Enable k; Net_SASL_User := Net_SASL_User k;
     Net_SASL_Password := Net_SASL_Password k;
     Net_TLS_Enable := enable; Net_TLS_Config := Some conf |}.

Definition set_Certificates (t : tls_Config) (cs : list tls_Certificate) : tls_Config :=
  {| Certificates := cs; RootCAs := RootCAs t; InsecureSkipVerify := InsecureSkipVerify t |}.

Definition set_RootCAs (t : tls_Config) (pool : CertPool) : tls_Config :=
  {| Certificates := Certificates t; RootCAs := Some pool;
     InsecureSkipVerify := InsecureSkipVerify t |}.

Definition set_InsecureSkipVerify (t : tls_Config) (b : bool) : tls_Config :=
  {| Certificates := Certificates t; RootCAs := RootCAs t; InsecureSkipVerify := b |}.

(** The zero value [Config{}]. *)
Definition zero_Config : Config :=
  {| BootstrapServers := None; Timeout := 0;
     CACert := None; CACertFile := "";
     ClientCert := None; ClientCertFile := ""; ClientCertKey := "";
     TLSEnabled := false; SkipTLSVerify := false;
     SASLUsername := ""; SASLPassword := "" |}.

(** What a run of a test reports. *)
Inductive TestResult : Type :=
| Passed
| Fatal (msg : string)
| Failed (msg : string).

Section ConnectionConfig.
Context `{Sarama}.

Definition SASLEnabled (c : Config) : bool :=
  negb (SASLUsername c =? "")%string || negb (SASLPassword c =? "")%string.

Definition clientCert (c : Config) : Prog (option tls_Certificate * option error) :=
  match ClientCert c with
  | Some cert => Ret (Some cert, None)
  | None =>
      if negb (ClientCertFile c =? "")%string && negb (ClientCertKey c =? "")%string then
        cert ← call (LoadX509KeyPair (ClientCertFile c) (ClientCertKey c));
        match cert with
        | Err err => Ret (None, Some err)
        | Ok cert => Ret (Some cert, None)
        end
      else Ret (None, None)
  end.

Definition caCertPool (c : Config) : Prog (option CertPool * option error) :=
  let pool : CertPool := [] in
  match CACert c with
  | Some cert => Ret (Some (pool ++ [cert])%list, None)
  | None =>
      if (CACertFile c =? "")%string then
        caCert ← call (ReadFile (CACertFile c));
        match caCert with
        | Err err => Ret (None, Some err)
        | Ok caCert => Ret (Some (pool ++ certsFromPEM caCert)%list, None)
        end
      else Ret (Some pool, None)
  end.

(** [tlsConfig.BuildNameToCertificate()] fills a lookup table inside the
    [tls.Config]; it changes none of the fields modelled here. *)
Definition newTLSConfig (c : Config) : Prog (tls_Config * option error) :=
  let tlsConfig := {| Certificates := []; RootCAs := None; InsecureSkipVerify := false |} in
  '(cert, err) ← clientCert c;
  match err with
  | Some err => Ret (tlsConfig, Some err)
  | None =>
      let tlsConfig :=
        match cert with
        | Some cert => set_Certificates tlsConfig [cert]
        | None => tlsConfig
        end in
      '(pool, err) ← caCertPool c;
      match err with
      | Some err => Ret (tlsConfig, Some err)
      | None =>
          let tlsConfig :=
            match pool with
            | Some pool => set_RootCAs tlsConfig pool
            | None => tlsConfig
            end in
          Ret (tlsConfig, None)
      end
  end.

Definition newKafkaConfig (c : Config) : Prog (sarama_Config * option error) :=
  let kafkaConfig := NewConfig in
  let kafkaConfig := set_Version kafkaConfig V2_0_0_0 in
  let kafkaConfig := set_ClientID kafkaConfig "terraform-provider-kafka" in
  let kafkaConfig :=
    if SASLEnabled c
    then set_SASL kafkaConfig true (SASLPassword c) (SASLUsername c)
    else kafkaConfig in
  if TLSEnabled c then
    '(tlsConfig, err) ← newTLSConfig c;
    match err with
    | Some err => Ret (kafkaConfig, Some err)
    | None =>
        Ret (set_TLS kafkaConfig true (set_InsecureSkipVerify tlsConfig (SkipTLSVerify c)), None)
    end
  else Ret (kafkaConfig, None).

(** The package's unit test [Test_kafkaConfigVersion]. *)
Definition Test_kafkaConfigVersion : Prog TestResult :=
  let c := zero_Config in
  '(cfg, err) ← newKafkaConfig c;
  match err with
  | Some _ => Ret (Fatal "Config should be valid")
  | None =>
      if negb (KafkaVersion_eqb (Version cfg) V1_0_0_0)
      then Ret (Failed "Default version should be v1")
      else Ret Passed
  end.

End ConnectionConfig.

(** ** The vocabularies of the ACL translation

    Each [switch] of the translation read as a table: the case labels in
    the order of the source, each with the constant its case returns. *)

Section Vocabulary.
Context `{Sarama}.

Definition operations : list (string * Z) :=
  [ ("Unknown", AclOperationUnknown); ("Any", AclOperationAny); ("All", AclOperationAll);
    ("Read", AclOperationRead); ("Write", AclOperationWrite); ("Create", AclOperationCreate);
    ("Delete", AclOperationDelete); ("Alter", AclOperationAlter);
    ("Describe", AclOperationDescribe); ("ClusterAction", AclOperationClusterAction);
    ("DescribeConfigs", AclOperationDescribeConfigs);
    ("AlterConfigs", AclOperationAlterConfigs);
    ("IdempotentWrite", AclOperationIdempotentWrite) ].

Definition permissionTypes : list (string * Z) :=
  [ ("Unknown", AclPermissionUnknown); ("Any", AclPermissionAny);
    ("Deny", AclPermissionDeny); ("Allow", AclPermissionAllow) ].

Definition resourceTypes : list (string * Z) :=
  [ ("Unknown", AclResourceUnknown); ("Any", AclResourceAny); ("Topic", AclResourceTopic);
    ("Group", AclResourceGroup); ("Cluster", AclResourceCluster);
    ("TransactionalID", AclResourceTransactionalID) ].

Definition patternTypes : list (string * Z) :=
  [ ("any", AclPatternAny); ("match", AclPatternMatch);
    ("literal", AclPatternLiteral); ("prefixed", AclPatternPrefixed) ].

(** The library's constants of one enumeration differ from each other,
    and none is the sentinel of the package. *)
Definition enumeration (cases : list (string * Z)) : Prop :=
  NoDup cases.*2 /\ unknownConversion ∉ cases.*2.

Definition enumerations : Prop :=
  enumeration operations /\ enumeration permissionTypes /\
  enumeration resourceTypes /\ enumeration patternTypes.

End Vocabulary.

(** A string is one of the labels of a table. *)
Definition in_vocabulary (cases : list (string * Z)) (s : string) : bool :=
  existsb (String.eqb s) cases.*1.

(** A [switch] over string labels with the sentinel as its default. *)
Fixpoint switch (cases : list (string * Z)) (s : string) : Z :=
  match cases with
  | [] => unknownConversion
  | (label, v) :: cases => if (s =? label)%string then v else switch cases s
  end.

(** The canonical string of an enumeration value, as the specification
    has it: the vocabulary string listed for the value, which is the
    label of the first case of the table that returns it. *)
Fixpoint canonical (cases : list (string * Z)) (v : Z) : option string :=
  match cases with
  | [] => None
  | (label, v') :: cases => if (v =? v')%Z then Some label else canonical cases v
  end.

(** What the specification asks of a translation [f] with vocabulary
    [cases]. *)
Definition total_translation (f : string -> Z) (cases : list (string * Z)) : Prop :=
  (forall s v, (s, v) ∈ cases -> f s = v) /\
  (forall s s', s ∈ cases.*1 -> s' ∈ cases.*1 -> f s = f s' -> s = s') /\
  (forall s, s ∈ cases.*1 -> f s <> unknownConversion) /\
  (forall s, s ∉ cases.*1 -> f s = unknownConversion) /\
  (forall v, v ∈ cases.*2 -> v <> unknownConversion ->
     exists s, canonical cases v = Some s /\ f s = v).

(** A string field of an ACL as the validation sees it: the name the
    error message gives it, its vocabulary, its value. *)
Record Field : Type := mk_Field
  { label : string;
    vocabulary : list (string * Z);
    value : string }.

(** The first field, in checking order, whose value is outside its
    vocabulary. *)
Definition first_invalid (fields : list Field) : option Field :=
  find (fun f => negb (in_vocabulary (vocabulary f) (value f))) fields.

Section Fields.
Context `{Sarama}.

Definition operation_field (s : stringlyTypedACL) : Field :=
  mk_Field "operation" operations (ACL_Operation (sACL s)).
Definition permission_field (s : stringlyTypedACL) : Field :=
  mk_Field "permission type" permissionTypes (ACL_PermissionType (sACL s)).
Definition resource_field (s : stringlyTypedACL) : Field :=
  mk_Field "resource type" resourceTypes (Resource_Type (sResource s)).
Definition pattern_field (s : stringlyTypedACL) : Field :=
  mk_Field "pattern type filter" patternTypes (Resource_PatternTypeFilter (sResource s)).

(** Every string field of a string-typed ACL that has a vocabulary. *)
Definition string_fields (s : stringlyTypedACL) : list Field :=
  [ operation_field s; permission_field s; resource_field s; pattern_field s ].

(** The fields [AclFilter] reads. *)
Definition filter_fields (s : stringlyTypedACL) : list Field :=
  [ operation_field s; permission_field s; resource_field s ].

(** The creation record with every field translated. *)
Definition translated_creation (s : stringlyTypedACL) : sarama_AclCreation :=
  {| ac_Acl :=
       {| acl_Principal := ACL_Principal (sACL s);
          acl_Host := ACL_Host (sACL s);
          acl_Operation := switch operations (ACL_Operation (sACL s));
          acl_PermissionType := switch permissionTypes (ACL_PermissionType (sACL s)) |};
     ac_Resource :=
       {| res_ResourceType := switch resourceTypes (Resource_Type (sResource s));
          res_ResourceName := Resource_Name (sResource s);
          res_ResoucePatternType :=
            switch patternTypes (Resource_PatternTypeFilter (sResource s)) |} |}.

(** The filter with the fields [AclFilter] reads translated, and the
    pattern type left at the zero value. *)
Definition translated_filter (s : stringlyTypedACL) : sarama_AclFilter :=
  {| f_Version := 0;
     f_ResourceType := switch resourceTypes (Resource_Type (sResource s));
     f_ResourceName := Some (Resource_Name (sResource s));
     f_ResourcePatternTypeFilter := 0;
     f_Principal := Some (ACL_Principal (sACL s));
     f_Host := Some (ACL_Host (sACL s));
     f_Operation := switch operations (ACL_Operation (sACL s));
     f_PermissionType := switch permissionTypes (ACL_PermissionType (sACL s)) |}.

End Fields.

(** ** Programs that return *)

(** [returns p]: whatever the answers, [p] does not panic. *)
Fixpoint returns {A : Type} (p : Prog A) : Prop :=
  match p with
  | Ret _ => True
  | Panic _ => False
  | Vis c k => forall x : Resp c, returns (k x)
  end.

(** ** An instance of the library

    The constants numbered as the [iota] blocks of the library number
    them, with the error texts cut short. *)
Definition sarama_iota : Sarama :=
  {| ErrNoError := 0;
     KError_Error := fun k =>
       if (k =? 0)%Z then "kafka server: Not an error, why are you printing me?"
       else "kafka server: error";
     SourceDefault := 5;
     SourceStaticBroker := 4;
     TopicResource := 2;
     AclOperationUnknown := 0;
     AclOperationAny := 1;
     AclOperationAll := 2;
     AclOperationRead := 3;
     AclOperationWrite := 4;
     AclOperationCreate := 5;
     AclOperationDelete := 6;
     AclOperationAlter := 7;
     AclOperationDescribe := 8;
     AclOperationClusterAction := 9;
     AclOperationDescribeConfigs := 10;
     AclOperationAlterConfigs := 11;
     AclOperationIdempotentWrite := 12;
     AclPermissionUnknown := 0;
     AclPermissionAny := 1;
     AclPermissionDeny := 2;
     AclPermissionAllow := 3;
     AclResourceUnknown := 0;
     AclResourceAny := 1;
     AclResourceTopic := 2;
     AclResourceGroup := 3;
     AclResourceCluster := 4;
     AclResourceTransactionalID := 5;
     AclPatternAny := 1;
     AclPatternMatch := 2;
     AclPatternLiteral := 3;
     AclPatternPrefixed := 4;
     NewConfig :=
       {| Version := newKafkaVersion 0 8 2 0; ClientID := "sarama";
          Net_SASL_Enable := false; Net_SASL_User := ""; Net_SASL_Password := "";
          Net_TLS_Enable := false; Net_TLS_Config := None |};
     certsFromPEM := fun pem => if (pem =? "")%string then [] else [X509Certificate pem] |}.

(** ** Outcomes of the mutating operations *)

Section Outcomes.
Context `{Sarama}.

(** For the response of a mutating request that arrived without a
    transport error: for each item of the response, in the order the
    operation reads them, whether its code differs from "no error". *)
Definition item_failures (ev : Event) : option (list bool) :=
  match ev with
  | CreateTopicsEv _ _ (Ok res) =>
      Some (map (fun e => negb (te_Err e.2 =? ErrNoError)%Z) (TopicErrors res))
  | DeleteTopicsEv _ _ (Ok res) =>
      Some (map (fun e => negb (e.2 =? ErrNoError)%Z) (TopicErrorCodes res))
  | AlterConfigsEv _ _ (Ok res) =>
      Some (map (fun e => negb (ErrorCode e =? int16 ErrNoError)%Z) (acr_Resources res))
  | CreatePartitionsEv _ _ (Ok res) =>
      Some (map (fun e => negb (tpe_Err e.2 =? ErrNoError)%Z) (TopicPartitionErrors res))
  | _ => None
  end.

(** What the specification asks of a mutating operation [p]: it
    returns; it returns no error exactly when the controller was found
    and the response arrived with every item code "no error"; and it
    returns an error when the response arrived with an item code that is
    not. *)
Definition reports_item_errors (p : Prog (option error)) : Prop :=
  returns p /\
  forall tr r, exec p tr r ->
    (r = None <->
       exists b ev fl, tr = [ControllerEv (Ok b); ev] /\
                       item_failures ev = Some fl /\ true ∉ fl) /\
    (forall b ev fl, tr = [ControllerEv (Ok b); ev] ->
       item_failures ev = Some fl -> true ∈ fl -> is_Some r).

End Outcomes.

(** ** Reading traces *)

(** [s] occurs in [t]. *)
Definition contains (s t : string) : Prop :=
  exists pre post, t = pre +:+ s +:+ post.

(** The topic [ReadTopic] starts from: the name, everything else zero. *)
Definition named (name : string) : Topic :=
  {| Name := name; Partitions_ := 0; ReplicationFactor := 0; Config_ := ∅ |}.

(** The result of [ReadTopic] for a topic it reports missing. *)
Definition missing (name : string) : Topic * option error :=
  (named name, Some (TopicMissing (name +:+ " could not be found"))).

(** The attempt to open a connection to an address, with its answer. *)
Definition attempt (kc : sarama_Config) (a : string * option error) : Event :=
  BrokerOpenEv (NewBroker a.1) kc a.2.

(** The describe-ACL queries of a trace, each with its answer. *)
Definition describes (tr : list Event) : list (DescribeAclsRequest * result DescribeAclsResponse) :=
  omap (fun ev => match ev with DescribeAclsEv _ req r => Some (req, r) | _ => None end) tr.

(** The ACL entries an answer carries. *)
Definition entries (a : result DescribeAclsResponse) : list ResourceAcls :=
  match a with
  | Ok res => da_ResourceAcls res
  | Err _ => []
  end.

Section Answers.
Context `{Sarama}.

(** A describe-ACL query that came back without a transport error and
    with the response code "no error". *)
Definition described (a : result DescribeAclsResponse) : Prop :=
  exists res, a = Ok res /\ da_Err res = ErrNoError.

End Answers.

(** ** The rest of the package *)

(** [%v] of a [bool], and a line feed. *)
Definition fmt_bool (b : bool) : string := if b then "true" else "false".

Definition LF : string := String (Ascii.ascii_of_nat 10) "".

(** [Config.String]; [None] stands for the panic of dereferencing a nil
    [BootstrapServers]. *)
Definition Config_String (c : Config) : option string :=
  match BootstrapServers c with
  | None => None
  | Some servers =>
      Some ("BootstrapServers: " +:+ fmt_strings servers +:+ LF +:+
            "Timeout: " +:+ pretty (Timeout c) +:+ "," +:+ LF +:+
            "TLS: " +:+ fmt_bool (TLSEnabled c) +:+
            ",SkipVerify: " +:+ fmt_bool (SkipTLSVerify c))
  end.

(** [stringlyTypedACL.String]: the seven fields joined with a bar. *)
Definition stringlyTypedACL_String (a : stringlyTypedACL) : string :=
  String.concat "|"
    [ ACL_Principal (sACL a); ACL_Host (sACL a); ACL_Operation (sACL a);
      ACL_PermissionType (sACL a); Resource_Type (sResource a);
      Resource_Name (sResource a); Resource_PatternTypeFilter (sResource a) ].

(** A string without the character [c]. *)
Fixpoint free_of (c : Ascii.ascii) (s : string) : bool :=
  match s with
  | EmptyString => true
  | String a s => negb (Ascii.eqb a c) && free_of c s
  end.

Definition bar : Ascii.ascii := Ascii.ascii_of_nat 124.

(** The value of the configuration key [k] that [topicConfig] keeps: the
    value of the last entry of that name that is not a default. *)
Fixpoint explicit_value `{Sarama} (version : Z) (entries : list ConfigEntry) (k : string)
    : option string :=
  match entries with
  | [] => None
  | e :: entries =>
      match explicit_value version entries k with
      | Some v => Some v
      | None =>
          if negb (isDefault e version) && (ce_Name e =? k)%string
          then Some (ce_Value e) else None
      end
  end.

(** The entries [topicConfig] reads off a response: those of the first
    resource. *)
Definition first_configs (cr : DescribeConfigsResponse) : list ConfigEntry :=
  match dcr_Resources cr with
  | r0 :: _ => Configs r0
  | [] => []
  end.

(** The transport error of a mutating request that did not come back,
    and the timeout a request carries. *)
Definition request_error (ev : Event) : option error :=
  match ev with
  | CreateTopicsEv _ _ (Err e) => Some e
  | DeleteTopicsEv _ _ (Err e) => Some e
  | AlterConfigsEv _ _ (Err e) => Some e
  | CreatePartitionsEv _ _ (Err e) => Some e
  | _ => None
  end.

Definition request_timeout (ev : Event) : option Z :=
  match ev with
  | CreateTopicsEv _ req _ => Some (ct_Timeout req)
  | DeleteTopicsEv _ req _ => Some (dt_Timeout req)
  | CreatePartitionsEv _ req _ => Some (cp_Timeout req)
  | _ => None
  end.

(** A mutating operation hands on the errors of the transport: that of
    the controller lookup, after which it makes no call, and that of its
    request. *)
Definition hands_on_transport_errors (p : Prog (option error)) : Prop :=
  forall tr r, exec p tr r ->
    (forall e tr', tr = ControllerEv (Err e) :: tr' -> tr' = [] /\ r = Some e) /\
    (forall b ev e, tr = [ControllerEv (Ok b); ev] -> request_error ev = Some e -> r = Some e).

(** The calls of a trace that read certificates. *)
Definition is_LoadX509KeyPair (ev : Event) : bool :=
  match ev with LoadX509KeyPairEv _ _ _ => true | _ => false end.

Definition is_ReadFile (ev : Event) : bool :=
  match ev with ReadFileEv _ _ => true | _ => false end.

(** The error of an event whose call failed. *)
Definition call_error (ev : Event) : option error :=
  match ev with
  | LoadX509KeyPairEv _ _ (Err e) => Some e
  | ReadFileEv _ (Err e) => Some e
  | _ => None
  end.

(** *** Creating and deleting ACLs

    [CreateACL] and [DeleteACL] make two more calls on a broker, and
    [DeleteACL] writes a line to the log that shows the ACL
    ([log.Printf] with the verb [%v], which formats the ACL with its
    [String] method); the line is a call too, answered with nothing.  It is
    kept in the traces because it is the one place where [DeleteACL] reads
    the pattern type filter of the ACL.  The log lines of the topic
    operations show their arguments and results and feed nothing back; the
    traces of those operations hold the calls made on the cluster, the
    brokers and the file system only. *)

Record CreateAclsRequest : Type := mk_CreateAclsRequest
  { ca_Version : Z;
    ca_AclCreations : list sarama_AclCreation }.

Record AclCreationResponse : Type := mk_AclCreationResponse
  { aclr_Err : KError;
    aclr_ErrMsg : option string }.

Record CreateAclsResponse : Type := mk_CreateAclsResponse
  { AclCreationResponses : list AclCreationResponse }.

Record DeleteAclsRequest : Type := mk_DeleteAclsRequest
  { dl_Version : Z;
    dl_Filters : list sarama_AclFilter }.

Record FilterResponse : Type := mk_FilterResponse
  { fr_Err : KError;
    fr_ErrMsg : option string;
    fr_MatchingAcls : list (sarama_Resource * sarama_Acl) }.

Record DeleteAclsResponse : Type := mk_DeleteAclsResponse
  { FilterResponses : list FilterResponse }.

Inductive AclCall : Type :=
| ClientCall (c : Call)
| CreateAcls (broker : Broker) (req : CreateAclsRequest)
| DeleteAcls (broker : Broker) (req : DeleteAclsRequest)
| Log (text : string).

Definition AclResp (c : AclCall) : Type :=
  match c with
  | ClientCall c => Resp c
  | CreateAcls _ _ => result CreateAclsResponse
  | DeleteAcls _ _ => result DeleteAclsResponse
  | Log _ => unit
  end.

Inductive AclEvent : Type :=
| ClientEv (ev : Event)
| CreateAclsEv (broker : Broker) (req : CreateAclsRequest) (r : result CreateAclsResponse)
| DeleteAclsEv (broker : Broker) (req : DeleteAclsRequest) (r : result DeleteAclsResponse)
| LogEv (text : string).

Definition acl_event (c : AclCall) : AclResp c -> AclEvent :=
  match c with
  | ClientCall c => fun x => ClientEv (event c x)
  | CreateAcls b r => CreateAclsEv b r
  | DeleteAcls b r => DeleteAclsEv b r
  | Log text => fun _ => LogEv text
  end.

(** Programs over these calls, with the programs of the client among
    them. *)
Inductive AclProg (A : Type) : Type :=
| ARet (a : A)
| APanic (msg : string)
| AVis (c : AclCall) (k : AclResp c -> AclProg A).
Arguments ARet {A} a.
Arguments APanic {A} msg.
Arguments AVis {A} c k.

Fixpoint acl_bind {A B : Type} (p : AclProg A) (f : A -> AclProg B) : AclProg B :=
  match p with
  | ARet a => f a
  | APanic msg => APanic msg
  | AVis c k => AVis c (fun x => acl_bind (k x) f)
  end.

#[global] Instance AclProg_ret : MRet AclProg := fun A a => ARet a.
#[global] Instance AclProg_bind : MBind AclProg := fun A B f p => acl_bind p f.

Definition acl_call (c : AclCall) : AclProg (AclResp c) := AVis c ARet.

Fixpoint lift {A : Type} (p : Prog A) : AclProg A :=
  match p with
  | Ret a => ARet a
  | Panic msg => APanic msg
  | Vis c k => AVis (ClientCall c) (fun x => lift (k x))
  end.

Fixpoint acl_exec {A : Type} (p : AclProg A) (tr : list AclEvent) (a : A) : Prop :=
  match p with
  | ARet v => tr = [] /\ v = a
  | APanic _ => False
  | AVis c k =>
      exists (x : AclResp c) (tr' : list AclEvent),
        tr = acl_event c x :: tr' /\ acl_exec (k x) tr' a
  end.

Fixpoint acl_returns {A : Type} (p : AclProg A) : Prop :=
  match p with
  | ARet _ => True
  | APanic _ => False
  | AVis c k => forall x : AclResp c, acl_returns (k x)
  end.

Section ACLAdmin.
Context `{Sarama}.

(** The loop of [CreateACL] over [res.AclCreationResponses]. *)
Fixpoint CreateACL_codes (rs : list AclCreationResponse) : option error :=
  match rs with
  | [] => None
  | r :: rest =>
      if negb (aclr_Err r =? ErrNoError)%Z
      then Some (KErrorValue (aclr_Err r))
      else CreateACL_codes rest
  end.

Definition CreateACL (c : Client) (s : stringlyTypedACL) : AclProg (option error) :=
  '(broker, err) ← lift (availableBroker c);
  match err with
  | Some err => ARet (Some err)
  | None =>
      let '(ac, err) := AclCreation s in
      match err with
      | Some err => ARet (Some err)
      | None =>
          let req := {| ca_Version := 1; ca_AclCreations := [ac] |} in
          match broker with
          | None => APanic "invalid memory address or nil pointer dereference"
          | Some broker =>
              res ← acl_call (CreateAcls broker req);
              match res with
              | Err err => ARet (Some err)
              | Ok res =>
                  match CreateACL_codes (AclCreationResponses res) with
                  | Some e => ARet (Some e)
                  | None => ARet None
                  end
              end
          end
      end
  end.

(** The loop of [DeleteACL] over [res.FilterResponses]. *)
Fixpoint DeleteACL_codes (rs : list FilterResponse) : option error :=
  match rs with
  | [] => None
  | r :: rest =>
      if negb (fr_Err r =? ErrNoError)%Z
      then Some (KErrorValue (fr_Err r))
      else DeleteACL_codes rest
  end.

Definition DeleteACL (c : Client) (s : stringlyTypedACL) : AclProg (option error) :=
  '(broker, err) ← lift (availableBroker c);
  match err with
  | Some err => ARet (Some err)
  | None =>
      let '(filter, err) := AclFilter s in
      match err with
      | Some err => ARet (Some err)
      | None =>
          let req := {| dl_Version := 0; dl_Filters := [filter] |} in
          _ ← acl_call (Log ("[INFO] Deleting ACL " +:+ stringlyTypedACL_String s +:+ LF));
          match broker with
          | None => APanic "invalid memory address or nil pointer dereference"
          | Some broker =>
              res ← acl_call (DeleteAcls broker req);
              match res with
              | Err err => ARet (Some err)
              | Ok res =>
                  match DeleteACL_codes (FilterResponses res) with
                  | Some e => ARet (Some e)
                  | None => ARet None
                  end
              end
          end
      end
  end.

(** The [Error] method of the errors of the package. *)
Definition Error (e : error) : string :=
  match e with
  | TransportError msg => msg
  | KErrorValue code => KError_Error code
  | ErrorString msg => msg
  | TopicMissing msg => msg
  end.

End ACLAdmin.

(** The requests to create and to delete ACLs in a trace. *)
Definition creations (tr : list AclEvent) : list (Broker * CreateAclsRequest) :=
  omap (fun ev => match ev with CreateAclsEv b req _ => Some (b, req) | _ => None end) tr.




(** The fields of a string-typed ACL that [String] writes before the
    last bar. *)
Definition leading_fields (a : stringlyTypedACL) : list string :=
  [ ACL_Principal (sACL a); ACL_Host (sACL a); ACL_Operation (sACL a);
    ACL_PermissionType (sACL a); Resource_Type (sResource a); Resource_Name (sResource a) ].

(** The client certificates and the trusted roots of a derived
    configuration. *)
Definition certificates_of (k : sarama_Config) : option (list tls_Certificate) :=
  Certificates <$> Net_TLS_Config k.

Definition roots_of (k : sarama_Config) : option CertPool :=
  Net_TLS_Config k ≫= RootCAs.

(** The partition lists that a trace holds as answers. *)
Definition partitions_answered (tr : list Event) : list (list Z) :=
  omap (fun ev => match ev with PartitionsEv _ (Ok p) => Some p | _ => None end) tr.

(** A call of [ReadTopic] that is about the cluster as a whole or about
    the topic [name], and about no other topic. *)
Definition concerns (name : string) (ev : Event) : Prop :=
  match ev with
  | RefreshMetadataEv _ | TopicsEv _ | ControllerEv _ => True
  | PartitionsEv t _ => t = name
  | ReplicaCountEv n _ _ => n = name
  | DescribeConfigsEv _ req _ => map cr_Name (dc_Resources req) = [name]
  | _ => False
  end.

(** *** The requests of the mutating operations *)

(** The request each of them builds, as a function of its arguments. *)
Definition CreateTopic_request (c : Client) (t : Topic) : CreateTopicsRequest :=
  {| TopicDetails :=
       {[ Name t := {| NumPartitions := Partitions_ t;
                       td_ReplicationFactor := ReplicationFactor t;
                       ConfigEntries := Config_ t |} ]};
     ct_Timeout := seconds (Timeout (config c)) |}.

Definition DeleteTopic_request (c : Client) (t : string) : DeleteTopicsRequest :=
  {| dt_Topics := [t]; dt_Timeout := seconds (Timeout (config c)) |}.

Definition UpdateTopic_request (configToResources : Topic -> list AlterConfigsResource)
    (topic : Topic) : AlterConfigsRequest :=
  {| ac_Resources := configToResources topic; ac_ValidateOnly := false |}.

Definition AddPartitions_request (c : Client) (t : Topic) : CreatePartitionsRequest :=
  {| TopicPartitions := {[ Name t := {| Count := Partitions_ t; Assignment := [] |} ]};
     cp_Timeout := seconds (Timeout (config c));
     cp_ValidateOnly := false |}.

Section Runs.
Context `{Sarama}.

(** A mutating operation [p] does make its calls: whatever the
    controller lookup and the request are answered, the lookup alone (when
    it fails) or the lookup followed by the request [request b x] sent to
    the controller [b] is a run of [p]; and the run in which the response
    arrives with every item code "no error" returns no error. *)
Definition makes_its_request {R : Type} (p : Prog (option error))
    (request : Broker -> result R -> Event) : Prop :=
  (forall e, exec p [ControllerEv (Err e)] (Some e)) /\
  (forall b x, exists r, exec p [ControllerEv (Ok b); request b x] r) /\
  (forall b x fl, item_failures (request b x) = Some fl -> true ∉ fl ->
     exec p [ControllerEv (Ok b); request b x] None).

End Runs.

(** *** What [newKafkaConfig] derives

    The configuration of [newKafkaConfig] before it looks at TLS, and what
    it returns with TLS on once the client certificate step has given
    [certs] and [caCertPool] has returned [roots]. *)
Section Derived.
Context `{Sarama}.

Definition kafkaConfig_base (c : Config) : sarama_Config :=
  let k := set_ClientID (set_Version NewConfig V2_0_0_0) "terraform-provider-kafka" in
  if SASLEnabled c then set_SASL k true (SASLPassword c) (SASLUsername c) else k.

Definition kafkaConfig_with_roots (c : Config) (certs : list tls_Certificate)
    (roots : option CertPool * option error) : sarama_Config * option error :=
  match roots.2 with
  | Some e => (kafkaConfig_base c, Some e)
  | None =>
      (set_TLS (kafkaConfig_base c) true
         {| Certificates := certs; RootCAs := roots.1;
            InsecureSkipVerify := SkipTLSVerify c |}, None)
  end.

End Derived.

(** ** Sample inputs *)

(** A string-typed ACL whose pattern type filter is not in the
    vocabulary; every other field is. *)
Definition acl_bogus_pattern : stringlyTypedACL :=
  {| sACL := {| ACL_Principal := "User:alice"; ACL_Host := "*";
                ACL_Operation := "Read"; ACL_PermissionType := "Allow" |};
     sResource := {| Resource_Type := "Topic"; Resource_Name := "orders";
                     Resource_PatternTypeFilter := "bogus" |} |}.

(** A string-typed ACL with every field in its vocabulary. *)
Definition acl_prefixed : stringlyTypedACL :=
  {| sACL := {| ACL_Principal := "User:alice"; ACL_Host := "*";
                ACL_Operation := "Read"; ACL_PermissionType := "Allow" |};
     sResource := {| Resource_Type := "Topic"; Resource_Name := "orders";
                     Resource_PatternTypeFilter := "prefixed" |} |}.

(** A configuration with TLS on, no CA certificate in memory, and the
    path of a CA file. *)
Definition config_ca_file : Config :=
  {| BootstrapServers := Some ["localhost:9092"]; Timeout := 10;
     CACert := None; CACertFile := "ca.pem";
     ClientCert := None; ClientCertFile := ""; ClientCertKey := "";
     TLSEnabled := true; SkipTLSVerify := false;
     SASLUsername := ""; SASLPassword := "" |}.

(** A client with two bootstrap addresses. *)
Definition client_two_addresses : Client :=
  {| kafkaConfig :=
       {| Version := V2_0_0_0; ClientID := "terraform-provider-kafka";
          Net_SASL_Enable := false; Net_SASL_User := ""; Net_SASL_Password := "";
          Net_TLS_Enable := false; Net_TLS_Config := None |};
     config :=
       {| BootstrapServers := Some ["bad:1"; "good:2"]; Timeout := 10;
          CACert := None; CACertFile := "";
          ClientCert := None; ClientCertFile := ""; ClientCertKey := "";
          TLSEnabled := false; SkipTLSVerify := false;
          SASLUsername := ""; SASLPassword := "" |} |}.

Definition topic_orders : Topic :=
  {| Name := "orders"; Partitions_ := 3; ReplicationFactor := 1; Config_ := ∅ |}.

(** The request [CreateTopic] sends for [topic_orders]. *)
Definition create_orders : CreateTopicsRequest :=
  {| TopicDetails :=
       {[ "orders" := {| NumPartitions := 3; td_ReplicationFactor := 1; ConfigEntries := ∅ |} ]};
     ct_Timeout := seconds 10 |}.

(** A response to it that arrived, with the item code 36 ("topic already
    exists"). *)
Definition orders_exists : CreateTopicsResponse :=
  {| TopicErrors := [ ("orders", {| te_Err := 36; te_ErrMsg := None |}) ] |}.

(** One ACL entry per resource type, and the answers of a run of
    [ListACLs] in which every query succeeds. *)
Definition acls_of (resourceType : Z) (name : string) : ResourceAcls :=
  {| ra_Resource := mk_sarama_Resource resourceType name 3;
     ra_Acls := [ mk_sarama_Acl "User:alice" "*" 3 3 ] |}.

Definition answer_of (l : list ResourceAcls) : result DescribeAclsResponse :=
  Ok {| da_Err := 0; da_ErrMsg := None; da_ResourceAcls := l |}.

Definition trace_list_acls : list Event :=
  let kc := kafkaConfig client_two_addresses in
  let b := NewBroker "good:2" in
  [ BrokerOpenEv (NewBroker "bad:1") kc (Some (TransportError "connection refused"));
    BrokerOpenEv b kc None;
    RefreshMetadataEv None;
    DescribeAclsEv b (anyFilter (H := sarama_iota) 2) (answer_of [acls_of 2 "orders"]);
    DescribeAclsEv b (anyFilter (H := sarama_iota) 3) (answer_of [acls_of 3 "billing"]);
    DescribeAclsEv b (anyFilter (H := sarama_iota) 4) (answer_of []);
    DescribeAclsEv b (anyFilter (H := sarama_iota) 5) (answer_of [acls_of 5 "tx"]) ].

(** A world in which one address accepts connections and every other
    call fails. *)
Definition world_accepting (good : string) : World unit :=
  fun c w =>
    (match c as c0 return Resp c0 with
     | BrokerOpen b _ =>
         if (addr b =? good)%string then None
         else Some (TransportError "connection refused")
     | c0 => failed c0
     end, w).

(** A client whose list of bootstrap addresses is empty. *)
Definition client_no_address : Client :=
  {| kafkaConfig := kafkaConfig client_two_addresses;
     config :=
       {| BootstrapServers := Some []; Timeout := 10;
          CACert := None; CACertFile := "";
          ClientCert := None; ClientCertFile := ""; ClientCertKey := "";
          TLSEnabled := false; SkipTLSVerify := false;
          SASLUsername := ""; SASLPassword := "" |} |}.

(** A configuration with TLS on, both certificates in memory and paths
    set beside them, and SASL credentials. *)
Definition config_tls_memory : Config :=
  {| BootstrapServers := Some ["localhost:9092"]; Timeout := 10;
     CACert := Some (X509Certificate "ca"); CACertFile := "ca.pem";
     ClientCert := Some (TLSCertificate "client");
     ClientCertFile := "client.pem"; ClientCertKey := "client.key";
     TLSEnabled := true; SkipTLSVerify := true;
     SASLUsername := "alice"; SASLPassword := "secret" |}.

(** The configuration that [newKafkaConfig] derives from it. *)
Definition kafka_tls_memory : sarama_Config :=
  {| Version := V2_0_0_0; ClientID := "terraform-provider-kafka";
     Net_SASL_Enable := true; Net_SASL_User := "alice"; Net_SASL_Password := "secret";
     Net_TLS_Enable := true;
     Net_TLS_Config :=
       Some {| Certificates := [TLSCertificate "client"];
               RootCAs := Some [X509Certificate "ca"];
               InsecureSkipVerify := true |} |}.

(** A description of the configuration of a topic: one entry set on the
    topic, one default. *)
Definition describe_orders : DescribeConfigsResponse :=
  {| dcr_Version := 1;
     dcr_Resources :=
       [ {| Configs := [ mk_ConfigEntry "retention.ms" "1000" false 1;
                         mk_ConfigEntry "cleanup.policy" "delete" true 5 ] |} ] |}.

Definition describe_orders_request : DescribeConfigsRequest :=
  {| dc_Version := 1;
     dc_Resources := [ {| cr_Type := 2; cr_Name := "orders"; cr_ConfigNames := [] |} ] |}.

(** A run of [CreateACL] and one of [DeleteACL] for [acl_prefixed], each
    answered with the code 7 ("request timed out") for its one item. *)
Definition trace_create_acl : list AclEvent :=
  [ ClientEv (BrokerOpenEv (NewBroker "bad:1") (kafkaConfig client_two_addresses)
                (Some (TransportError "connection refused")));
    ClientEv (BrokerOpenEv (NewBroker "good:2") (kafkaConfig client_two_addresses) None);
    CreateAclsEv (NewBroker "good:2")
      {| ca_Version := 1;
         ca_AclCreations := [translated_creation (H := sarama_iota) acl_prefixed] |}
      (Ok {| AclCreationResponses := [ {| aclr_Err := 7; aclr_ErrMsg := None |} ] |}) ].

Definition trace_delete_acl : list AclEvent :=
  [ ClientEv (BrokerOpenEv (NewBroker "bad:1") (kafkaConfig client_two_addresses)
                (Some (TransportError "connection refused")));
    ClientEv (BrokerOpenEv (NewBroker "good:2") (kafkaConfig client_two_addresses) None);
    LogEv ("[INFO] Deleting ACL User:alice|*|Read|Allow|Topic|orders|prefixed" +:+ LF);
    DeleteAclsEv (NewBroker "good:2")
      {| dl_Version := 0;
         dl_Filters := [translated_filter (H := sarama_iota) acl_prefixed] |}
      (Ok {| FilterResponses :=
               [ {| fr_Err := 7; fr_ErrMsg := None; fr_MatchingAcls := [] |} ] |}) ].

(** The connection attempts of those runs: the first address refuses, the
    second opens. *)
Definition trace_connect : list Event :=
  [ BrokerOpenEv (NewBroker "bad:1") (kafkaConfig client_two_addresses)
      (Some (TransportError "connection refused"));
    BrokerOpenEv (NewBroker "good:2") (kafkaConfig client_two_addresses) None ].

(** A configuration with TLS on, a certificate path without a key path, and
    neither a CA certificate in memory nor a CA path. *)
Definition config_half_pair : Config :=
  {| BootstrapServers := Some ["localhost:9092"]; Timeout := 10;
     CACert := None; CACertFile := "";
     ClientCert := None; ClientCertFile := "client.pem"; ClientCertKey := "";
     TLSEnabled := true; SkipTLSVerify := false;
     SASLUsername := ""; SASLPassword := "" |}.

(** * Properties *)

(** ** Tables *)

Lemma in_vocabulary_true (cases : list (string * Z)) (s : string) :
  in_vocabulary cases s = true <-> s ∈ cases.*1.
Proof.
  unfold in_vocabulary. rewrite existsb_exists. split.
  - intros (k & Hk & Heq). apply String.eqb_eq in Heq. subst k.
    by apply list_elem_of_In.
  - intros Hin. exists s. split; [by apply list_elem_of_In | apply String.eqb_refl].
Qed.

Lemma in_vocabulary_false (cases : list (string * Z)) (s : string) :
  in_vocabulary cases s = false <-> s ∉ cases.*1.
Proof.
  rewrite <- in_vocabulary_true. destruct (in_vocabulary cases s); split; done.
Qed.

Lemma switch_outside (cases : list (string * Z)) (s : string) :
  s ∉ cases.*1 -> switch cases s = unknownConversion.
Proof.
  induction cases as [|[k v] cases IH]; simpl; [done|].
  intros Hnot. apply not_elem_of_cons in Hnot as [Hne Hnot].
  destruct (String.eqb_spec s k); [done | by apply IH].
Qed.

Lemma switch_inside (cases : list (string * Z)) (s : string) :
  s ∈ cases.*1 -> switch cases s ∈ cases.*2.
Proof.
  induction cases as [|[k v] cases IH]; simpl.
  - by intros ?%elem_of_nil.
  - intros Hin. destruct (String.eqb_spec s k) as [->|Hne]; [left|].
    apply elem_of_cons in Hin as [?|Hin]; [done|]. right. by apply IH.
Qed.

Lemma switch_case (cases : list (string * Z)) (s : string) (v : Z) :
  NoDup cases.*1 -> (s, v) ∈ cases -> switch cases s = v.
Proof.
  induction cases as [|[k v'] cases IH]; simpl.
  - by intros _ ?%elem_of_nil.
  - intros [Hk Hnd]%NoDup_cons Hin.
    apply elem_of_cons in Hin as [Heq|Hin].
    + injection Heq as -> ->. by rewrite String.eqb_refl.
    + destruct (String.eqb_spec s k) as [->|Hne]; [|by apply IH].
      destruct Hk. by apply (list_elem_of_fmap_2 fst _ _ Hin).
Qed.

Lemma canonical_case (cases : list (string * Z)) (v : Z) :
  v ∈ cases.*2 -> exists s, canonical cases v = Some s /\ (s, v) ∈ cases.
Proof.
  induction cases as [|[k v'] cases IH]; simpl.
  - by intros ?%elem_of_nil.
  - intros Hin. destruct (Z.eqb_spec v v') as [->|Hne].
    + exists k. split; [done | left].
    + apply elem_of_cons in Hin as [?|Hin]; [done|].
      destruct (IH Hin) as (s & Hs & Hin'). exists s. split; [done | by right].
Qed.

Lemma switch_injective (cases : list (string * Z)) (s s' : string) :
  NoDup cases.*2 -> s ∈ cases.*1 -> s' ∈ cases.*1 ->
  switch cases s = switch cases s' -> s = s'.
Proof.
  induction cases as [|[k v] cases IH]; simpl.
  - by intros _ ?%elem_of_nil.
  - intros [Hv Hnd]%NoDup_cons Hs Hs'.
    destruct (String.eqb_spec s k) as [->|Hne], (String.eqb_spec s' k) as [->|Hne']; try done.
    + intros ->. destruct Hv. apply switch_inside.
      by apply elem_of_cons in Hs' as [?|?].
    + intros <-. destruct Hv. apply switch_inside.
      by apply elem_of_cons in Hs as [?|?].
    + apply elem_of_cons in Hs as [?|Hs]; [done|].
      apply elem_of_cons in Hs' as [?|Hs']; [done|]. by apply IH.
Qed.

Lemma switch_total (cases : list (string * Z)) :
  NoDup cases.*1 -> NoDup cases.*2 -> unknownConversion ∉ cases.*2 ->
  total_translation (switch cases) cases.
Proof.
  intros Hk Hv Hs. repeat split.
  - intros s v. by apply switch_case.
  - intros s s'. by apply switch_injective.
  - intros s Hin Heq. apply Hs. rewrite <- Heq. by apply switch_inside.
  - apply switch_outside.
  - intros v Hin _. destruct (canonical_case cases v Hin) as (s & Hc & Hin').
    exists s. split; [done | by apply switch_case].
Qed.

Lemma total_translation_ext (f g : string -> Z) (cases : list (string * Z)) :
  (forall s, f s = g s) -> total_translation g cases -> total_translation f cases.
Proof.
  intros Hfg (H1 & H2 & H3 & H4 & H5). repeat split.
  - intros s v Hin. rewrite Hfg. by apply H1.
  - intros s s' Hs Hs'. rewrite !Hfg. by apply H2.
  - intros s Hs. rewrite Hfg. by apply H3.
  - intros s Hs. rewrite Hfg. by apply H4.
  - intros v Hv Hne. destruct (H5 v Hv Hne) as (s & Hc & Hs).
    exists s. by rewrite Hfg.
Qed.

Lemma switch_sentinel (cases : list (string * Z)) (s : string) :
  unknownConversion ∉ cases.*2 ->
  (switch cases s =? unknownConversion)%Z = negb (in_vocabulary cases s).
Proof.
  intros Hs. destruct (in_vocabulary cases s) eqn:Hin; simpl.
  - apply in_vocabulary_true in Hin. apply Z.eqb_neq. intros Heq.
    apply Hs. rewrite <- Heq. by apply switch_inside.
  - apply in_vocabulary_false in Hin. apply Z.eqb_eq. by apply switch_outside.
Qed.

Section TranslationFacts.
Context `{Sarama}.

Lemma stringToOperation_switch (s : string) : stringToOperation s = switch operations s.
Proof. reflexivity. Qed.

Lemma stringToAclPermissionType_switch (s : string) :
  stringToAclPermissionType s = switch permissionTypes s.
Proof. reflexivity. Qed.

Lemma stringToACLResouce_switch (s : string) : stringToACLResouce s = switch resourceTypes s.
Proof. reflexivity. Qed.

Lemma stringToACLPrefix_switch (s : string) : stringToACLPrefix s = switch patternTypes s.
Proof. reflexivity. Qed.

Lemma operations_labels : NoDup operations.*1.
Proof. simpl. compute_done. Qed.

Lemma permissionTypes_labels : NoDup permissionTypes.*1.
Proof. simpl. compute_done. Qed.

Lemma resourceTypes_labels : NoDup resourceTypes.*1.
Proof. simpl. compute_done. Qed.

Lemma patternTypes_labels : NoDup patternTypes.*1.
Proof. simpl. compute_done. Qed.

(** C2. [isDefault] gives, for version 0, the entry's is-default flag; for
    every version from 1 on it holds exactly when the source of the entry is
    "default" or "static broker config", so that any other source counts as
    an explicit value. *)
Theorem isDefault_by_version (tc : ConfigEntry) (version : Z) :
  (version = 0 -> isDefault tc version = ce_Default tc) /\
  (1 <= version ->
     (isDefault tc version = true <->
        ce_Source tc = SourceDefault \/ ce_Source tc = SourceStaticBroker) /\
     (ce_Source tc <> SourceDefault -> ce_Source tc <> SourceStaticBroker ->
        isDefault tc version = false)).
Proof.
  unfold isDefault. split.
  - by intros ->.
  - intros Hv. destruct (Z.eqb_spec version 0) as [->|_]; [lia|].
    rewrite orb_true_iff, !Z.eqb_eq. split; [done|].
    intros ?%Z.eqb_neq ?%Z.eqb_neq. by apply orb_false_iff.
Qed.

(** C4. Each of the four string-to-enumeration mappings is total: every
    string of its vocabulary goes to the enumeration value of its name, two
    strings of the vocabulary go to different values, none of them to the
    sentinel; every string outside the vocabulary goes to the sentinel; and
    every enumeration value other than the sentinel comes back from its
    canonical string. *)
Theorem translations_total :
  enumerations ->
  total_translation stringToOperation operations /\
  total_translation stringToAclPermissionType permissionTypes /\
  total_translation stringToACLResouce resourceTypes /\
  total_translation stringToACLPrefix patternTypes.
Proof.
  intros ([Ho Ho'] & [Hp Hp'] & [Hr Hr'] & [Hf Hf']).
  repeat split_and.
  - apply (total_translation_ext _ _ _ stringToOperation_switch).
    apply switch_total; auto using operations_labels.
  - apply (total_translation_ext _ _ _ stringToAclPermissionType_switch).
    apply switch_total; auto using permissionTypes_labels.
  - apply (total_translation_ext _ _ _ stringToACLResouce_switch).
    apply switch_total; auto using resourceTypes_labels.
  - apply (total_translation_ext _ _ _ stringToACLPrefix_switch).
    apply switch_total; auto using patternTypes_labels.
Qed.

End TranslationFacts.

Lemma enumerations_iota : enumerations (H := sarama_iota).
Proof. repeat split; simpl; compute_done. Qed.

Lemma isDefault_by_version_witness :
  1 <= 1 /\
  (isDefault (H := sarama_iota) (mk_ConfigEntry "retention.ms" "1000" false 5) 1 = true <->
   5 = 5 \/ 5 = 4).
Proof.
  split; [lia|].
  apply (isDefault_by_version (H := sarama_iota) (mk_ConfigEntry "retention.ms" "1000" false 5) 1).
  lia.
Defined.

Lemma translations_total_witness :
  enumerations (H := sarama_iota) /\
  total_translation (stringToOperation (H := sarama_iota)) (operations (H := sarama_iota)).
Proof.
  split; [exact enumerations_iota|].
  apply (translations_total (H := sarama_iota)). exact enumerations_iota.
Defined.

Section Validation.
Context `{Sarama}.

Lemma AclCreation_checks (s : stringlyTypedACL) :
  enumerations ->
  match first_invalid (string_fields s) with
  | Some f =>
      AclCreation s =
        (zero_AclCreation,
         Some (ErrorString ("Unknown " +:+ label f +:+ ": '" +:+ value f +:+ "'")))
  | None => AclCreation s = (translated_creation s, None)
  end.
Proof.
  intros ([_ Ho] & [_ Hp] & [_ Hr] & [_ Hf]).
  unfold AclCreation, first_invalid, translated_creation. simpl.
  rewrite stringToOperation_switch, stringToAclPermissionType_switch,
    stringToACLResouce_switch, stringToACLPrefix_switch.
  rewrite !switch_sentinel by done.
  destruct (in_vocabulary operations _); simpl; [|done].
  destruct (in_vocabulary permissionTypes _); simpl; [|done].
  destruct (in_vocabulary resourceTypes _); simpl; [|done].
  destruct (in_vocabulary patternTypes _); simpl; done.
Qed.

Lemma AclFilter_checks (s : stringlyTypedACL) :
  enumerations ->
  match first_invalid (filter_fields s) with
  | Some f =>
      (AclFilter s).2 = Some (ErrorString ("Unknown " +:+ label f +:+ ": " +:+ value f))
  | None => AclFilter s = (translated_filter s, None)
  end.
Proof.
  intros ([_ Ho] & [_ Hp] & [_ Hr] & _).
  unfold AclFilter, first_invalid, translated_filter. simpl.
  rewrite stringToOperation_switch, stringToAclPermissionType_switch,
    stringToACLResouce_switch.
  rewrite !switch_sentinel by done.
  destruct (in_vocabulary operations _); simpl; [|done].
  destruct (in_vocabulary permissionTypes _); simpl; [|done].
  destruct (in_vocabulary resourceTypes _); simpl; done.
Qed.

(** X24. What the two translations check, as the code has it.
    [AclCreation] translates the four string fields with a vocabulary
    (operation, permission type, resource type, pattern type filter) and
    [AclFilter] the first three of them, leaving the pattern type of the
    filter at its zero value.  On the first field, in that order, whose
    string is outside its vocabulary each fails with an error that names the
    field and its value, whatever the later fields hold; when every field it
    reads is in its vocabulary each succeeds with those fields translated. *)
Theorem acl_validation (s : stringlyTypedACL) :
  enumerations ->
  match first_invalid (string_fields s) with
  | Some f =>
      AclCreation s =
        (zero_AclCreation,
         Some (ErrorString ("Unknown " +:+ label f +:+ ": '" +:+ value f +:+ "'")))
  | None => AclCreation s = (translated_creation s, None)
  end /\
  match first_invalid (filter_fields s) with
  | Some f =>
      (AclFilter s).2 = Some (ErrorString ("Unknown " +:+ label f +:+ ": " +:+ value f))
  | None => AclFilter s = (translated_filter s, None)
  end.
Proof.
  intros He. split; [by apply AclCreation_checks | by apply AclFilter_checks].
Qed.

End Validation.

Lemma acl_validation_witness :
  enumerations (H := sarama_iota) /\
  AclCreation (H := sarama_iota) acl_bogus_pattern =
    (zero_AclCreation, Some (ErrorString "Unknown pattern type filter: 'bogus'")) /\
  (AclFilter (H := sarama_iota) acl_prefixed).2 = None.
Proof.
  split; [exact enumerations_iota|].
  split.
  - apply (proj1 (acl_validation (H := sarama_iota) acl_bogus_pattern enumerations_iota)).
  - pose proof (proj2 (acl_validation (H := sarama_iota) acl_prefixed enumerations_iota)) as Hf.
    simpl in Hf. rewrite Hf. reflexivity.
Defined.

(** C5, on the code.  [AclFilter] misses the field that its sibling
    [AclCreation] translates: the pattern type filter of this ACL is outside
    its vocabulary, and it is the first such field, yet [AclFilter] reports
    no error; and a pattern type filter inside the vocabulary, "prefixed", is
    not translated into the filter, whose pattern type stays zero. *)
Lemma AclFilter_skips_pattern_type :
  first_invalid (string_fields (H := sarama_iota) acl_bogus_pattern) =
    Some (pattern_field (H := sarama_iota) acl_bogus_pattern) /\
  (AclFilter (H := sarama_iota) acl_bogus_pattern).2 = None /\
  first_invalid (string_fields (H := sarama_iota) acl_prefixed) = None /\
  stringToACLPrefix (H := sarama_iota) "prefixed" = 4 /\
  f_ResourcePatternTypeFilter (AclFilter (H := sarama_iota) acl_prefixed).1 = 0.
Proof. repeat split. Qed.

(** ** Programs *)

(** One step of a derivation [H : exec p tr a]: the call made first and
    its answer, or the value returned. *)
Ltac exec_step H :=
  simpl in H;
  lazymatch type of H with
  | False => destruct H
  | _ = _ /\ _ => destruct H as [-> <-]
  | ex _ =>
      let x := fresh "x" in
      let tr := fresh "tr" in
      destruct H as (x & tr & -> & H)
  end.

Lemma exec_bind {A B : Type} (p : Prog A) (f : A -> Prog B) (tr : list Event) (b : B) :
  exec (bind p f) tr b <->
  exists tr1 tr2 a, tr = (tr1 ++ tr2)%list /\ exec p tr1 a /\ exec (f a) tr2 b.
Proof.
  revert tr. induction p as [a|msg|c k IH]; intros tr; simpl.
  - split.
    + intros He. by exists [], tr, a.
    + by intros (tr1 & tr2 & a' & -> & [-> ->] & He).
  - split; [done | by intros (? & ? & ? & _ & [] & _)].
  - split.
    + intros (x & tr' & -> & He). apply IH in He as (tr1 & tr2 & a & -> & He1 & He2).
      exists (event c x :: tr1), tr2, a. split_and!; [done| |done]. by exists x, tr1.
    + intros (tr1 & tr2 & a & -> & (x & tr' & -> & He1) & He2).
      exists x, (tr' ++ tr2)%list. split; [done|]. apply IH. by exists tr', tr2, a.
Qed.

(** A program that returns does so in every world, along one of its
    derivations. *)
Lemma run_returns {A W : Type} (world : World W) (p : Prog A) (w : W) :
  returns p -> exists tr a, run world p w = (tr, Some a) /\ exec p tr a.
Proof.
  revert w. induction p as [a|msg|c k IH]; intros w; simpl.
  - intros _. by exists [], a.
  - done.
  - intros Hr. destruct (world c w) as [x w'].
    destruct (IH x w' (Hr x)) as (tr & a & -> & He).
    exists (event c x :: tr), a. split; [done|]. by exists x, tr.
Qed.

Lemma returns_bind {A B : Type} (p : Prog A) (f : A -> Prog B) :
  returns p -> (forall a, returns (f a)) -> returns (bind p f).
Proof. induction p; simpl; auto. Qed.

Section Mutations.
Context `{Sarama}.
Variable configToResources : Topic -> list AlterConfigsResource.

Lemma CreateTopic_codes_failures (es : list (string * TopicError)) :
  let fl := map (fun e => negb (te_Err e.2 =? ErrNoError)%Z) es in
  match CreateTopic_codes es with Some _ => true ∈ fl | None => true ∉ fl end.
Proof.
  induction es as [|[k e] es IH]; simpl; [apply not_elem_of_nil|].
  destruct (te_Err e =? ErrNoError)%Z; simpl; [|left].
  destruct (CreateTopic_codes es); [by right|].
  by intros [?|?]%elem_of_cons.
Qed.

Lemma DeleteTopic_codes_failures (es : list (string * KError)) :
  let fl := map (fun e => negb (e.2 =? ErrNoError)%Z) es in
  match DeleteTopic_codes es with Some _ => true ∈ fl | None => true ∉ fl end.
Proof.
  induction es as [|[k e] es IH]; simpl; [apply not_elem_of_nil|].
  destruct (e =? ErrNoError)%Z; simpl; [|left].
  destruct (DeleteTopic_codes es); [by right|].
  by intros [?|?]%elem_of_cons.
Qed.

Lemma UpdateTopic_codes_failures (es : list AlterConfigsResourceResponse) :
  let fl := map (fun e => negb (ErrorCode e =? int16 ErrNoError)%Z) es in
  match UpdateTopic_codes es with Some _ => true ∈ fl | None => true ∉ fl end.
Proof.
  induction es as [|e es IH]; simpl; [apply not_elem_of_nil|].
  destruct (ErrorCode e =? int16 ErrNoError)%Z; simpl; [|left].
  destruct (UpdateTopic_codes es); [by right|].
  by intros [?|?]%elem_of_cons.
Qed.

Lemma AddPartitions_codes_failures (es : list (string * TopicPartitionError)) :
  let fl := map (fun e => negb (tpe_Err e.2 =? ErrNoError)%Z) es in
  match AddPartitions_codes es with Some _ => true ∈ fl | None => true ∉ fl end.
Proof.
  induction es as [|[k e] es IH]; simpl; [apply not_elem_of_nil|].
  destruct (tpe_Err e =? ErrNoError)%Z; simpl; [|left].
  destruct (AddPartitions_codes es); [by right|].
  by intros [?|?]%elem_of_cons.
Qed.

Lemma CreateTopic_reports (c : Client) (t : Topic) : reports_item_errors (CreateTopic c t).
Proof.
  split.
  - simpl. intros [b|e]; simpl; [|done]. intros [res|e]; simpl; [|done].
    by destruct (CreateTopic_codes _).
  - intros tr r He. exec_step He. destruct x as [b|e]; exec_step He.
    + destruct x as [res|e]; simpl in He.
      * pose proof (CreateTopic_codes_failures (TopicErrors res)) as Hc. simpl in Hc.
        destruct (CreateTopic_codes (TopicErrors res)) as [e|]; exec_step He.
        -- split; [split; [done|] | by eauto].
           intros (b' & ev & fl & [= <- <-] & [= <-] & Hfl). done.
        -- split; [split; [by eauto 10|done] |].
           intros b' ev fl [= <- <-] [= <-] Hfl. done.
      * exec_step He. split; [split; [done|] |].
        -- by intros (b' & ev & fl & [= <- <-] & ? & _).
        -- by intros b' ev fl [= <- <-] ?.
    + split; [split; [done|] |].
      * by intros (b' & ev & fl & ? & _).
      * by intros b' ev fl ?.
Qed.

Lemma UpdateTopic_reports (c : Client) (t : Topic) : reports_item_errors (UpdateTopic configToResources c t).
Proof.
  split.
  - simpl. intros [b|e]; simpl; [|done]. intros [res|e]; simpl; [|done].
    by destruct (UpdateTopic_codes _).
  - intros tr r He. exec_step He. destruct x as [b|e]; exec_step He.
    + destruct x as [res|e]; simpl in He.
      * pose proof (UpdateTopic_codes_failures (acr_Resources res)) as Hc. simpl in Hc.
        destruct (UpdateTopic_codes (acr_Resources res)) as [e|]; exec_step He.
        -- split; [split; [done|] | by eauto].
           intros (b' & ev & fl & [= <- <-] & [= <-] & Hfl). done.
        -- split; [split; [by eauto 10|done] |].
           intros b' ev fl [= <- <-] [= <-] Hfl. done.
      * exec_step He. split; [split; [done|] |].
        -- by intros (b' & ev & fl & [= <- <-] & ? & _).
        -- by intros b' ev fl [= <- <-] ?.
    + split; [split; [done|] |].
      * by intros (b' & ev & fl & ? & _).
      * by intros b' ev fl ?.
Qed.

Lemma DeleteTopic_reports (c : Client) (t : string) : reports_item_errors (DeleteTopic c t).
Proof.
  split.
  - simpl. intros [b|e]; simpl; [|done]. intros [res|e]; simpl; [|done].
    by destruct (DeleteTopic_codes _).
  - intros tr r He. exec_step He. destruct x as [b|e]; exec_step He.
    + destruct x as [res|e]; simpl in He.
      * pose proof (DeleteTopic_codes_failures (TopicErrorCodes res)) as Hc. simpl in Hc.
        destruct (DeleteTopic_codes (TopicErrorCodes res)) as [e|]; exec_step He.
        -- split; [split; [done|] | by eauto].
           intros (b' & ev & fl & [= <- <-] & [= <-] & Hfl). done.
        -- split; [split; [by eauto 10|done] |].
           intros b' ev fl [= <- <-] [= <-] Hfl. done.
      * exec_step He. split; [split; [done|] |].
        -- by intros (b' & ev & fl & [= <- <-] & ? & _).
        -- by intros b' ev fl [= <- <-] ?.
    + split; [split; [done|] |].
      * by intros (b' & ev & fl & ? & _).
      * by intros b' ev fl ?.
Qed.

Lemma AddPartitions_reports (c : Client) (t : Topic) : reports_item_errors (AddPartitions c t).
Proof.
  split.
  - simpl. intros [b|e]; simpl; [|done]. intros [res|e]; simpl; [|done].
    by destruct (AddPartitions_codes _).
  - intros tr r He. exec_step He. destruct x as [b|e]; exec_step He.
    + destruct x as [res|e]; simpl in He.
      * pose proof (AddPartitions_codes_failures (TopicPartitionErrors res)) as Hc.
        simpl in Hc.
        destruct (AddPartitions_codes (TopicPartitionErrors res)) as [e|]; exec_step He.
        -- split; [split; [done|] | by eauto].
           intros (b' & ev & fl & [= <- <-] & [= <-] & Hfl). done.
        -- split; [split; [by eauto 10|done] |].
           intros b' ev fl [= <- <-] [= <-] Hfl. done.
      * exec_step He. split; [split; [done|] |].
        -- by intros (b' & ev & fl & [= <- <-] & ? & _).
        -- by intros b' ev fl [= <- <-] ?.
    + split; [split; [done|] |].
      * by intros (b' & ev & fl & ? & _).
      * by intros b' ev fl ?.
Qed.

Lemma CreateTopic_makes_its_request (c : Client) (t : Topic) :
  makes_its_request (CreateTopic c t) (fun b => CreateTopicsEv b (CreateTopic_request c t)).
Proof.
  split_and!.
  - intros e. simpl. eexists (Err e), []. by split.
  - intros b x.
    exists (match x with Ok res => CreateTopic_codes (TopicErrors res) | Err e => Some e end).
    simpl. eexists (Ok b), _. split; [reflexivity|]. simpl.
    eexists x, []. split; [reflexivity|]. destruct x as [res|e]; simpl; [|done].
    by destruct (CreateTopic_codes (TopicErrors res)).
  - intros b [res|e] fl [= <-] Hfl. simpl. eexists (Ok b), _. split; [reflexivity|]. simpl.
    eexists (Ok res), []. split; [reflexivity|]. simpl.
    pose proof (CreateTopic_codes_failures (TopicErrors res)) as Hc. simpl in Hc.
    by destruct (CreateTopic_codes (TopicErrors res)).
Qed.

Lemma UpdateTopic_makes_its_request (c : Client) (t : Topic) :
  makes_its_request (UpdateTopic configToResources c t)
    (fun b => AlterConfigsEv b (UpdateTopic_request configToResources t)).
Proof.
  split_and!.
  - intros e. simpl. eexists (Err e), []. by split.
  - intros b x.
    exists (match x with Ok res => UpdateTopic_codes (acr_Resources res) | Err e => Some e end).
    simpl. eexists (Ok b), _. split; [reflexivity|]. simpl.
    eexists x, []. split; [reflexivity|]. destruct x as [res|e]; simpl; [|done].
    by destruct (UpdateTopic_codes (acr_Resources res)).
  - intros b [res|e] fl [= <-] Hfl. simpl. eexists (Ok b), _. split; [reflexivity|]. simpl.
    eexists (Ok res), []. split; [reflexivity|]. simpl.
    pose proof (UpdateTopic_codes_failures (acr_Resources res)) as Hc. simpl in Hc.
    by destruct (UpdateTopic_codes (acr_Resources res)).
Qed.

Lemma DeleteTopic_makes_its_request (c : Client) (t : string) :
  makes_its_request (DeleteTopic c t) (fun b => DeleteTopicsEv b (DeleteTopic_request c t)).
Proof.
  split_and!.
  - intros e. simpl. eexists (Err e), []. by split.
  - intros b x.
    exists (match x with Ok res => DeleteTopic_codes (TopicErrorCodes res) | Err e => Some e end).
    simpl. eexists (Ok b), _. split; [reflexivity|]. simpl.
    eexists x, []. split; [reflexivity|]. destruct x as [res|e]; simpl; [|done].
    by destruct (DeleteTopic_codes (TopicErrorCodes res)).
  - intros b [res|e] fl [= <-] Hfl. simpl. eexists (Ok b), _. split; [reflexivity|]. simpl.
    eexists (Ok res), []. split; [reflexivity|]. simpl.
    pose proof (DeleteTopic_codes_failures (TopicErrorCodes res)) as Hc. simpl in Hc.
    by destruct (DeleteTopic_codes (TopicErrorCodes res)).
Qed.

Lemma AddPartitions_makes_its_request (c : Client) (t : Topic) :
  makes_its_request (AddPartitions c t)
    (fun b => CreatePartitionsEv b (AddPartitions_request c t)).
Proof.
  split_and!.
  - intros e. simpl. eexists (Err e), []. by split.
  - intros b x.
    exists (match x with Ok res => AddPartitions_codes (TopicPartitionErrors res) | Err e => Some e end).
    simpl. eexists (Ok b), _. split; [reflexivity|]. simpl.
    eexists x, []. split; [reflexivity|]. destruct x as [res|e]; simpl; [|done].
    by destruct (AddPartitions_codes (TopicPartitionErrors res)).
  - intros b [res|e] fl [= <-] Hfl. simpl. eexists (Ok b), _. split; [reflexivity|]. simpl.
    eexists (Ok res), []. split; [reflexivity|]. simpl.
    pose proof (AddPartitions_codes_failures (TopicPartitionErrors res)) as Hc. simpl in Hc.
    by destruct (AddPartitions_codes (TopicPartitionErrors res)).
Qed.

(** C1. Each of [CreateTopic], [UpdateTopic], [DeleteTopic] and
    [AddPartitions] returns; it returns an error whenever the response came
    back without a transport error but holds an item code that is not "no
    error"; and it returns no error exactly when the controller was found,
    the response came back, and every item code in it is "no error".  Each
    does make these calls: for every answer of the controller lookup and of
    the request, the lookup followed by the operation's own request, sent to
    the controller, is a run of it, and the run whose response holds only
    "no error" codes returns no error. *)
Theorem mutations_report_item_errors (c : Client) (topic : Topic) (name : string) :
  (reports_item_errors (CreateTopic c topic) /\
   reports_item_errors (UpdateTopic configToResources c topic) /\
   reports_item_errors (DeleteTopic c name) /\
   reports_item_errors (AddPartitions c topic)) /\
  makes_its_request (CreateTopic c topic)
    (fun b => CreateTopicsEv b (CreateTopic_request c topic)) /\
  makes_its_request (UpdateTopic configToResources c topic)
    (fun b => AlterConfigsEv b (UpdateTopic_request configToResources topic)) /\
  makes_its_request (DeleteTopic c name)
    (fun b => DeleteTopicsEv b (DeleteTopic_request c name)) /\
  makes_its_request (AddPartitions c topic)
    (fun b => CreatePartitionsEv b (AddPartitions_request c topic)).
Proof.
  split_and!.
  - apply CreateTopic_reports.
  - apply UpdateTopic_reports.
  - apply DeleteTopic_reports.
  - apply AddPartitions_reports.
  - apply CreateTopic_makes_its_request.
  - apply UpdateTopic_makes_its_request.
  - apply DeleteTopic_makes_its_request.
  - apply AddPartitions_makes_its_request.
Qed.

End Mutations.

(** ** Reading a topic *)

Section Topics.
Context `{Sarama}.

#[local] Arguments topicConfig : simpl never.

Lemma topicConfig_returns (c : Client) (topic : string) : returns (topicConfig c topic).
Proof.
  unfold topicConfig. simpl. intros [b|e]; simpl; [|done]. intros [cr|e]; simpl; [|done].
  destruct (dcr_Resources cr) as [|r0 rs]; [done|]. by case_match.
Qed.

Lemma ReadTopic_topics_returns (client : Client) (name : string) (topic : Topic)
    (topics : list string) :
  returns (ReadTopic_topics client name topic topics).
Proof.
  induction topics as [|t topics IH]; simpl; [done|].
  destruct (name =? t)%string; [|done]. simpl.
  intros [p|e]; [|done]. simpl. intros r.
  apply (returns_bind (topicConfig client t)); [apply topicConfig_returns|].
  intros [conf [e|]]; done.
Qed.

Lemma ReadTopic_returns (client : Client) (name : string) : returns (ReadTopic client name).
Proof.
  simpl. intros _ [topics|e]; [|done]. apply ReadTopic_topics_returns.
Qed.

Lemma ReadTopic_topics_absent (client : Client) (name : string) (topic : Topic)
    (topics : list string) (tr : list Event) (r : Topic * option error) :
  name ∉ topics ->
  exec (ReadTopic_topics client name topic topics) tr r <->
  tr = [] /\ r = (topic, Some (TopicMissing (name +:+ " could not be found"))).
Proof.
  induction topics as [|t topics IH]; simpl.
  - intros _. split; intros [-> ->]; done.
  - intros [Hne Hnot]%not_elem_of_cons.
    destruct (String.eqb_spec name t); [done|]. by apply IH.
Qed.

(** C3. For a name that the topic listing, fetched after the metadata
    refresh, does not hold, [ReadTopic] returns, makes no further call, and
    fails with a [TopicMissingError] whose message starts with that very
    name; the error is told apart by its type from every other error. *)
Theorem ReadTopic_absent_name (client : Client) (name : string) (topics : list string)
    (refreshed : option error) :
  name ∉ topics ->
  returns (ReadTopic client name) /\
  exec (ReadTopic client name) [RefreshMetadataEv refreshed; TopicsEv (Ok topics)]
    (missing name) /\
  (forall tr r,
     exec (ReadTopic client name) (RefreshMetadataEv refreshed :: TopicsEv (Ok topics) :: tr) r ->
     tr = [] /\ r = missing name) /\
  (missing name).2 = Some (TopicMissing (name +:+ " could not be found")) /\
  (forall e, isTopicMissingError e = true <-> exists msg, e = TopicMissing msg).
Proof.
  intros Hnot. split_and!.
  - apply ReadTopic_returns.
  - simpl. exists refreshed, [TopicsEv (Ok topics)]. split; [done|].
    exists (Ok topics), []. split; [done|]. by apply ReadTopic_topics_absent.
  - intros tr r He. simpl in He.
    destruct He as (x & tr1 & [= <- <-] & (y & tr2 & [= <- <-] & He)).
    by apply ReadTopic_topics_absent in He.
  - done.
  - intros e. split; [|by intros [msg ->]].
    destruct e; try done. eauto.
Qed.

Lemma ReadTopic_topics_partition_errors (client : Client) (name : string) (topic : Topic)
    (topics : list string) (tr : list Event) (r : Topic * option error) :
  (forall p, PartitionsEv name (Ok p) ∉ tr) ->
  exec (ReadTopic_topics client name topic topics) tr r ->
  r = (topic, Some (TopicMissing (name +:+ " could not be found"))) /\
  Forall (fun ev => exists e, ev = PartitionsEv name (Err e)) tr /\
  (name ∈ topics -> tr <> []).
Proof.
  revert tr. induction topics as [|t topics IH]; intros tr Hp He; simpl in He.
  - destruct He as [-> <-]. split_and!; [done|done|by intros ?%elem_of_nil].
  - destruct (String.eqb_spec name t) as [<-|Hne].
    + exec_step He. destruct x as [p|e].
      * destruct (Hp p). left.
      * destruct (IH tr0) as (-> & Hall & _); [|done|].
        { intros p Hin. apply (Hp p). by right. }
        split_and!; [done| |done]. constructor; eauto.
    + destruct (IH tr Hp He) as (-> & Hall & Hin). split_and!; [done..|].
      intros [?|?]%elem_of_cons; [done | by apply Hin].
Qed.

(** C10. When the listing holds the name but every partition query for it
    comes back with an error, [ReadTopic] returns none of these errors: it
    goes on through the listing and ends with the same [TopicMissingError]
    as for an absent name, having made at least one partition query.  So a
    [TopicMissingError] does not tell that the topic is absent. *)
Theorem ReadTopic_partition_error (client : Client) (name : string) (topics : list string)
    (refreshed : option error) (tr : list Event) (r : Topic * option error) :
  name ∈ topics ->
  (forall p, PartitionsEv name (Ok p) ∉ tr) ->
  exec (ReadTopic client name) (RefreshMetadataEv refreshed :: TopicsEv (Ok topics) :: tr) r ->
  r = missing name /\
  tr <> [] /\
  Forall (fun ev => exists e, ev = PartitionsEv name (Err e)) tr.
Proof.
  intros Hin Hp He. simpl in He.
  destruct He as (x & tr1 & [= <- <-] & (y & tr2 & [= <- <-] & He)).
  apply ReadTopic_topics_partition_errors in He as (-> & Hall & Hne); [|done].
  split_and!; [done | by apply Hne | done].
Qed.

End Topics.

(** ** Strings *)

Lemma append_assoc (s t u : string) : (s +:+ t) +:+ u = s +:+ t +:+ u.
Proof.
  induction s as [|a s IH]; [done|].
  change (String a ((s +:+ t) +:+ u) = String a (s +:+ t +:+ u)). by rewrite IH.
Qed.

Lemma append_empty_r (s : string) : s +:+ "" = s.
Proof.
  induction s as [|a s IH]; [done|].
  change (String a (s +:+ "") = String a s). by rewrite IH.
Qed.

Lemma contains_refl (s : string) : contains s s.
Proof. exists "", "". change (s = s +:+ ""). by rewrite append_empty_r. Qed.

Lemma contains_append_l (s t u : string) : contains s t -> contains s (u +:+ t).
Proof.
  intros (pre & post & ->). exists (u +:+ pre), post. by rewrite append_assoc.
Qed.

Lemma contains_append_r (s t u : string) : contains s t -> contains s (t +:+ u).
Proof.
  intros (pre & post & ->). exists pre, (post +:+ u). by rewrite !append_assoc.
Qed.

Lemma contains_concat (sep b : string) (l : list string) :
  b ∈ l -> contains b (String.concat sep l).
Proof.
  induction l as [|x l IH]; [by intros ?%elem_of_nil|].
  intros Hin. destruct l as [|y l].
  - apply list_elem_of_singleton in Hin as ->. apply contains_refl.
  - change (String.concat sep (x :: y :: l)) with (x +:+ sep +:+ String.concat sep (y :: l)).
    apply elem_of_cons in Hin as [->|Hin].
    + apply contains_append_r, contains_refl.
    + by apply contains_append_l, contains_append_l, IH.
Qed.

Lemma contains_fmt_strings (b : string) (l : list string) :
  b ∈ l -> contains b (fmt_strings l).
Proof.
  intros Hin. unfold fmt_strings.
  by apply contains_append_l, contains_append_r, contains_concat.
Qed.

(** ** Finding a broker *)

Section Brokers.
Context `{Sarama}.


Lemma availableBroker_try_attempts (kc : sarama_Config) (brokers rest : list string)
    (tr : list Event) (r : option Broker * option error) :
  exec (availableBroker_try kc brokers rest) tr r ->
  exists attempts : list (string * option error),
    tr = map (attempt kc) attempts /\
    attempts.*1 `prefix_of` rest /\
    ((exists failed b,
        attempts = (failed ++ [(b, None)])%list /\
        Forall (fun a => is_Some a.2) failed /\
        r = (Some (NewBroker b), None)) \/
     (attempts.*1 = rest /\
      Forall (fun a => is_Some a.2) attempts /\
      r = (None, Some (ErrorString ("No Available Brokers @ " +:+ fmt_strings brokers))))).
Proof.
  revert tr. induction rest as [|b rest IH]; intros tr He; simpl in He.
  - destruct He as [-> <-]. exists []. split_and!; [done|done|]. right. by split_and!.
  - exec_step He. destruct x as [e|].
    + destruct (IH _ He) as (attempts & -> & Hpre & Hcases).
      exists ((b, Some e) :: attempts). split_and!; [done|by apply prefix_cons|].
      destruct Hcases as [(failed & b' & -> & Hall & ->)|(Heq & Hall & ->)].
      * left. exists ((b, Some e) :: failed), b'. split_and!; [done| |done].
        constructor; [by eexists | done].
      * right. split_and!; [by rewrite fmap_cons, Heq| |done].
        constructor; [by eexists | done].
    + exec_step He. exists [(b, None)]. split_and!; [done| |].
      * apply prefix_cons, prefix_nil.
      * left. exists [], b. by split_and!.
Qed.



End Brokers.

(** The two runs the specification describes: of ["bad:1"; "good:2"] only
    the second address accepts a connection; and none does. *)
Example availableBroker_second_address :
  run (world_accepting "good:2") (availableBroker client_two_addresses) () =
    ([ BrokerOpenEv (NewBroker "bad:1") (kafkaConfig client_two_addresses)
         (Some (TransportError "connection refused"));
       BrokerOpenEv (NewBroker "good:2") (kafkaConfig client_two_addresses) None ],
     Some (Some (NewBroker "good:2"), None)).
Proof. reflexivity. Qed.

Example availableBroker_no_address :
  (run (world_accepting "other:3") (availableBroker client_two_addresses) ()).2 =
    Some (None, Some (ErrorString "No Available Brokers @ [bad:1 good:2]")).
Proof. reflexivity. Qed.

(** ** Listing the ACLs *)


Lemma describes_attempts (kc : sarama_Config) (attempts : list (string * option error)) :
  describes (map (attempt kc) attempts) = [].
Proof. by induction attempts. Qed.

Lemma describes_cons (broker : Broker) (q : DescribeAclsRequest)
    (x : result DescribeAclsResponse) (tr : list Event) :
  describes (DescribeAclsEv broker q x :: tr) = (q, x) :: describes tr.
Proof. reflexivity. Qed.

Lemma describes_app (tr1 tr2 : list Event) :
  describes (tr1 ++ tr2) = (describes tr1 ++ describes tr2)%list.
Proof. apply omap_app. Qed.

Lemma fold_left_snoc {A : Type} (l res : list A) :
  fold_left (fun res a => (res ++ [a])%list) l res = (res ++ l)%list.
Proof.
  revert res. induction l as [|a l IH]; intros res; simpl.
  - by rewrite app_nil_r.
  - by rewrite IH, <- app_assoc.
Qed.

Section ACLs.
Context `{Sarama}.


Lemma ListACLs_describe_trace (broker : Broker) (reqs : list DescribeAclsRequest)
    (res : list ResourceAcls) (tr : list Event) (r : list ResourceAcls * option error) :
  exec (ListACLs_describe broker reqs res None) tr r ->
  (describes tr).*1 `prefix_of` reqs /\
  (r.2 = None <-> (describes tr).*1 = reqs /\ Forall described (describes tr).*2) /\
  (r.2 = None -> r.1 = (res ++ concat (map entries (describes tr).*2))%list) /\
  (r.2 <> None -> r.1 = []).
Proof.
  revert res tr. induction reqs as [|q reqs IH]; intros res tr He; simpl in He.
  - destruct He as [-> <-]. simpl. split_and!; try done.
    by rewrite app_nil_r.
  - exec_step He. rewrite describes_cons, !fmap_cons. cbn [fst snd].
    destruct x as [a|e]; simpl in He.
    + destruct (Z.eqb_spec (da_Err a) ErrNoError) as [Hok|Hbad]; simpl in He.
      * rewrite fold_left_snoc in He.
        destruct (IH _ _ He) as (Hpre & Hiff & Hres & Hfail).
        split_and!.
        -- by apply prefix_cons.
        -- rewrite Hiff. split.
           ++ intros [Heq Hall]. split; [by rewrite Heq|].
              constructor; [by exists a | done].
           ++ intros [Heq Hall]. injection Heq as Heq.
              split; [done|]. by apply Forall_cons in Hall as [_ Hall].
        -- intros Hr. rewrite (Hres Hr). simpl. by rewrite <- app_assoc.
        -- done.
      * exec_step He. simpl. split_and!; try done.
        -- apply prefix_cons, prefix_nil.
        -- split; [done|]. intros [_ Hall].
           apply Forall_cons in Hall as [(a' & Heq & Hz) _]. by simplify_eq.
    + exec_step He. simpl. split_and!; try done.
      * apply prefix_cons, prefix_nil.
      * split; [done|]. intros [_ Hall].
        by apply Forall_cons in Hall as [(a' & Heq & Hz) _].
Qed.

Lemma allResources_requiredVersion :
  Forall (fun q => requiredVersion q = V2_0_0_0) allResources.
Proof. repeat constructor. Qed.

#[local] Arguments ListACLs_describe : simpl never.


End ACLs.

(** ** The connection configuration *)

Section ConnectionConfigFacts.
Context `{Sarama}.

Lemma caCertPool_path_set (c : Config) :
  CACert c = None -> CACertFile c <> "" -> caCertPool c = Ret (Some [], None).
Proof.
  intros Hc Hf. unfold caCertPool. rewrite Hc.
  by destruct (String.eqb_spec (CACertFile c) "").
Qed.

Lemma newKafkaConfig_fixed (c : Config) (tr : list Event) (r : sarama_Config * option error) :
  exec (newKafkaConfig c) tr r ->
  Version r.1 = V2_0_0_0 /\ ClientID r.1 = "terraform-provider-kafka".
Proof.
  unfold newKafkaConfig. intros He.
  destruct (TLSEnabled c).
  - apply exec_bind in He as (tr1 & tr2 & [tlsConfig [e|]] & -> & _ & He);
      exec_step He; by destruct (SASLEnabled c).
  - exec_step He. by destruct (SASLEnabled c).
Qed.

(** C8, on the code.  With TLS on, no CA certificate in memory and the path
    "ca.pem" configured, [caCertPool] makes no call at all: the file is not
    read, the pool of trusted roots is empty, and no error can come of the
    file.  The configuration built holds that empty pool. *)
Theorem caCertPool_skips_configured_file :
  CACert config_ca_file = None /\
  CACertFile config_ca_file = "ca.pem" /\
  TLSEnabled config_ca_file = true /\
  caCertPool config_ca_file = Ret (Some [], None) /\
  forall tr r, exec (newKafkaConfig config_ca_file) tr r ->
    tr = [] /\
    r.2 = None /\
    Net_TLS_Config r.1 =
      Some {| Certificates := []; RootCAs := Some []; InsecureSkipVerify := false |}.
Proof.
  split_and!; try done.
  intros tr r He. unfold newKafkaConfig in He. by exec_step He.
Qed.

(** C9, on the code.  For the zero [Config] the protocol version set is
    [V2_0_0_0], which is not the [V1_0_0_0] that the unit test of the package
    asserts, so the test fails; for every [Config] the version is
    [V2_0_0_0] and the client identifier "terraform-provider-kafka". *)
Theorem newKafkaConfig_version_two :
  newKafkaConfig zero_Config =
    Ret (set_ClientID (set_Version NewConfig V2_0_0_0) "terraform-provider-kafka", None) /\
  V2_0_0_0 <> V1_0_0_0 /\
  Test_kafkaConfigVersion = Ret (Failed "Default version should be v1") /\
  forall c tr r, exec (newKafkaConfig c) tr r ->
    Version r.1 = V2_0_0_0 /\ ClientID r.1 = "terraform-provider-kafka".
Proof.
  split_and!; try done. apply newKafkaConfig_fixed.
Qed.

End ConnectionConfigFacts.

(** ** The properties at sample inputs *)

(** A derivation for a trace and a result that are given in full. *)
Ltac exec_given :=
  repeat (simpl; first [ done | split; [reflexivity|] | eexists _, _ ]).

Lemma mutations_report_item_errors_witness :
  let b := NewBroker "good:2" in
  let tr := [ControllerEv (Ok b); CreateTopicsEv b create_orders (Ok orders_exists)] in
  let r := Some (ErrorString "kafka server: error") in
  let created := Ok {| TopicErrors := [("orders", {| te_Err := 0; te_ErrMsg := None |})] |} in
  let altered :=
    Ok {| acr_Resources :=
            [ {| ErrorCode := 0; ErrorMsg := ""; acrr_Type := 2; acrr_Name := "orders" |} ] |} in
  let deleted := Ok {| TopicErrorCodes := [("orders", 0)] |} in
  let added :=
    Ok {| TopicPartitionErrors := [("orders", {| tpe_Err := 0; tpe_ErrMsg := None |})] |} in
  exec (CreateTopic (H := sarama_iota) client_two_addresses topic_orders) tr r /\
  is_Some r /\
  exec (CreateTopic (H := sarama_iota) client_two_addresses topic_orders)
    [ControllerEv (Ok b);
     CreateTopicsEv b (CreateTopic_request client_two_addresses topic_orders) created] None /\
  exec (UpdateTopic (H := sarama_iota) (fun _ => []) client_two_addresses topic_orders)
    [ControllerEv (Ok b);
     AlterConfigsEv b (UpdateTopic_request (fun _ => []) topic_orders) altered] None /\
  exec (DeleteTopic (H := sarama_iota) client_two_addresses "orders")
    [ControllerEv (Ok b);
     DeleteTopicsEv b (DeleteTopic_request client_two_addresses "orders") deleted] None /\
  exec (AddPartitions (H := sarama_iota) client_two_addresses topic_orders)
    [ControllerEv (Ok b);
     CreatePartitionsEv b (AddPartitions_request client_two_addresses topic_orders) added] None.
Proof.
  intros b tr r created altered deleted added.
  assert (exec (CreateTopic (H := sarama_iota) client_two_addresses topic_orders) tr r) as He.
  { subst b tr r. exec_given. }
  assert (true ∉ [false]) as Hclean.
  { intros Hin. apply list_elem_of_singleton in Hin. discriminate Hin. }
  destruct (mutations_report_item_errors (H := sarama_iota) (fun _ => [])
              client_two_addresses topic_orders "orders")
    as (((_ & Hc) & _) & (_ & _ & Hcreate) & (_ & _ & Hupdate) &
        (_ & _ & Hdelete) & (_ & _ & Hadd)).
  split; [exact He|]. split.
  { apply (proj2 (Hc tr r He) b (CreateTopicsEv b create_orders (Ok orders_exists)) [true]).
    - reflexivity.
    - reflexivity.
    - left. }
  split; [exact (Hcreate b created [false] eq_refl Hclean)|].
  split; [exact (Hupdate b altered [false] eq_refl Hclean)|].
  split; [exact (Hdelete b deleted [false] eq_refl Hclean)|].
  exact (Hadd b added [false] eq_refl Hclean).
Defined.

Lemma ReadTopic_absent_name_witness :
  ("orders" ∉ ["payments"; "billing"]) /\
  exec (ReadTopic (H := sarama_iota) client_two_addresses "orders")
    [RefreshMetadataEv None; TopicsEv (Ok ["payments"; "billing"])]
    (named "orders", Some (TopicMissing "orders could not be found")).
Proof.
  assert ("orders" ∉ ["payments"; "billing"]) as Hn.
  { apply (bool_decide_unpack _). vm_compute. exact I. }
  split; [exact Hn|].
  apply (ReadTopic_absent_name (H := sarama_iota) client_two_addresses "orders"
           ["payments"; "billing"] None Hn).
Defined.

Lemma ReadTopic_partition_error_witness :
  let tr := [PartitionsEv "orders" (Err (TransportError "request timed out"))] in
  let r := (named "orders", Some (TopicMissing "orders could not be found")) in
  ("orders" ∈ ["payments"; "orders"]) /\
  (forall p, PartitionsEv "orders" (Ok p) ∉ tr) /\
  exec (ReadTopic (H := sarama_iota) client_two_addresses "orders")
    (RefreshMetadataEv None :: TopicsEv (Ok ["payments"; "orders"]) :: tr) r /\
  r = missing "orders".
Proof.
  intros tr r.
  assert ("orders" ∈ ["payments"; "orders"]) as Hin by (right; left).
  assert (forall p, PartitionsEv "orders" (Ok p) ∉ tr) as Hp.
  { intros p Hp. apply list_elem_of_singleton in Hp. discriminate Hp. }
  assert (exec (ReadTopic (H := sarama_iota) client_two_addresses "orders")
            (RefreshMetadataEv None :: TopicsEv (Ok ["payments"; "orders"]) :: tr) r) as He.
  { subst tr r. exec_given. }
  split_and!; [exact Hin | exact Hp | exact He |].
  apply (ReadTopic_partition_error (H := sarama_iota) client_two_addresses "orders"
           ["payments"; "orders"] None tr r Hin Hp He).
Defined.



(** * Further properties of the package *)

(** ** Strings, again *)

Lemma append_cons (x : Ascii.ascii) (s t : string) : String x s +:+ t = String x (s +:+ t).
Proof. reflexivity. Qed.

Lemma bar_split (a a' r r' : string) :
  free_of bar a = true -> free_of bar a' = true ->
  a +:+ String bar r = a' +:+ String bar r' -> a = a' /\ r = r'.
Proof.
  revert a'. induction a as [|x a IH]; intros [|y a'] Ha Ha' Heq.
  - by injection Heq as ->.
  - injection Heq as Hy _. simpl in Ha'. rewrite <- Hy, Ascii.eqb_refl in Ha'. done.
  - injection Heq as Hx _. simpl in Ha. rewrite Hx, Ascii.eqb_refl in Ha. done.
  - rewrite !append_cons in Heq. injection Heq as -> Heq.
    simpl in Ha, Ha'. apply andb_true_iff in Ha as [_ Ha], Ha' as [_ Ha'].
    destruct (IH a' Ha Ha' Heq) as [-> ->]. done.
Qed.

(** X1. [stringlyTypedACL.String] tells two ACLs apart whenever none of the
    six fields it writes before the last bar holds a bar: equal texts then
    come from equal ACLs. *)
Theorem stringlyTypedACL_String_injective (a b : stringlyTypedACL) :
  Forall (fun s => free_of bar s = true) (leading_fields a) ->
  Forall (fun s => free_of bar s = true) (leading_fields b) ->
  stringlyTypedACL_String a = stringlyTypedACL_String b ->
  a = b.
Proof.
  destruct a as [[a1 a2 a3 a4] [a5 a6 a7]], b as [[b1 b2 b3 b4] [b5 b6 b7]].
  unfold leading_fields, stringlyTypedACL_String. cbn [sACL sResource ACL_Principal ACL_Host
    ACL_Operation ACL_PermissionType Resource_Type Resource_Name Resource_PatternTypeFilter].
  intros Ha Hb Heq.
  repeat (apply Forall_cons in Ha as [? Ha]). repeat (apply Forall_cons in Hb as [? Hb]).
  change (a1 +:+ String bar (a2 +:+ String bar (a3 +:+ String bar (a4 +:+ String bar
            (a5 +:+ String bar (a6 +:+ String bar a7))))) =
          b1 +:+ String bar (b2 +:+ String bar (b3 +:+ String bar (b4 +:+ String bar
            (b5 +:+ String bar (b6 +:+ String bar b7)))))) in Heq.
  apply bar_split in Heq as [-> Heq]; [|done..].
  apply bar_split in Heq as [-> Heq]; [|done..].
  apply bar_split in Heq as [-> Heq]; [|done..].
  apply bar_split in Heq as [-> Heq]; [|done..].
  apply bar_split in Heq as [-> Heq]; [|done..].
  apply bar_split in Heq as [-> ->]; [|done..].
  done.
Qed.

Lemma stringlyTypedACL_String_injective_witness :
  Forall (fun s => free_of bar s = true) (leading_fields acl_prefixed) /\
  stringlyTypedACL_String acl_prefixed = stringlyTypedACL_String acl_prefixed /\
  acl_prefixed = acl_prefixed.
Proof.
  assert (Forall (fun s => free_of bar s = true) (leading_fields acl_prefixed)) as Ha.
  { repeat constructor. }
  split_and!; [exact Ha | reflexivity |].
  apply (stringlyTypedACL_String_injective acl_prefixed acl_prefixed Ha Ha eq_refl).
Defined.

(** A bar in a field is enough to lose that: these two ACLs differ and are
    written alike. *)
Example stringlyTypedACL_String_collision :
  stringlyTypedACL_String
    (mk_stringlyTypedACL (mk_ACL "User:a|b" "*" "Read" "Allow") (mk_Resource "Topic" "t" "any")) =
  stringlyTypedACL_String
    (mk_stringlyTypedACL (mk_ACL "User:a" "b|*" "Read" "Allow") (mk_Resource "Topic" "t" "any")).
Proof. reflexivity. Qed.

(** ** Translating ACLs, again *)

Section TranslationAgain.
Context `{Sarama}.

(** X2. An ACL that [AclCreation] accepts is accepted by [AclFilter] too, and
    the filter names what was created: the same operation, permission type
    and resource type, and the principal, host and resource name as
    non-nil strings; the pattern type of the filter stays zero. *)
Theorem AclFilter_after_AclCreation (s : stringlyTypedACL) (a : sarama_AclCreation) :
  AclCreation s = (a, None) ->
  exists f,
    AclFilter s = (f, None) /\
    f_Operation f = acl_Operation (ac_Acl a) /\
    f_PermissionType f = acl_PermissionType (ac_Acl a) /\
    f_ResourceType f = res_ResourceType (ac_Resource a) /\
    f_Principal f = Some (acl_Principal (ac_Acl a)) /\
    f_Host f = Some (acl_Host (ac_Acl a)) /\
    f_ResourceName f = Some (res_ResourceName (ac_Resource a)) /\
    f_ResourcePatternTypeFilter f = 0.
Proof.
  unfold AclCreation, AclFilter. cbv zeta.
  destruct (stringToOperation _ =? unknownConversion)%Z; [done|].
  destruct (stringToAclPermissionType _ =? unknownConversion)%Z; [done|].
  destruct (stringToACLResouce _ =? unknownConversion)%Z; [done|].
  destruct (stringToACLPrefix _ =? unknownConversion)%Z; [done|].
  intros [= <-]. eexists. split; [reflexivity|]. by split_and!.
Qed.

(** X3. Neither translation lets the sentinel through.  A creation record
    returned without an error holds it in none of its four enumerated fields,
    and one returned with an error is the zero record; a filter returned
    without an error holds it in none of the three fields that are checked.
    This needs nothing of the constants of the library. *)
Theorem translations_stop_the_sentinel (s : stringlyTypedACL) :
  (forall a, AclCreation s = (a, None) ->
     acl_Operation (ac_Acl a) <> unknownConversion /\
     acl_PermissionType (ac_Acl a) <> unknownConversion /\
     res_ResourceType (ac_Resource a) <> unknownConversion /\
     res_ResoucePatternType (ac_Resource a) <> unknownConversion) /\
  (forall a e, AclCreation s = (a, Some e) -> a = zero_AclCreation) /\
  (forall f, AclFilter s = (f, None) ->
     f_Operation f <> unknownConversion /\
     f_PermissionType f <> unknownConversion /\
     f_ResourceType f <> unknownConversion).
Proof.
  unfold AclCreation, AclFilter. cbv zeta. split_and!.
  - intros a.
    destruct (Z.eqb_spec (stringToOperation (ACL_Operation (sACL s))) unknownConversion);
      [done|].
    destruct (Z.eqb_spec (stringToAclPermissionType (ACL_PermissionType (sACL s)))
                unknownConversion); [done|].
    destruct (Z.eqb_spec (stringToACLResouce (Resource_Type (sResource s)))
                unknownConversion); [done|].
    destruct (Z.eqb_spec (stringToACLPrefix (Resource_PatternTypeFilter (sResource s)))
                unknownConversion); [done|].
    by intros [= <-].
  - intros a e.
    destruct (_ =? _)%Z; [by intros [= <- _]|].
    destruct (_ =? _)%Z; [by intros [= <- _]|].
    destruct (_ =? _)%Z; [by intros [= <- _]|].
    destruct (_ =? _)%Z; [by intros [= <- _]|]. done.
  - intros f.
    destruct (Z.eqb_spec (stringToOperation (ACL_Operation (sACL s))) unknownConversion);
      [done|].
    destruct (Z.eqb_spec (stringToAclPermissionType (ACL_PermissionType (sACL s)))
                unknownConversion); [done|].
    destruct (Z.eqb_spec (stringToACLResouce (Resource_Type (sResource s)))
                unknownConversion); [done|].
    by intros [= <-].
Qed.

End TranslationAgain.

Lemma AclFilter_after_AclCreation_witness :
  AclCreation (H := sarama_iota) acl_prefixed =
    (translated_creation (H := sarama_iota) acl_prefixed, None) /\
  exists f, AclFilter (H := sarama_iota) acl_prefixed = (f, None) /\ f_Operation f = 3.
Proof.
  split; [reflexivity|].
  destruct (AclFilter_after_AclCreation (H := sarama_iota) acl_prefixed
              (translated_creation (H := sarama_iota) acl_prefixed) eq_refl)
    as (f & Hf & Hop & _).
  exists f. split; [exact Hf | exact Hop].
Defined.

Lemma translations_stop_the_sentinel_witness :
  AclFilter (H := sarama_iota) acl_bogus_pattern =
    (translated_filter (H := sarama_iota) acl_bogus_pattern, None) /\
  f_ResourceType (translated_filter (H := sarama_iota) acl_bogus_pattern) <> unknownConversion.
Proof.
  split; [reflexivity|].
  apply (proj2 (proj2 (translations_stop_the_sentinel (H := sarama_iota) acl_bogus_pattern))
           (translated_filter (H := sarama_iota) acl_bogus_pattern) eq_refl).
Defined.

(** ** Durations *)

Lemma seconds_exact (n : Z) :
  -9223372036 <= n <= 9223372036 -> seconds n = n * 1000000000.
Proof.
  intros Hn. unfold seconds, wrap.
  change (2 ^ (64 - 1)) with 9223372036854775808.
  change (2 ^ 64) with 18446744073709551616.
  rewrite (Z.mod_small (n + _)) by lia.
  replace (n + 9223372036854775808 - 9223372036854775808) with n by lia.
  rewrite Z.mod_small by lia. lia.
Qed.

Lemma seconds_overflow (n : Z) :
  9223372036 < n <= 18446744073 -> seconds n = n * 1000000000 - 18446744073709551616.
Proof.
  intros Hn. unfold seconds, wrap.
  change (2 ^ (64 - 1)) with 9223372036854775808.
  change (2 ^ 64) with 18446744073709551616.
  rewrite (Z.mod_small (n + _)) by lia.
  replace (n + 9223372036854775808 - 9223372036854775808) with n by lia.
  replace (n * 1000000000 + 9223372036854775808)
    with (n * 1000000000 - 9223372036854775808 + 1 * 18446744073709551616) by lia.
  rewrite Z.mod_add by lia. rewrite Z.mod_small by lia. lia.
Qed.

Section Timeouts.
Context `{Sarama}.
Variable configToResources : Topic -> list AlterConfigsResource.

Lemma CreateTopic_trace (c : Client) (t : Topic) (tr : list Event) (r : option error) :
  exec (CreateTopic c t) tr r ->
  (exists e, tr = [ControllerEv (Err e)] /\ r = Some e) \/
  (exists b req x,
     tr = [ControllerEv (Ok b); CreateTopicsEv b req x] /\
     ct_Timeout req = seconds (Timeout (config c)) /\
     r = match x with
         | Err e => Some e
         | Ok res => CreateTopic_codes (TopicErrors res)
         end).
Proof.
  intros He. exec_step He. destruct x as [b|e]; exec_step He; [|by eauto].
  right. eexists b, _, x. destruct x as [res|e]; simpl in He.
  - destruct (CreateTopic_codes (TopicErrors res)); by exec_step He.
  - by exec_step He.
Qed.

Lemma DeleteTopic_trace (c : Client) (t : string) (tr : list Event) (r : option error) :
  exec (DeleteTopic c t) tr r ->
  (exists e, tr = [ControllerEv (Err e)] /\ r = Some e) \/
  (exists b req x,
     tr = [ControllerEv (Ok b); DeleteTopicsEv b req x] /\
     dt_Timeout req = seconds (Timeout (config c)) /\
     r = match x with
         | Err e => Some e
         | Ok res => DeleteTopic_codes (TopicErrorCodes res)
         end).
Proof.
  intros He. exec_step He. destruct x as [b|e]; exec_step He; [|by eauto].
  right. eexists b, _, x. destruct x as [res|e]; simpl in He.
  - destruct (DeleteTopic_codes (TopicErrorCodes res)); by exec_step He.
  - by exec_step He.
Qed.

Lemma AddPartitions_trace (c : Client) (t : Topic) (tr : list Event) (r : option error) :
  exec (AddPartitions c t) tr r ->
  (exists e, tr = [ControllerEv (Err e)] /\ r = Some e) \/
  (exists b req x,
     tr = [ControllerEv (Ok b); CreatePartitionsEv b req x] /\
     cp_Timeout req = seconds (Timeout (config c)) /\
     r = match x with
         | Err e => Some e
         | Ok res => AddPartitions_codes (TopicPartitionErrors res)
         end).
Proof.
  intros He. exec_step He. destruct x as [b|e]; exec_step He; [|by eauto].
  right. eexists b, _, x. destruct x as [res|e]; simpl in He.
  - destruct (AddPartitions_codes (TopicPartitionErrors res)); by exec_step He.
  - by exec_step He.
Qed.

Lemma UpdateTopic_trace (c : Client) (t : Topic) (tr : list Event) (r : option error) :
  exec (UpdateTopic configToResources c t) tr r ->
  (exists e, tr = [ControllerEv (Err e)] /\ r = Some e) \/
  (exists b req x,
     tr = [ControllerEv (Ok b); AlterConfigsEv b req x] /\
     r = match x with
         | Err e => Some e
         | Ok res => UpdateTopic_codes (acr_Resources res)
         end).
Proof.
  intros He. exec_step He. destruct x as [b|e]; exec_step He; [|by eauto].
  right. eexists b, _, x. destruct x as [res|e]; simpl in He.
  - destruct (UpdateTopic_codes (acr_Resources res)); by exec_step He.
  - by exec_step He.
Qed.

(** X4. The timeout that [CreateTopic], [DeleteTopic] and [AddPartitions]
    put in their request is the configured number of seconds in nanoseconds
    as long as that number is at most 9223372036 in size; from 9223372037 to
    18446744073 seconds the product overflows and the request carries a
    negative timeout. *)
Theorem request_timeout_nanoseconds (c : Client) (topic : Topic) (name : string)
    (p : Prog (option error)) (tr : list Event) (r : option error) (ev : Event) (d : Z) :
  p ∈ [CreateTopic c topic; DeleteTopic c name; AddPartitions c topic] ->
  exec p tr r -> ev ∈ tr -> request_timeout ev = Some d ->
  (-9223372036 <= Timeout (config c) <= 9223372036 ->
     d = Timeout (config c) * 1000000000) /\
  (9223372036 < Timeout (config c) <= 18446744073 -> d < 0).
Proof.
  intros Hp He Hev Hd.
  assert (d = seconds (Timeout (config c))) as ->.
  { repeat (apply elem_of_cons in Hp as [->|Hp]); [| | |by apply elem_of_nil in Hp].
    - apply CreateTopic_trace in He as [(e & -> & _)|(b & req & x & -> & Ht & _)].
      + by apply list_elem_of_singleton in Hev as ->.
      + apply elem_of_cons in Hev as [->|Hev]; [done|].
        apply list_elem_of_singleton in Hev as ->. injection Hd as <-. done.
    - apply DeleteTopic_trace in He as [(e & -> & _)|(b & req & x & -> & Ht & _)].
      + by apply list_elem_of_singleton in Hev as ->.
      + apply elem_of_cons in Hev as [->|Hev]; [done|].
        apply list_elem_of_singleton in Hev as ->. injection Hd as <-. done.
    - apply AddPartitions_trace in He as [(e & -> & _)|(b & req & x & -> & Ht & _)].
      + by apply list_elem_of_singleton in Hev as ->.
      + apply elem_of_cons in Hev as [->|Hev]; [done|].
        apply list_elem_of_singleton in Hev as ->. injection Hd as <-. done. }
  split; intros Hn.
  - by apply seconds_exact.
  - rewrite seconds_overflow by done. lia.
Qed.

End Timeouts.

Lemma request_timeout_nanoseconds_witness :
  let tr := [ControllerEv (Ok (NewBroker "good:2"));
             CreateTopicsEv (NewBroker "good:2") create_orders (Ok orders_exists)] in
  exec (CreateTopic (H := sarama_iota) client_two_addresses topic_orders) tr
    (Some (ErrorString "kafka server: error")) /\
  -9223372036 <= Timeout (config client_two_addresses) <= 9223372036 /\
  seconds 10 = 10 * 1000000000.
Proof.
  intros tr.
  assert (exec (CreateTopic (H := sarama_iota) client_two_addresses topic_orders) tr
            (Some (ErrorString "kafka server: error"))) as He.
  { subst tr. exec_given. }
  assert (-9223372036 <= Timeout (config client_two_addresses) <= 9223372036) as Hn.
  { simpl. lia. }
  split; [exact He | split; [exact Hn|]].
  refine (proj1 (request_timeout_nanoseconds (H := sarama_iota) client_two_addresses
                   topic_orders "orders" _ tr _
                   (CreateTopicsEv (NewBroker "good:2") create_orders (Ok orders_exists))
                   (seconds 10) _ He _ eq_refl) Hn).
  - left.
  - right. left.
Defined.

(** ** The errors of the mutating operations *)

Section MutationErrors.
Context `{Sarama}.
Variable configToResources : Topic -> list AlterConfigsResource.

(** X5. When the controller cannot be found, each of [CreateTopic],
    [UpdateTopic], [DeleteTopic] and [AddPartitions] returns the error of the
    lookup as it is and makes no further call; when its request fails in
    transport, it returns that error as it is. *)
Theorem mutations_hand_on_transport_errors (c : Client) (topic : Topic) (name : string) :
  hands_on_transport_errors (CreateTopic c topic) /\
  hands_on_transport_errors (UpdateTopic configToResources c topic) /\
  hands_on_transport_errors (DeleteTopic c name) /\
  hands_on_transport_errors (AddPartitions c topic).
Proof.
  split_and!; intros tr r He.
  - apply CreateTopic_trace in He as [(e & -> & ->)|(b & req & x & -> & _ & ->)].
    + split; [by intros e' tr' [= <- <-] | by intros b ev e' [=]].
    + split; [by intros e' tr' [=]|]. intros b' ev e' [= <- <-] Hev.
      destruct x; by simplify_eq/=.
  - apply UpdateTopic_trace in He as [(e & -> & ->)|(b & req & x & -> & ->)].
    + split; [by intros e' tr' [= <- <-] | by intros b ev e' [=]].
    + split; [by intros e' tr' [=]|]. intros b' ev e' [= <- <-] Hev.
      destruct x; by simplify_eq/=.
  - apply DeleteTopic_trace in He as [(e & -> & ->)|(b & req & x & -> & _ & ->)].
    + split; [by intros e' tr' [= <- <-] | by intros b ev e' [=]].
    + split; [by intros e' tr' [=]|]. intros b' ev e' [= <- <-] Hev.
      destruct x; by simplify_eq/=.
  - apply AddPartitions_trace in He as [(e & -> & ->)|(b & req & x & -> & _ & ->)].
    + split; [by intros e' tr' [= <- <-] | by intros b ev e' [=]].
    + split; [by intros e' tr' [=]|]. intros b' ev e' [= <- <-] Hev.
      destruct x; by simplify_eq/=.
Qed.

Lemma DeleteTopic_codes_first (ok rest : list (string * KError)) (k : string) (e : KError) :
  Forall (fun x => x.2 = ErrNoError) ok -> e <> ErrNoError ->
  DeleteTopic_codes (ok ++ (k, e) :: rest) =
    Some (ErrorString (k +:+ " : " +:+ KError_Error e)).
Proof.
  intros Hok He. induction Hok as [|[k' e'] ok Hx Hok IH]; simpl.
  - by destruct (Z.eqb_spec e ErrNoError).
  - simpl in Hx. subst e'. by rewrite Z.eqb_refl.
Qed.

Lemma CreateTopic_codes_first (ok rest : list (string * TopicError)) (x : string * TopicError) :
  Forall (fun x => te_Err x.2 = ErrNoError) ok -> te_Err x.2 <> ErrNoError ->
  CreateTopic_codes (ok ++ x :: rest) = Some (ErrorString (KError_Error (te_Err x.2))).
Proof.
  intros Hok He. destruct x as [k e]. induction Hok as [|[k' e'] ok Hx Hok IH]; simpl.
  - by destruct (Z.eqb_spec (te_Err e) ErrNoError).
  - simpl in Hx. by rewrite Hx, Z.eqb_refl.
Qed.

Lemma AddPartitions_codes_first (ok rest : list (string * TopicPartitionError))
    (x : string * TopicPartitionError) :
  Forall (fun x => tpe_Err x.2 = ErrNoError) ok -> tpe_Err x.2 <> ErrNoError ->
  AddPartitions_codes (ok ++ x :: rest) = Some (ErrorString (KError_Error (tpe_Err x.2))).
Proof.
  intros Hok He. destruct x as [k e]. induction Hok as [|[k' e'] ok Hx Hok IH]; simpl.
  - by destruct (Z.eqb_spec (tpe_Err e) ErrNoError).
  - simpl in Hx. by rewrite Hx, Z.eqb_refl.
Qed.

Lemma UpdateTopic_codes_first (ok rest : list AlterConfigsResourceResponse)
    (x : AlterConfigsResourceResponse) :
  Forall (fun x => ErrorCode x = int16 ErrNoError) ok -> ErrorCode x <> int16 ErrNoError ->
  UpdateTopic_codes (ok ++ x :: rest) = Some (ErrorString (ErrorMsg x)).
Proof.
  intros Hok He. induction Hok as [|x' ok Hx Hok IH]; simpl.
  - by destruct (Z.eqb_spec (ErrorCode x) (int16 ErrNoError)).
  - by rewrite Hx, Z.eqb_refl.
Qed.

(** X6. Of the items of a response that arrived, the first one, in the order
    of iteration, whose code is not "no error" makes the error, and no later
    item is looked at: [DeleteTopic] reports the key of the item and the text
    of its code, [CreateTopic] and [AddPartitions] the text of its code alone,
    [UpdateTopic] the message the broker sent with it, even an empty one. *)
Theorem mutations_report_first_item (c : Client) (topic : Topic) (name : string)
    (b : Broker) (r : option error) :
  (forall req ok x rest,
     Forall (fun x => x.2 = ErrNoError) ok -> x.2 <> ErrNoError ->
     exec (DeleteTopic c name)
       [ControllerEv (Ok b);
        DeleteTopicsEv b req (Ok {| TopicErrorCodes := ok ++ x :: rest |})] r ->
     r = Some (ErrorString (x.1 +:+ " : " +:+ KError_Error x.2))) /\
  (forall req ok x rest,
     Forall (fun x => te_Err x.2 = ErrNoError) ok -> te_Err x.2 <> ErrNoError ->
     exec (CreateTopic c topic)
       [ControllerEv (Ok b);
        CreateTopicsEv b req (Ok {| TopicErrors := ok ++ x :: rest |})] r ->
     r = Some (ErrorString (KError_Error (te_Err x.2)))) /\
  (forall req ok x rest,
     Forall (fun x => tpe_Err x.2 = ErrNoError) ok -> tpe_Err x.2 <> ErrNoError ->
     exec (AddPartitions c topic)
       [ControllerEv (Ok b);
        CreatePartitionsEv b req (Ok {| TopicPartitionErrors := ok ++ x :: rest |})] r ->
     r = Some (ErrorString (KError_Error (tpe_Err x.2)))) /\
  (forall req ok x rest,
     Forall (fun x => ErrorCode x = int16 ErrNoError) ok -> ErrorCode x <> int16 ErrNoError ->
     exec (UpdateTopic configToResources c topic)
       [ControllerEv (Ok b);
        AlterConfigsEv b req (Ok {| acr_Resources := ok ++ x :: rest |})] r ->
     r = Some (ErrorString (ErrorMsg x))).
Proof.
  split_and!; intros req ok x rest Hok Hx He.
  - apply DeleteTopic_trace in He as [(e & [=] & _)|(b' & req' & y & Heq & _ & ->)].
    simplify_eq/=. destruct x as [k e]. by apply DeleteTopic_codes_first.
  - apply CreateTopic_trace in He as [(e & [=] & _)|(b' & req' & y & Heq & _ & ->)].
    simplify_eq/=. by apply CreateTopic_codes_first.
  - apply AddPartitions_trace in He as [(e & [=] & _)|(b' & req' & y & Heq & _ & ->)].
    simplify_eq/=. by apply AddPartitions_codes_first.
  - apply UpdateTopic_trace in He as [(e & [=] & _)|(b' & req' & y & Heq & ->)].
    simplify_eq/=. by apply UpdateTopic_codes_first.
Qed.

End MutationErrors.

(** ** Reading a topic, again *)

Section TopicsAgain.
Context `{Sarama}.

Lemma topicConfig_entries_lookup (version : Z) (entries : list ConfigEntry)
    (conf : gmap string (option string)) (k : string) :
  topicConfig_entries version entries conf !! k =
    match explicit_value version entries k with
    | Some v => Some (Some v)
    | None => conf !! k
    end.
Proof.
  unfold topicConfig_entries. revert conf.
  induction entries as [|e entries IH]; intros conf; simpl; [done|].
  rewrite IH. destruct (explicit_value version entries k); [done|].
  destruct (isDefault e version); simpl; [done|].
  destruct (String.eqb_spec (ce_Name e) k) as [->|Hne].
  - apply lookup_insert_eq.
  - by apply lookup_insert_ne.
Qed.

Lemma explicit_value_is_Some (version : Z) (entries : list ConfigEntry) (k : string) :
  is_Some (explicit_value version entries k) <->
  exists e, e ∈ entries /\ ce_Name e = k /\ isDefault e version = false.
Proof.
  induction entries as [|e entries IH]; simpl.
  - split; [by intros [? ?] | by intros (? & ?%elem_of_nil & _)].
  - destruct (explicit_value version entries k) as [v|].
    + split; [|by eauto]. intros _.
      destruct (proj1 IH) as (e' & Hin & Hk & Hd); [by eauto|].
      exists e'. split; [by right | done].
    + destruct (isDefault e version) eqn:Hd; simpl.
      * split; [by intros [? ?]|]. intros (e' & [->|Hin]%elem_of_cons & Hk & Hd').
        -- congruence.
        -- apply IH. eauto.
      * destruct (String.eqb_spec (ce_Name e) k) as [Hk|Hk].
        -- split; [|by eauto]. intros _. exists e. split; [left | done].
        -- split; [by intros [? ?]|]. intros (e' & [->|Hin]%elem_of_cons & Hk' & Hd').
           ++ done.
           ++ apply IH. eauto.
Qed.

(** X7. [topicConfig] asks the controller to describe the one topic, with a
    request of version 1, and on either failure returns the empty map with
    the error as it is.  Otherwise it returns no error and the map of the
    entries of the first resource that are not defaults by [isDefault] at the
    version of the response: a key is in the map exactly when such an entry
    has its name, it maps to the value of the last such entry, never to a nil
    pointer, and the resources after the first are not read. *)
Theorem topicConfig_explicit_entries (c : Client) (topic : string) (tr : list Event)
    (r : gmap string (option string) * option error) :
  exec (topicConfig c topic) tr r ->
  let request :=
    {| dc_Version := 1;
       dc_Resources :=
         [ {| cr_Type := TopicResource; cr_Name := topic; cr_ConfigNames := [] |} ] |} in
  (exists e, tr = [ControllerEv (Err e)] /\ r = (∅, Some e)) \/
  (exists b e, tr = [ControllerEv (Ok b); DescribeConfigsEv b request (Err e)] /\
               r = (∅, Some e)) \/
  (exists b cr,
     tr = [ControllerEv (Ok b); DescribeConfigsEv b request (Ok cr)] /\
     r.2 = None /\
     (forall k, r.1 !! k = Some <$> explicit_value (dcr_Version cr) (first_configs cr) k) /\
     (forall k, is_Some (r.1 !! k) <->
        exists e, e ∈ first_configs cr /\ ce_Name e = k /\
                  isDefault e (dcr_Version cr) = false) /\
     (forall k, r.1 !! k <> Some None)).
Proof.
  intros He request. unfold topicConfig in He. exec_step He.
  destruct x as [b|e]; exec_step He; [|by eauto].
  right. destruct x as [cr|e]; [|exec_step He; by eauto].
  right. exists b, cr.
  assert (tr = [] /\
          r = (topicConfig_entries (dcr_Version cr) (first_configs cr) ∅, None)) as [-> ->].
  { unfold first_configs. simpl in He. destruct (dcr_Resources cr) as [|r0 rs].
    - by exec_step He.
    - destruct (Configs r0) as [|e es]; simpl in He; by exec_step He. }
  assert (forall k, topicConfig_entries (dcr_Version cr) (first_configs cr) ∅ !! k =
                    Some <$> explicit_value (dcr_Version cr) (first_configs cr) k) as Hk.
  { intros k. rewrite topicConfig_entries_lookup.
    destruct (explicit_value _ _ k); [done | apply lookup_empty]. }
  split_and!; [done|done|exact Hk| |].
  - intros k. cbn [fst]. rewrite Hk, <- explicit_value_is_Some.
    by rewrite fmap_is_Some.
  - intros k. cbn [fst]. rewrite Hk. by destruct (explicit_value _ _ k).
Qed.

#[local] Arguments topicConfig : simpl never.

Lemma ReadTopic_topics_found (client : Client) (name : string) (topic : Topic)
    (topics : list string) (p : list Z) (tr : list Event) (r : Topic * option error) :
  exec (ReadTopic_topics client name topic topics) (PartitionsEv name (Ok p) :: tr) r ->
  exists rc tr' conf err,
    tr = ReplicaCountEv name p rc :: tr' /\
    exec (topicConfig client name) tr' (conf, err) /\
    let t := set_Partitions topic (int32 (Z.of_nat (length p))) in
    let t := match rc with
             | Ok n => set_ReplicationFactor t (int16 n)
             | Err _ => t
             end in
    r = match err with
        | Some e => (t, Some e)
        | None => (set_Config t conf, None)
        end.
Proof.
  induction topics as [|t topics IH]; cbn [ReadTopic_topics exec]; [by intros [? _]|].
  destruct (String.eqb_spec name t) as [<-|Hne]; [|done].
  intros He.
  apply (exec_bind (call (Partitions name))) in He as (tr1 & tr2 & x & Heq & Hx & He).
  destruct Hx as (x' & tr0 & -> & -> & ->). injection Heq as <- <-.
  apply (exec_bind (call (ReplicaCount name p))) in He as (tr1 & tr2 & rc & -> & Hrc & He).
  destruct Hrc as (rc' & tr0 & -> & -> & ->).
  apply (exec_bind (topicConfig client name)) in He as (tr1 & tr3 & [conf err] & -> & Hc & He).
  exists rc, tr1, conf, err.
  destruct err as [e|]; destruct He as [-> <-]; rewrite app_nil_r; by split_and!.
Qed.

(** X8. Once the partition query for the listed name has answered,
    [ReadTopic] asks for the replica count and then for the configuration,
    and nothing else.  The partition count is the length of the answer; a
    failure of the replica count is dropped, leaving the replication factor
    zero; the outcome of [topicConfig] alone decides between success, with
    the configuration stored in the topic, and its error, with the topic
    filled so far. *)
Theorem ReadTopic_found (client : Client) (name : string) (topics : list string)
    (refreshed : option error) (p : list Z) (tr : list Event) (r : Topic * option error) :
  exec (ReadTopic client name)
    (RefreshMetadataEv refreshed :: TopicsEv (Ok topics) :: PartitionsEv name (Ok p) :: tr) r ->
  exists rc tr' conf err,
    tr = ReplicaCountEv name p rc :: tr' /\
    exec (topicConfig client name) tr' (conf, err) /\
    Name r.1 = name /\
    Partitions_ r.1 = int32 (Z.of_nat (length p)) /\
    (Z.of_nat (length p) < 2147483648 -> Partitions_ r.1 = Z.of_nat (length p)) /\
    ReplicationFactor r.1 = match rc with Ok n => int16 n | Err _ => 0 end /\
    Config_ r.1 = match err with Some _ => ∅ | None => conf end /\
    r.2 = err.
Proof.
  intros He. simpl in He.
  destruct He as (x & tr1 & [= <- <-] & (y & tr2 & [= <- <-] & He)).
  apply ReadTopic_topics_found in He as (rc & tr' & conf & err & -> & Hc & ->).
  exists rc, tr', conf, err. split_and!; [done|done|..].
  - by destruct err, rc.
  - by destruct err, rc.
  - intros Hlen. assert (int32 (Z.of_nat (length p)) = Z.of_nat (length p)) as Hw.
    { unfold int32, wrap. change (2 ^ (32 - 1)) with 2147483648.
      change (2 ^ 32) with 4294967296. rewrite Z.mod_small by lia. lia. }
    destruct err, rc; exact Hw.
  - by destruct err, rc.
  - by destruct err, rc.
  - by destruct err.
Qed.

(** X9. [ReadTopic] does not look at the outcome of the metadata refresh:
    what it does after a failed refresh is what it does after one that
    succeeded.  When the listing of the topics fails it makes no further
    call and returns that error as it is, with a topic that holds only the
    name. *)
Theorem ReadTopic_refresh_and_listing (client : Client) (name : string) :
  (forall x y tr r,
     exec (ReadTopic client name) (RefreshMetadataEv x :: tr) r ->
     exec (ReadTopic client name) (RefreshMetadataEv y :: tr) r) /\
  (forall x e, exec (ReadTopic client name) [RefreshMetadataEv x; TopicsEv (Err e)]
                 (named name, Some e)) /\
  (forall x e tr r,
     exec (ReadTopic client name) (RefreshMetadataEv x :: TopicsEv (Err e) :: tr) r ->
     tr = [] /\ r = (named name, Some e)).
Proof.
  split_and!.
  - intros x y tr r He. simpl in He. destruct He as (x' & tr1 & [= <- <-] & He).
    simpl. by exists y, tr.
  - intros x e. simpl. exists x, [TopicsEv (Err e)]. split; [done|].
    by exists (Err e), [].
  - intros x e tr r He. simpl in He.
    destruct He as (x' & tr1 & [= <- <-] & (y & tr2 & [= <- <-] & He)).
    by destruct He as [-> <-].
Qed.

End TopicsAgain.

(** ** Brokers and ACLs, again *)

Section BrokersAgain.
Context `{Sarama}.

(** X10. A client without a list of bootstrap addresses makes
    [availableBroker] and [ListACLs] panic: they have no outcome.  With an
    empty list both fail at once, without a single call, with the error
    "No Available Brokers @ []". *)
Theorem no_bootstrap_address (c : Client) :
  (BootstrapServers (config c) = None ->
     ~ returns (availableBroker c) /\ ~ returns (ListACLs c) /\
     (forall tr r, ~ exec (availableBroker c) tr r) /\
     (forall tr r, ~ exec (ListACLs c) tr r)) /\
  (BootstrapServers (config c) = Some [] ->
     (forall tr r, exec (availableBroker c) tr r <->
        tr = [] /\ r = (None, Some (ErrorString "No Available Brokers @ []"))) /\
     (forall tr r, exec (ListACLs c) tr r <->
        tr = [] /\ r = ([], Some (ErrorString "No Available Brokers @ []")))).
Proof.
  split; intros Hb.
  - unfold ListACLs, availableBroker. rewrite Hb. split_and!; simpl; by auto.
  - unfold ListACLs, availableBroker. rewrite Hb. simpl. split; intros tr r.
    + split; [by intros [-> <-] | by intros [-> ->]].
    + split; [by intros [-> <-] | by intros [-> ->]].
Qed.

Lemma ListACLs_describe_events (broker : Broker) (reqs : list DescribeAclsRequest)
    (res : list ResourceAcls) (err : option error) (tr : list Event)
    (r : list ResourceAcls * option error) :
  exec (ListACLs_describe broker reqs res err) tr r ->
  Forall (fun ev => exists q a, ev = DescribeAclsEv broker q a) tr /\
  (forall b q e, DescribeAclsEv b q (Err e) ∈ tr -> r = ([], Some e)) /\
  (forall b q a, DescribeAclsEv b q (Ok a) ∈ tr -> da_Err a <> ErrNoError ->
     r = ([], Some (ErrorString (KError_Error (da_Err a))))).
Proof.
  revert res tr. induction reqs as [|q reqs IH]; intros res tr He; simpl in He.
  - destruct He as [-> _]. split_and!; [done|by intros ??? ?%elem_of_nil..].
  - exec_step He. destruct x as [a|e]; simpl in He.
    + destruct (Z.eqb_spec (da_Err a) ErrNoError) as [Hok|Hbad]; simpl in He.
      * destruct (IH _ _ He) as (Hall & Herr & Hcode). split_and!.
        -- constructor; [by eauto | done].
        -- intros b' q' e [[=]|Hin]%elem_of_cons. by eapply Herr.
        -- intros b' q' a' [[= <- <- <-]|Hin]%elem_of_cons Hne; [done|]. by eapply Hcode.
      * exec_step He. split_and!.
        -- constructor; [by eauto | done].
        -- intros b' q' e [[=]|?%elem_of_nil]%elem_of_cons. done.
        -- intros b' q' a' [[= <- <- <-]|?%elem_of_nil]%elem_of_cons Hne; done.
    + exec_step He. split_and!.
      * constructor; [by eauto | done].
      * intros b' q' e' [[= <- <- <-]|?%elem_of_nil]%elem_of_cons; done.
      * intros b' q' a' [[=]|?%elem_of_nil]%elem_of_cons. done.
Qed.

#[local] Arguments ListACLs_describe : simpl never.

(** X11. A run of [ListACLs] is the attempts to open a connection and, only
    if one opened, one metadata refresh followed by describe queries, all of
    them sent to the broker that opened.  A failed refresh is returned as it
    is, before any query.  A query that fails in transport gives its error as
    it is; one that comes back with a code other than "no error" gives the
    text of that code as the error. *)
Theorem ListACLs_run (c : Client) (tr : list Event) (r : list ResourceAcls * option error) :
  exec (ListACLs c) tr r ->
  exists attempts rest,
    tr = (map (attempt (kafkaConfig c)) attempts ++ rest)%list /\
    ((rest = [] /\ Forall (fun a => is_Some a.2) attempts /\ r.1 = [] /\ is_Some r.2) \/
     (exists failed b x queries,
        attempts = (failed ++ [(b, None)])%list /\
        rest = RefreshMetadataEv x :: queries /\
        (forall e, x = Some e -> queries = [] /\ r = ([], Some e)) /\
        Forall (fun ev => exists q a, ev = DescribeAclsEv (NewBroker b) q a) queries /\
        (forall b' q e, DescribeAclsEv b' q (Err e) ∈ queries -> r = ([], Some e)) /\
        (forall b' q a, DescribeAclsEv b' q (Ok a) ∈ queries -> da_Err a <> ErrNoError ->
           r = ([], Some (ErrorString (KError_Error (da_Err a))))))).
Proof.
  intros He. destruct (BootstrapServers (config c)) as [brokers|] eqn:Hb.
  2: { unfold ListACLs, availableBroker in He. rewrite Hb in He. done. }
  apply exec_bind in He as (tr1 & tr2 & [broker err] & -> & Ha & He).
  unfold availableBroker in Ha. rewrite Hb in Ha.
  apply availableBroker_try_attempts in Ha as (attempts & -> & _ & Hcases).
  exists attempts, tr2. split; [done|].
  destruct Hcases as [(failed & b & -> & Hall & [= -> ->])|(_ & Hall & [= -> ->])].
  - right. exec_step He. exists failed, b, x, tr. split_and!; [done|done|..].
    + intros e ->. by exec_step He.
    + destruct x as [e|]; [by exec_step He|].
      lazy beta iota in He. by apply ListACLs_describe_events in He as (? & _).
    + destruct x as [e|]; [exec_step He; by intros ??? ?%elem_of_nil|].
      lazy beta iota in He. by apply ListACLs_describe_events in He as (_ & ? & _).
    + destruct x as [e|]; [exec_step He; by intros ??? ?%elem_of_nil|].
      lazy beta iota in He. by apply ListACLs_describe_events in He as (_ & _ & ?).
  - left. exec_step He. split_and!; [done|done|done|by eexists].
Qed.

End BrokersAgain.

(** ** Creating and deleting ACLs *)

Lemma acl_exec_bind {A B : Type} (p : AclProg A) (f : A -> AclProg B)
    (tr : list AclEvent) (b : B) :
  acl_exec (acl_bind p f) tr b <->
  exists tr1 tr2 a, tr = (tr1 ++ tr2)%list /\ acl_exec p tr1 a /\ acl_exec (f a) tr2 b.
Proof.
  revert tr. induction p as [a|msg|c k IH]; intros tr; simpl.
  - split.
    + intros He. by exists [], tr, a.
    + by intros (tr1 & tr2 & a' & -> & [-> ->] & He).
  - split; [done | by intros (? & ? & ? & _ & [] & _)].
  - split.
    + intros (x & tr' & -> & He). apply IH in He as (tr1 & tr2 & a & -> & He1 & He2).
      exists (acl_event c x :: tr1), tr2, a. split_and!; [done| |done]. by exists x, tr1.
    + intros (tr1 & tr2 & a & -> & (x & tr' & -> & He1) & He2).
      exists x, (tr' ++ tr2)%list. split; [done|]. apply IH. by exists tr', tr2, a.
Qed.

Lemma acl_exec_lift {A : Type} (p : Prog A) (tr : list AclEvent) (a : A) :
  acl_exec (lift p) tr a <-> exists tr0, tr = map ClientEv tr0 /\ exec p tr0 a.
Proof.
  revert tr. induction p as [v|msg|c k IH]; intros tr; simpl.
  - split.
    + intros [-> ->]. by exists [].
    + by intros (tr0 & -> & [-> ->]).
  - split; [done | by intros (? & _ & [])].
  - split.
    + intros (x & tr' & -> & He). apply IH in He as (tr0 & -> & He).
      exists (event c x :: tr0). split; [done|]. by exists x, tr0.
    + intros (tr0 & -> & (x & tr' & -> & He)).
      exists x, (map ClientEv tr'). split; [done|]. apply IH. by exists tr'.
Qed.

Lemma creations_client (tr : list Event) : creations (map ClientEv tr) = [].
Proof. by induction tr. Qed.



Section ACLAdminFacts.
Context `{Sarama}.

Lemma CreateACL_trace (c : Client) (s : stringlyTypedACL) (tr : list AclEvent)
    (r : option error) :
  acl_exec (CreateACL c s) tr r ->
  exists tr0 broker err,
    exec (availableBroker c) tr0 (broker, err) /\
    match err, (AclCreation s).2 with
    | Some e, _ => tr = map ClientEv tr0 /\ r = Some e
    | None, Some e => tr = map ClientEv tr0 /\ r = Some e
    | None, None =>
        exists b x,
          broker = Some b /\
          tr = (map ClientEv tr0 ++
                [CreateAclsEv b {| ca_Version := 1; ca_AclCreations := [(AclCreation s).1] |} x])%list /\
          r = match x with
              | Err e => Some e
              | Ok res => CreateACL_codes (AclCreationResponses res)
              end
    end.
Proof.
  intros He. apply acl_exec_bind in He as (tr1 & tr2 & [broker err] & -> & Ha & He).
  apply acl_exec_lift in Ha as (tr0 & -> & Ha).
  exists tr0, broker, err. split; [done|].
  destruct err as [e|]; simpl in He.
  - destruct He as [-> <-]. by rewrite app_nil_r.
  - destruct (AclCreation s) as [ac [e|]]; simpl in He |- *.
    + destruct He as [-> <-]. by rewrite app_nil_r.
    + destruct broker as [b|]; [|done]. simpl in He.
      destruct He as (x & tr' & -> & He). exists b, x.
      destruct x as [res|e]; simpl in He.
      * destruct (CreateACL_codes (AclCreationResponses res));
          destruct He as [-> <-]; done.
      * destruct He as [-> <-]. done.
Qed.

Lemma DeleteACL_trace (c : Client) (s : stringlyTypedACL) (tr : list AclEvent)
    (r : option error) :
  acl_exec (DeleteACL c s) tr r ->
  exists tr0 broker err,
    exec (availableBroker c) tr0 (broker, err) /\
    match err, (AclFilter s).2 with
    | Some e, _ => tr = map ClientEv tr0 /\ r = Some e
    | None, Some e => tr = map ClientEv tr0 /\ r = Some e
    | None, None =>
        exists b x,
          broker = Some b /\
          tr = (map ClientEv tr0 ++
                [LogEv ("[INFO] Deleting ACL " +:+ stringlyTypedACL_String s +:+ LF);
                 DeleteAclsEv b {| dl_Version := 0; dl_Filters := [(AclFilter s).1] |} x])%list /\
          r = match x with
              | Err e => Some e
              | Ok res => DeleteACL_codes (FilterResponses res)
              end
    end.
Proof.
  intros He. apply acl_exec_bind in He as (tr1 & tr2 & [broker err] & -> & Ha & He).
  apply acl_exec_lift in Ha as (tr0 & -> & Ha).
  exists tr0, broker, err. split; [done|].
  destruct err as [e|]; simpl in He.
  - destruct He as [-> <-]. by rewrite app_nil_r.
  - destruct (AclFilter s) as [f [e|]] eqn:Ef; simpl in He |- *.
    + destruct He as [-> <-]. by rewrite app_nil_r.
    + destruct He as ([] & tr'' & -> & He).
      destruct broker as [b|]; [|done]. simpl in He.
      destruct He as (x & tr' & -> & He). exists b, x.
      destruct x as [res|e]; simpl in He.
      * destruct (DeleteACL_codes (FilterResponses res));
          destruct He as [-> <-]; done.
      * destruct He as [-> <-]. done.
Qed.

Lemma CreateACL_runs (c : Client) (s : stringlyTypedACL) (tr : list AclEvent)
    (r : option error) :
  (exists tr0 broker err,
    exec (availableBroker c) tr0 (broker, err) /\
    match err, (AclCreation s).2 with
    | Some e, _ => tr = map ClientEv tr0 /\ r = Some e
    | None, Some e => tr = map ClientEv tr0 /\ r = Some e
    | None, None =>
        exists b x,
          broker = Some b /\
          tr = (map ClientEv tr0 ++
                [CreateAclsEv b {| ca_Version := 1; ca_AclCreations := [(AclCreation s).1] |} x])%list /\
          r = match x with
              | Err e => Some e
              | Ok res => CreateACL_codes (AclCreationResponses res)
              end
    end) ->
  acl_exec (CreateACL c s) tr r.
Proof.
  intros (tr0 & broker & err & Ha & He).
  apply acl_exec_bind.
  destruct err as [e|].
  - destruct He as [-> ->]. exists (map ClientEv tr0), [], (broker, Some e).
    rewrite app_nil_r. split_and!; [done| |done]. apply acl_exec_lift. by exists tr0.
  - destruct (AclCreation s) as [ac [e|]]; simpl in He.
    + destruct He as [-> ->]. exists (map ClientEv tr0), [], (broker, None).
      rewrite app_nil_r. split_and!; [done| |done].
      apply acl_exec_lift. by exists tr0.
    + destruct He as (b & x & -> & -> & ->).
      eexists (map ClientEv tr0), _, (Some b, None). split_and!; [done| |].
      * apply acl_exec_lift. by exists tr0.
      * simpl. exists x, []. split; [done|].
        destruct x as [res|e]; simpl; [|done].
        by destruct (CreateACL_codes (AclCreationResponses res)).
Qed.

Lemma DeleteACL_runs (c : Client) (s : stringlyTypedACL) (tr : list AclEvent)
    (r : option error) :
  (exists tr0 broker err,
    exec (availableBroker c) tr0 (broker, err) /\
    match err, (AclFilter s).2 with
    | Some e, _ => tr = map ClientEv tr0 /\ r = Some e
    | None, Some e => tr = map ClientEv tr0 /\ r = Some e
    | None, None =>
        exists b x,
          broker = Some b /\
          tr = (map ClientEv tr0 ++
                [LogEv ("[INFO] Deleting ACL " +:+ stringlyTypedACL_String s +:+ LF);
                 DeleteAclsEv b {| dl_Version := 0; dl_Filters := [(AclFilter s).1] |} x])%list /\
          r = match x with
              | Err e => Some e
              | Ok res => DeleteACL_codes (FilterResponses res)
              end
    end) ->
  acl_exec (DeleteACL c s) tr r.
Proof.
  intros (tr0 & broker & err & Ha & He).
  apply acl_exec_bind.
  destruct err as [e|].
  - destruct He as [-> ->]. exists (map ClientEv tr0), [], (broker, Some e).
    rewrite app_nil_r. split_and!; [done| |done]. apply acl_exec_lift. by exists tr0.
  - destruct (AclFilter s) as [f [e|]]; simpl in He.
    + destruct He as [-> ->]. exists (map ClientEv tr0), [], (broker, None).
      rewrite app_nil_r. split_and!; [done| |done].
      apply acl_exec_lift. by exists tr0.
    + destruct He as (b & x & -> & -> & ->).
      eexists (map ClientEv tr0), _, (Some b, None). split_and!; [done| |].
      * apply acl_exec_lift. by exists tr0.
      * simpl. exists tt, [DeleteAclsEv b {| dl_Version := 0; dl_Filters := [f] |} x].
        split; [done|]. exists x, []. split; [done|].
        destruct x as [res|e]; simpl; [|done].
        by destruct (DeleteACL_codes (FilterResponses res)).
Qed.



Lemma CreateACL_codes_first (ok rest : list AclCreationResponse) (x : AclCreationResponse) :
  Forall (fun x => aclr_Err x = ErrNoError) ok -> aclr_Err x <> ErrNoError ->
  CreateACL_codes (ok ++ x :: rest) = Some (KErrorValue (aclr_Err x)).
Proof.
  intros Hok He. induction Hok as [|x' ok Hx Hok IH]; simpl.
  - by destruct (Z.eqb_spec (aclr_Err x) ErrNoError).
  - by rewrite Hx, Z.eqb_refl.
Qed.

Lemma CreateACL_codes_none (rs : list AclCreationResponse) :
  CreateACL_codes rs = None <-> Forall (fun x => aclr_Err x = ErrNoError) rs.
Proof.
  induction rs as [|x rs IH]; simpl; [done|].
  destruct (Z.eqb_spec (aclr_Err x) ErrNoError) as [Heq|Hne]; simpl.
  - rewrite IH. split; [by constructor | by intros [_ ?]%Forall_cons].
  - split; [done | by intros [? _]%Forall_cons].
Qed.

Lemma DeleteACL_codes_first (ok rest : list FilterResponse) (x : FilterResponse) :
  Forall (fun x => fr_Err x = ErrNoError) ok -> fr_Err x <> ErrNoError ->
  DeleteACL_codes (ok ++ x :: rest) = Some (KErrorValue (fr_Err x)).
Proof.
  intros Hok He. induction Hok as [|x' ok Hx Hok IH]; simpl.
  - by destruct (Z.eqb_spec (fr_Err x) ErrNoError).
  - by rewrite Hx, Z.eqb_refl.
Qed.

Lemma DeleteACL_codes_none (rs : list FilterResponse) :
  DeleteACL_codes rs = None <-> Forall (fun x => fr_Err x = ErrNoError) rs.
Proof.
  induction rs as [|x rs IH]; simpl; [done|].
  destruct (Z.eqb_spec (fr_Err x) ErrNoError) as [Heq|Hne]; simpl.
  - rewrite IH. split; [by constructor | by intros [_ ?]%Forall_cons].
  - split; [done | by intros [? _]%Forall_cons].
Qed.

Lemma availableBroker_outcome (c : Client) (tr : list Event) (broker : option Broker)
    (err : option error) :
  exec (availableBroker c) tr (broker, err) ->
  (err = None /\ exists b, broker = Some (NewBroker b) /\
     BrokerOpenEv (NewBroker b) (kafkaConfig c) None ∈ tr) \/
  (is_Some err /\ broker = None /\ forall b kc, BrokerOpenEv b kc None ∉ tr).
Proof.
  unfold availableBroker. destruct (BootstrapServers (config c)) as [brokers|]; [|done].
  intros He. apply availableBroker_try_attempts in He as (attempts & -> & _ & Hcases).
  destruct Hcases as [(failed & b & -> & Hall & [= -> ->])|(_ & Hall & [= -> ->])].
  - left. split; [done|]. exists b. split; [done|].
    rewrite map_app. apply elem_of_app. right. left.
  - right. split_and!; [by eexists | done |].
    intros b kc Hin. apply list_elem_of_fmap_1 in Hin as ([a e] & [= _ _ <-] & Hin).
    rewrite Forall_forall in Hall. by destruct (Hall _ Hin).
Qed.

(** X12. [CreateACL] connects before it validates.  Its runs are exactly
    these: a run of [availableBroker], whatever the ACL, and then, when no
    connection opened, its error; when one opened and [AclCreation] rejects
    the ACL, the validation error and no request; when one opened and the
    ACL is accepted, one request to that broker.  So for an ACL that
    [AclCreation] rejects it sends no request and fails, with the validation
    error whenever a connection opened.  Any request it sends is the only
    one, has version 1 and holds the one creation record that [AclCreation]
    made; without such a request it does not succeed. *)
Theorem CreateACL_sends_valid_creation (c : Client) (s : stringlyTypedACL)
    (tr : list AclEvent) (r : option error) :
  (acl_exec (CreateACL c s) tr r <->
   exists tr0 broker err,
     exec (availableBroker c) tr0 (broker, err) /\
     match err, (AclCreation s).2 with
     | Some e, _ => tr = map ClientEv tr0 /\ r = Some e
     | None, Some e => tr = map ClientEv tr0 /\ r = Some e
     | None, None =>
         exists b x,
           broker = Some b /\
           tr = (map ClientEv tr0 ++
                 [CreateAclsEv b {| ca_Version := 1; ca_AclCreations := [(AclCreation s).1] |} x])%list /\
           r = match x with
               | Err e => Some e
               | Ok res => CreateACL_codes (AclCreationResponses res)
               end
     end) /\
  (acl_exec (CreateACL c s) tr r ->
   (forall e, (AclCreation s).2 = Some e ->
      creations tr = [] /\ is_Some r /\
      (forall b kc, ClientEv (BrokerOpenEv b kc None) ∈ tr -> r = Some e)) /\
   (forall b req, (b, req) ∈ creations tr ->
      creations tr = [(b, req)] /\
      (AclCreation s).2 = None /\
      req = {| ca_Version := 1; ca_AclCreations := [(AclCreation s).1] |}) /\
   (r = None -> length (creations tr) = 1%nat)).
Proof.
  split; [split; [apply CreateACL_trace | apply CreateACL_runs]|].
  intros He. apply CreateACL_trace in He as (tr0 & broker & err & Ha & He).
  apply availableBroker_outcome in Ha as [(-> & b & -> & Hin)|([e' ->] & -> & Hno)].
  - destruct ((AclCreation s).2) as [e|] eqn:Hv.
    + destruct He as [-> ->]. rewrite creations_client. split_and!.
      * intros e0 [= <-]. by split_and!.
      * by intros b' req ?%elem_of_nil.
      * done.
    + destruct He as (b' & x & [= <-] & -> & ->).
      unfold creations. rewrite omap_app. fold (creations (map ClientEv tr0)).
      rewrite creations_client. simpl. split_and!; [done| |done].
      intros b' req [[= <- <-]|?%elem_of_nil]%elem_of_cons; done.
  - assert (tr = map ClientEv tr0 /\ r = Some e') as [-> ->] by (by destruct ((AclCreation s).2)).
    rewrite creations_client. split_and!.
    + intros e _. split_and!; [done|by eexists|].
      intros b kc Hin. apply list_elem_of_fmap_1 in Hin as (ev & [= <-] & Hin).
      by destruct (Hno _ _ Hin).
    + by intros b' req ?%elem_of_nil.
    + done.
Qed.

(** X13. When the response to the request of [CreateACL] arrives, the result
    is read off its codes alone: no error exactly when every code is "no
    error", and otherwise the code of the first item that is not, returned as
    the error value itself.  A request that fails in transport gives its
    error as it is. *)
Theorem CreateACL_reads_codes (c : Client) (s : stringlyTypedACL)
    (tr : list AclEvent) (r : option error) (b : Broker) (req : CreateAclsRequest) :
  acl_exec (CreateACL c s) tr r ->
  (forall e, CreateAclsEv b req (Err e) ∈ tr -> r = Some e) /\
  (forall res, CreateAclsEv b req (Ok res) ∈ tr ->
     (r = None <-> Forall (fun x => aclr_Err x = ErrNoError) (AclCreationResponses res)) /\
     (forall ok x rest,
        AclCreationResponses res = (ok ++ x :: rest)%list ->
        Forall (fun x => aclr_Err x = ErrNoError) ok -> aclr_Err x <> ErrNoError ->
        r = Some (KErrorValue (aclr_Err x)))).
Proof.
  intros He. apply CreateACL_trace in He as (tr0 & broker & err & _ & He).
  assert (forall y, CreateAclsEv b req y ∈ tr ->
            r = match y with
                | Err e => Some e
                | Ok res => CreateACL_codes (AclCreationResponses res)
                end) as Hy.
  { intros y Hin. destruct err as [e|], ((AclCreation s).2) as [e'|].
    1-3: destruct He as [-> _];
      by apply list_elem_of_fmap_1 in Hin as (ev & [=] & _).
    destruct He as (b' & x & _ & -> & ->).
    apply elem_of_app in Hin as [Hin|Hin].
    - by apply list_elem_of_fmap_1 in Hin as (ev & [=] & _).
    - by apply list_elem_of_singleton in Hin as [= _ _ ->]. }
  split.
  - intros e Hin. by rewrite (Hy _ Hin).
  - intros res Hin. rewrite (Hy _ Hin). split; [apply CreateACL_codes_none|].
    intros ok x rest -> Hok Hx. by apply CreateACL_codes_first.
Qed.


(** X15. When the response to the request of [DeleteACL] arrives, the result
    is read off the codes of its filter responses alone: no error exactly
    when every code is "no error", and otherwise the code of the first one
    that is not, returned as the error value itself.  A request that fails in
    transport gives its error as it is. *)
Theorem DeleteACL_reads_codes (c : Client) (s : stringlyTypedACL)
    (tr : list AclEvent) (r : option error) (b : Broker) (req : DeleteAclsRequest) :
  acl_exec (DeleteACL c s) tr r ->
  (forall e, DeleteAclsEv b req (Err e) ∈ tr -> r = Some e) /\
  (forall res, DeleteAclsEv b req (Ok res) ∈ tr ->
     (r = None <-> Forall (fun x => fr_Err x = ErrNoError) (FilterResponses res)) /\
     (forall ok x rest,
        FilterResponses res = (ok ++ x :: rest)%list ->
        Forall (fun x => fr_Err x = ErrNoError) ok -> fr_Err x <> ErrNoError ->
        r = Some (KErrorValue (fr_Err x)))).
Proof.
  intros He. apply DeleteACL_trace in He as (tr0 & broker & err & _ & He).
  assert (forall y, DeleteAclsEv b req y ∈ tr ->
            r = match y with
                | Err e => Some e
                | Ok res => DeleteACL_codes (FilterResponses res)
                end) as Hy.
  { intros y Hin. destruct err as [e|], ((AclFilter s).2) as [e'|].
    1-3: destruct He as [-> _];
      by apply list_elem_of_fmap_1 in Hin as (ev & [=] & _).
    destruct He as (b' & x & _ & -> & ->).
    apply elem_of_app in Hin as [Hin|Hin].
    - by apply list_elem_of_fmap_1 in Hin as (ev & [=] & _).
    - apply elem_of_cons in Hin as [[=]|Hin].
      by apply list_elem_of_singleton in Hin as [= _ _ ->]. }
  split.
  - intros e Hin. by rewrite (Hy _ Hin).
  - intros res Hin. rewrite (Hy _ Hin). split; [apply DeleteACL_codes_none|].
    intros ok x rest -> Hok Hx. by apply DeleteACL_codes_first.
Qed.

End ACLAdminFacts.

(** ** The connection configuration, again *)

Section ConnectionConfigAgain.
Context `{Sarama}.

Lemma clientCert_trace (c : Config) (tr : list Event)
    (r : option tls_Certificate * option error) :
  exec (clientCert c) tr r ->
  match ClientCert c with
  | Some cert => tr = [] /\ r = (Some cert, None)
  | None =>
      if negb (ClientCertFile c =? "")%string && negb (ClientCertKey c =? "")%string
      then exists x,
             tr = [LoadX509KeyPairEv (ClientCertFile c) (ClientCertKey c) x] /\
             r = match x with
                 | Ok cert => (Some cert, None)
                 | Err e => (None, Some e)
                 end
      else tr = [] /\ r = (None, None)
  end.
Proof.
  unfold clientCert. destruct (ClientCert c) as [cert|]; [by intros [-> <-]|].
  destruct (negb _ && negb _); [|by intros [-> <-]].
  intros He. exec_step He. exists x. by destruct x; exec_step He.
Qed.

Lemma caCertPool_trace (c : Config) (tr : list Event) (r : option CertPool * option error) :
  exec (caCertPool c) tr r ->
  match CACert c with
  | Some cert => tr = [] /\ r = (Some [cert], None)
  | None =>
      if (CACertFile c =? "")%string
      then exists x,
             tr = [ReadFileEv "" x] /\
             r = match x with
                 | Ok pem => (Some (certsFromPEM pem), None)
                 | Err e => (None, Some e)
                 end
      else tr = [] /\ r = (Some [], None)
  end.
Proof.
  unfold caCertPool. destruct (CACert c) as [cert|]; [by intros [-> <-]|].
  destruct (String.eqb_spec (CACertFile c) "") as [->|Hne]; [|by intros [-> <-]].
  intros He. exec_step He. exists x. by destruct x; exec_step He.
Qed.

Lemma newKafkaConfig_trace (c : Config) (tr : list Event) (r : sarama_Config * option error) :
  exec (newKafkaConfig c) tr r ->
  let k := set_ClientID (set_Version NewConfig V2_0_0_0) "terraform-provider-kafka" in
  let k := if SASLEnabled c
           then set_SASL k true (SASLPassword c) (SASLUsername c) else k in
  if TLSEnabled c then
    exists tr1 tr2 cert e1,
      tr = (tr1 ++ tr2)%list /\
      exec (clientCert c) tr1 (cert, e1) /\
      match e1 with
      | Some e => tr2 = [] /\ r = (k, Some e)
      | None =>
          exists pool e2,
            exec (caCertPool c) tr2 (pool, e2) /\
            match e2 with
            | Some e => r = (k, Some e)
            | None =>
                r = (set_TLS k true
                       {| Certificates := match cert with Some cert => [cert] | None => [] end;
                          RootCAs := pool;
                          InsecureSkipVerify := SkipTLSVerify c |}, None)
            end
      end
  else tr = [] /\ r = (k, None).
Proof.
  unfold newKafkaConfig. cbv zeta. destruct (TLSEnabled c); [|by intros [-> <-]].
  intros He. apply exec_bind in He as (tr0 & tr3 & [tlsConfig e0] & -> & Ht & He).
  unfold newTLSConfig in Ht.
  apply exec_bind in Ht as (tr1 & tr2 & [cert e1] & -> & Hc & Ht).
  destruct e1 as [e|].
  - simpl in Ht. destruct Ht as [-> [= <- <-]]. exec_step He.
    exists tr1, [], cert, (Some e). by rewrite !app_nil_r.
  - cbv zeta in Ht. apply exec_bind in Ht as (tr4 & tr5 & [pool e2] & -> & Hp & Ht).
    exists tr1, tr4, cert, None. destruct e2 as [e|].
    + simpl in Ht. destruct Ht as [-> [= <- <-]]. exec_step He.
      rewrite !app_nil_r. split_and!; [done..|]. by exists pool, (Some e).
    + simpl in Ht. destruct Ht as [-> [= <- <-]]. exec_step He.
      rewrite !app_nil_r. split_and!; [done..|].
      exists pool, None. split; [done|]. by destruct cert, pool.
Qed.

Lemma clientCert_runs (c : Config) (tr : list Event)
    (r : option tls_Certificate * option error) :
  match ClientCert c with
  | Some cert => tr = [] /\ r = (Some cert, None)
  | None =>
      if negb (ClientCertFile c =? "")%string && negb (ClientCertKey c =? "")%string
      then exists x,
             tr = [LoadX509KeyPairEv (ClientCertFile c) (ClientCertKey c) x] /\
             r = match x with
                 | Ok cert => (Some cert, None)
                 | Err e => (None, Some e)
                 end
      else tr = [] /\ r = (None, None)
  end ->
  exec (clientCert c) tr r.
Proof.
  unfold clientCert. destruct (ClientCert c) as [cert|]; [by intros [-> ->]|].
  destruct (negb _ && negb _); [|by intros [-> ->]].
  intros (x & -> & ->). exists x, []. split; [done|]. by destruct x.
Qed.

Lemma newKafkaConfig_tls_runs (c : Config) (tr : list Event)
    (r : sarama_Config * option error) :
  TLSEnabled c = true ->
  exec (newKafkaConfig c) tr r <->
  exists tr1 tr2 cert e1,
    tr = (tr1 ++ tr2)%list /\
    exec (clientCert c) tr1 (cert, e1) /\
    match e1 with
    | Some e => tr2 = [] /\ r = (kafkaConfig_base c, Some e)
    | None =>
        exists roots,
          exec (caCertPool c) tr2 roots /\
          r = kafkaConfig_with_roots c (match cert with Some cert => [cert] | None => [] end)
                roots
    end.
Proof.
  intros Htls. split.
  - intros He. apply newKafkaConfig_trace in He. cbv zeta in He. rewrite Htls in He.
    destruct He as (tr1 & tr2 & cert & e1 & -> & Hc & He).
    exists tr1, tr2, cert, e1. split_and!; [done..|].
    destruct e1 as [e|]; [done|].
    destruct He as (pool & e2 & Hp & Hr). exists (pool, e2). split; [done|].
    by destruct e2.
  - intros (tr1 & tr2 & cert & e1 & -> & Hc & He).
    unfold newKafkaConfig. cbv zeta. rewrite Htls.
    fold (kafkaConfig_base c).
    destruct e1 as [e|].
    + destruct He as [-> ->]. apply exec_bind.
      exists tr1, [], ({| Certificates := []; RootCAs := None; InsecureSkipVerify := false |},
                       Some e).
      split_and!; [done| |done].
      unfold newTLSConfig. apply exec_bind. exists tr1, [], (cert, Some e).
      by rewrite app_nil_r.
    + destruct He as ([pool e2] & Hp & ->). apply exec_bind.
      unfold kafkaConfig_with_roots. simpl.
      destruct e2 as [e|].
      * exists (tr1 ++ tr2)%list, [],
          (match cert with
           | Some cert => set_Certificates
                            {| Certificates := []; RootCAs := None;
                               InsecureSkipVerify := false |} [cert]
           | None => {| Certificates := []; RootCAs := None; InsecureSkipVerify := false |}
           end, Some e).
        rewrite app_nil_r. split_and!; [done| |done].
        unfold newTLSConfig. apply exec_bind. exists tr1, tr2, (cert, None).
        split_and!; [done..|]. cbv zeta. apply exec_bind. exists tr2, [], (pool, Some e).
        by rewrite app_nil_r.
      * exists (tr1 ++ tr2)%list, [],
          ({| Certificates := match cert with Some cert => [cert] | None => [] end;
              RootCAs := pool; InsecureSkipVerify := false |}, None).
        rewrite app_nil_r. split_and!; [done| |done].
        unfold newTLSConfig. apply exec_bind. exists tr1, tr2, (cert, None).
        split_and!; [done..|]. cbv zeta. apply exec_bind. exists tr2, [], (pool, None).
        rewrite app_nil_r. split_and!; [done..|]. by destruct cert, pool.
Qed.

(** X16. With TLS on, a client certificate held in memory is the one in the
    derived configuration and no key pair is loaded from files, whatever
    paths are set: the runs of [newKafkaConfig] are the runs of
    [caCertPool], with that certificate added to what it returned.  Without
    one, a key pair is loaded exactly when both the certificate path and the
    key path are set, as the first call, and a failure to load it is the
    error of the configuration and ends it.  When either path is missing the
    runs are again the runs of [caCertPool] alone: the client certificate
    step makes no call and raises no error of its own, an error can only be
    that of reading the CA file, and the derived configuration has no client
    certificate. *)
Theorem newKafkaConfig_client_certificate (c : Config) (tr : list Event)
    (r : sarama_Config * option error) :
  TLSEnabled c = true ->
  match ClientCert c with
  | Some cert =>
      exec (newKafkaConfig c) tr r <->
      exists roots, exec (caCertPool c) tr roots /\ r = kafkaConfig_with_roots c [cert] roots
  | None =>
      if negb (ClientCertFile c =? "")%string && negb (ClientCertKey c =? "")%string
      then exec (newKafkaConfig c) tr r <->
           exists x tr',
             tr = LoadX509KeyPairEv (ClientCertFile c) (ClientCertKey c) x :: tr' /\
             match x with
             | Err e => tr' = [] /\ r = (kafkaConfig_base c, Some e)
             | Ok cert =>
                 exists roots,
                   exec (caCertPool c) tr' roots /\
                   r = kafkaConfig_with_roots c [cert] roots
             end
      else exec (newKafkaConfig c) tr r <->
           exists roots, exec (caCertPool c) tr roots /\ r = kafkaConfig_with_roots c [] roots
  end /\
  (exec (newKafkaConfig c) tr r ->
   match ClientCert c with
   | Some cert =>
       Forall (fun ev => is_LoadX509KeyPair ev = false) tr /\
       (r.2 = None -> certificates_of r.1 = Some [cert])
   | None =>
       if negb (ClientCertFile c =? "")%string && negb (ClientCertKey c =? "")%string
       then exists x tr',
              tr = LoadX509KeyPairEv (ClientCertFile c) (ClientCertKey c) x :: tr' /\
              match x with
              | Err e => tr' = [] /\ r.2 = Some e
              | Ok cert => r.2 = None -> certificates_of r.1 = Some [cert]
              end
       else Forall (fun ev => is_LoadX509KeyPair ev = false) tr /\
            (r.2 = None -> certificates_of r.1 = Some [])
   end).
Proof.
  intros Htls. split.
  - pose proof (clientCert_trace c) as Hfwd. pose proof (clientCert_runs c) as Hbwd.
    destruct (ClientCert c) as [cert0|]; [|destruct (negb _ && negb _)];
      rewrite (newKafkaConfig_tls_runs c tr r Htls); split.
    + intros (tr1 & tr2 & cert & e1 & -> & Hc & He).
      apply Hfwd in Hc as [-> [= -> ->]]. done.
    + intros (roots & Hp & ->). exists [], tr, (Some cert0), None.
      split_and!; [done|by apply Hbwd|]. by exists roots.
    + intros (tr1 & tr2 & cert & e1 & -> & Hc & He).
      apply Hfwd in Hc as (x & -> & Hr). exists x, tr2. split; [done|].
      destruct x as [cert0|e]; injection Hr as -> ->; done.
    + intros (x & tr' & -> & He).
      exists [LoadX509KeyPairEv (ClientCertFile c) (ClientCertKey c) x], tr',
        (match x with Ok cert => Some cert | Err _ => None end),
        (match x with Ok _ => None | Err e => Some e end).
      split_and!; [done| |by destruct x].
      apply Hbwd. exists x. by destruct x.
    + intros (tr1 & tr2 & cert & e1 & -> & Hc & He).
      apply Hfwd in Hc as [-> [= -> ->]]. done.
    + intros (roots & Hp & ->). exists [], tr, None, None.
      split_and!; [done|by apply Hbwd|]. by exists roots.
  - intros He. apply newKafkaConfig_trace in He. cbv zeta in He. rewrite Htls in He.
    destruct He as (tr1 & tr2 & cert & e1 & -> & Hc & He).
    apply clientCert_trace in Hc.
    assert (e1 = None -> Forall (fun ev => is_LoadX509KeyPair ev = false) tr2) as Hno.
    { intros ->. destruct He as (pool & e2 & Hp & _). apply caCertPool_trace in Hp.
      destruct (CACert c); [by destruct Hp as [-> _]|].
      destruct (CACertFile c =? "")%string; [|by destruct Hp as [-> _]].
      destruct Hp as (x & -> & _). by repeat constructor. }
    destruct (ClientCert c) as [cert0|].
    + destruct Hc as [-> [= -> ->]]. split; [by apply Hno|].
      destruct He as (pool & [e|] & _ & ->); [done|]. done.
    + destruct (negb _ && negb _).
      * destruct Hc as (x & -> & Hr). exists x, tr2. split; [done|].
        destruct x as [cert0|e]; injection Hr as -> ->.
        -- destruct He as (pool & [e|] & _ & ->); done.
        -- by destruct He as [-> ->].
      * destruct Hc as [-> [= -> ->]]. split; [by apply Hno|].
        destruct He as (pool & [e|] & _ & ->); done.
Qed.

(** X17. With TLS on, a CA certificate held in memory is the only trusted
    root of the derived configuration and no file is read.  Without one, a
    file is read exactly when the CA path is empty, and it is the file of the
    empty path: the configuration then fails with the error of that read, or
    trusts the certificates of the PEM data read; with a CA path set nothing
    is read and the pool of trusted roots is empty. *)
Theorem newKafkaConfig_trusted_roots (c : Config) (tr : list Event)
    (r : sarama_Config * option error) :
  TLSEnabled c = true ->
  exec (newKafkaConfig c) tr r ->
  match CACert c with
  | Some cert =>
      Forall (fun ev => is_ReadFile ev = false) tr /\
      (r.2 = None -> roots_of r.1 = Some [cert])
  | None =>
      if (CACertFile c =? "")%string
      then (forall e, r.2 = Some e -> exists tr' ev, tr = (tr' ++ [ev])%list /\ call_error ev = Some e) /\
           (r.2 = None ->
              exists tr' pem, tr = (tr' ++ [ReadFileEv "" (Ok pem)])%list /\
                              roots_of r.1 = Some (certsFromPEM pem))
      else Forall (fun ev => is_ReadFile ev = false) tr /\
           (r.2 = None -> roots_of r.1 = Some [])
  end.
Proof.
  intros Htls He. apply newKafkaConfig_trace in He. cbv zeta in He. rewrite Htls in He.
  destruct He as (tr1 & tr2 & cert & e1 & -> & Hc & He).
  apply clientCert_trace in Hc.
  assert (Forall (fun ev => is_ReadFile ev = false) tr1 /\
          (forall e, e1 = Some e -> exists ev, tr1 = [ev] /\ call_error ev = Some e)) as [Hno Herr].
  { destruct (ClientCert c); [destruct Hc as [-> [= _ ->]]; by split|].
    destruct (negb _ && negb _); [|destruct Hc as [-> [= _ ->]]; by split].
    destruct Hc as (x & -> & Hr). split; [by repeat constructor|].
    intros e ->. destruct x; simplify_eq. by eexists. }
  destruct e1 as [e|].
  - destruct He as [-> ->]. rewrite app_nil_r.
    destruct (Herr e eq_refl) as (ev & -> & Hev).
    destruct (CACert c); [by split|].
    destruct (CACertFile c =? "")%string; [|by split].
    split; [|done]. intros e' [= <-]. by exists [], ev.
  - destruct He as (pool & e2 & Hp & Hr). apply caCertPool_trace in Hp.
    destruct (CACert c) as [cert0|].
    + destruct Hp as [-> [= -> ->]]. rewrite app_nil_r. split; [done|]. by subst r.
    + destruct (CACertFile c =? "")%string.
      * destruct Hp as (x & -> & Hx). destruct x as [pem|e]; injection Hx as -> ->; subst r.
        -- split; [done|]. intros _. by exists tr1, pem.
        -- split; [|done]. intros e' [= <-]. by exists tr1, (ReadFileEv "" (Err e)).
      * destruct Hp as [-> [= -> ->]]. rewrite app_nil_r. split; [done|]. by subst r.
Qed.

(** X18. With TLS off, [newKafkaConfig] makes no call, cannot fail, and
    leaves the TLS settings as [sarama.NewConfig] made them.  With TLS on it
    enables TLS with the skip-verify setting of the configuration when it
    succeeds; it fails exactly with the error of the call it made last, and
    the configuration it then returns has TLS as [sarama.NewConfig] made it.
    It makes at most two calls, the key pair before the CA file. *)
Theorem newKafkaConfig_tls (c : Config) (tr : list Event) (r : sarama_Config * option error) :
  exec (newKafkaConfig c) tr r ->
  (TLSEnabled c = false -> tr = [] /\ r.2 = None) /\
  (TLSEnabled c = false \/ is_Some r.2 ->
     Net_TLS_Enable r.1 = Net_TLS_Enable NewConfig /\
     Net_TLS_Config r.1 = Net_TLS_Config NewConfig) /\
  (TLSEnabled c = true -> r.2 = None ->
     Net_TLS_Enable r.1 = true /\
     exists t, Net_TLS_Config r.1 = Some t /\ InsecureSkipVerify t = SkipTLSVerify c) /\
  (forall e, r.2 = Some e ->
     exists tr' ev, tr = (tr' ++ [ev])%list /\ call_error ev = Some e) /\
  (exists loads reads,
     tr = (loads ++ reads)%list /\
     Forall (fun ev => is_LoadX509KeyPair ev = true) loads /\
     Forall (fun ev => is_ReadFile ev = true) reads /\
     (length loads <= 1)%nat /\ (length reads <= 1)%nat).
Proof.
  intros He. apply newKafkaConfig_trace in He. cbv zeta in He.
  destruct (TLSEnabled c).
  2: { destruct He as [-> ->]. split_and!; try done.
       - intros _. by destruct (SASLEnabled c).
       - exists [], []. split_and!; first [done | simpl; lia]. }
  destruct He as (tr1 & tr2 & cert & e1 & -> & Hc & He).
  apply clientCert_trace in Hc.
  assert (Forall (fun ev => is_LoadX509KeyPair ev = true) tr1 /\ (length tr1 <= 1)%nat /\
          (forall e, e1 = Some e -> exists ev, tr1 = [ev] /\ call_error ev = Some e))
    as (Hl1 & Hn1 & Herr1).
  { destruct (ClientCert c); [destruct Hc as [-> [= _ ->]]; split_and!; first [done | simpl; lia]|].
    destruct (negb _ && negb _); [|destruct Hc as [-> [= _ ->]]; split_and!; first [done | simpl; lia]].
    destruct Hc as (x & -> & Hr). split_and!; [by repeat constructor|simpl; lia|].
    intros e ->. destruct x; simplify_eq. by eexists. }
  destruct e1 as [e|].
  - destruct He as [-> ->]. destruct (Herr1 e eq_refl) as (ev & -> & Hev).
    split_and!; try done.
    + intros _. by destruct (SASLEnabled c).
    + intros e' [= <-]. by exists [], ev.
    + exists [ev], []. split_and!; first [done | simpl; lia | by repeat constructor].
  - destruct He as (pool & e2 & Hp & Hr). apply caCertPool_trace in Hp.
    assert (Forall (fun ev => is_ReadFile ev = true) tr2 /\ (length tr2 <= 1)%nat /\
            (forall e, e2 = Some e -> exists ev, tr2 = [ev] /\ call_error ev = Some e))
      as (Hl2 & Hn2 & Herr2).
    { destruct (CACert c); [destruct Hp as [-> [= _ ->]]; split_and!; first [done | simpl; lia]|].
      destruct (CACertFile c =? "")%string; [|destruct Hp as [-> [= _ ->]]; split_and!; first [done | simpl; lia]].
      destruct Hp as (x & -> & Hx). split_and!; [by repeat constructor|simpl; lia|].
      intros e ->. destruct x; simplify_eq. by eexists. }
    destruct e2 as [e|]; subst r.
    + destruct (Herr2 e eq_refl) as (ev & -> & Hev). split_and!; try done.
      * intros _. by destruct (SASLEnabled c).
      * intros e' [= <-]. by exists tr1, ev.
      * exists tr1, [ev]. split_and!; first [done | simpl; lia].
    + split_and!; try done.
      * by intros [?|[? ?]].
      * intros _ _. split; [done|]. by eexists.
      * by exists tr1, tr2.
Qed.

(** X19. [newKafkaConfig] turns SASL on, with the user name and password of
    the configuration, exactly when one of the two is not empty; otherwise it
    leaves the SASL settings as [sarama.NewConfig] made them.  This holds for
    the configuration it returns with an error too. *)
Theorem newKafkaConfig_sasl (c : Config) (tr : list Event) (r : sarama_Config * option error) :
  exec (newKafkaConfig c) tr r ->
  (SASLEnabled c = true <-> SASLUsername c <> "" \/ SASLPassword c <> "") /\
  (SASLUsername c <> "" \/ SASLPassword c <> "" ->
     Net_SASL_Enable r.1 = true /\
     Net_SASL_User r.1 = SASLUsername c /\
     Net_SASL_Password r.1 = SASLPassword c) /\
  (SASLUsername c = "" -> SASLPassword c = "" ->
     Net_SASL_Enable r.1 = Net_SASL_Enable NewConfig /\
     Net_SASL_User r.1 = Net_SASL_User NewConfig /\
     Net_SASL_Password r.1 = Net_SASL_Password NewConfig).
Proof.
  intros He.
  assert (SASLEnabled c = true <-> SASLUsername c <> "" \/ SASLPassword c <> "") as Hs.
  { unfold SASLEnabled. rewrite orb_true_iff, !negb_true_iff, !String.eqb_neq. done. }
  assert (Net_SASL_Enable r.1 = (if SASLEnabled c then true else Net_SASL_Enable NewConfig) /\
          Net_SASL_User r.1 =
            (if SASLEnabled c then SASLUsername c else Net_SASL_User NewConfig) /\
          Net_SASL_Password r.1 =
            (if SASLEnabled c then SASLPassword c else Net_SASL_Password NewConfig))
    as (He1 & He2 & He3).
  { apply newKafkaConfig_trace in He. cbv zeta in He. destruct (TLSEnabled c).
    - destruct He as (tr1 & tr2 & cert & [e|] & _ & _ & He).
      + destruct He as [_ ->]. by destruct (SASLEnabled c).
      + destruct He as (pool & [e|] & _ & ->); by destruct (SASLEnabled c).
    - destruct He as [_ ->]. by destruct (SASLEnabled c). }
  split; [done|]. split.
  - intros Hne. apply Hs in Hne. by rewrite He1, He2, He3, Hne.
  - intros Hu Hp. assert (SASLEnabled c = false) as Hf.
    { unfold SASLEnabled. by rewrite Hu, Hp. }
    by rewrite He1, He2, He3, Hf.
Qed.

End ConnectionConfigAgain.

(** ** Versions, texts *)

Lemma length_append (s t : string) :
  String.length (s +:+ t) = (String.length s + String.length t)%nat.
Proof.
  induction s as [|a s IH]; [done|].
  change (S (String.length (s +:+ t)) = S (String.length s + String.length t)).
  by rewrite IH.
Qed.

Lemma append_inj_r (s s' t : string) : s +:+ t = s' +:+ t -> s = s'.
Proof.
  revert s'. induction s as [|a s IH]; intros [|a' s'] Heq.
  - done.
  - apply (f_equal String.length) in Heq.
    change (String.length t = S (String.length (s' +:+ t))) in Heq.
    rewrite length_append in Heq. lia.
  - apply (f_equal String.length) in Heq.
    change (S (String.length (s +:+ t)) = String.length t) in Heq.
    rewrite length_append in Heq. lia.
  - rewrite !append_cons in Heq. injection Heq as -> Heq. by rewrite (IH s' Heq).
Qed.

Section Texts.
Context `{Sarama}.

#[local] Arguments ListACLs_describe : simpl never.

Lemma ListACLs_describes_planned (c : Client) (tr : list Event)
    (r : list ResourceAcls * option error) :
  exec (ListACLs c) tr r -> (describes tr).*1 `prefix_of` allResources.
Proof.
  intros He. destruct (BootstrapServers (config c)) as [brokers|] eqn:Hb.
  2: { unfold ListACLs, availableBroker in He. rewrite Hb in He. done. }
  apply exec_bind in He as (tr1 & tr2 & [broker err] & -> & Ha & He).
  unfold availableBroker in Ha. rewrite Hb in Ha.
  apply availableBroker_try_attempts in Ha as (attempts & -> & _ & Hcases).
  rewrite describes_app, describes_attempts.
  destruct Hcases as [(failed & b & -> & Hall & [= -> ->])|(_ & Hall & [= -> ->])].
  - exec_step He. destruct x as [e|].
    + exec_step He. apply prefix_nil.
    + lazy beta iota in He. by apply ListACLs_describe_trace in He as (? & _).
  - exec_step He. apply prefix_nil.
Qed.

(** X20. Every describe query that [ListACLs] issues has version 1, and the
    protocol version that the vendored library requires for such a request
    is the one [newKafkaConfig] sets, for every configuration. *)
Theorem ListACLs_queries_fit_version (c : Config) (client : Client) (tr tr' : list Event)
    (r : sarama_Config * option error) (r' : list ResourceAcls * option error) :
  exec (newKafkaConfig c) tr r ->
  exec (ListACLs client) tr' r' ->
  Forall (fun d => da_Version d.1 = 1 /\ requiredVersion d.1 = Version r.1) (describes tr').
Proof.
  intros Hk Hl. apply newKafkaConfig_fixed in Hk as [-> _].
  apply ListACLs_describes_planned in Hl as [rest Hl].
  apply Forall_forall. intros d Hd.
  assert (d.1 ∈ allResources) as Hin.
  { rewrite Hl. apply elem_of_app. left. by apply list_elem_of_fmap_2. }
  unfold allResources in Hin.
  repeat (apply elem_of_cons in Hin as [->|Hin]); [done..|by apply elem_of_nil in Hin].
Qed.

(** X21. For a name that the listing does not hold, the text of the error
    that [ReadTopic] returns, read by its [Error] method, is the name
    followed by " could not be found", and no other name gives that text. *)
Theorem TopicMissingError_names_the_topic (client : Client) (name : string)
    (topics : list string) (refreshed : option error) (tr : list Event)
    (r : Topic * option error) :
  name ∉ topics ->
  exec (ReadTopic client name) (RefreshMetadataEv refreshed :: TopicsEv (Ok topics) :: tr) r ->
  exists e,
    r.2 = Some e /\
    Error e = name +:+ " could not be found" /\
    (forall name', Error e = name' +:+ " could not be found" -> name' = name).
Proof.
  intros Hn He. simpl in He.
  destruct He as (x & tr1 & [= <- <-] & (y & tr2 & [= <- <-] & He)).
  apply ReadTopic_topics_absent in He as [-> ->]; [|done].
  eexists. split_and!; [done..|]. intros name' Heq. simpl in Heq.
  symmetry. by apply append_inj_r in Heq.
Qed.

End Texts.

(** X22. [Config.String] panics exactly when the configuration has no list
    of bootstrap addresses.  Otherwise its text holds every bootstrap
    address, and it is made of the addresses, the timeout and the two TLS
    flags only: no credential, certificate or path can change it. *)
Theorem Config_String_text (c : Config) :
  (Config_String c = None <-> BootstrapServers c = None) /\
  (forall servers text,
     BootstrapServers c = Some servers -> Config_String c = Some text ->
     Forall (fun b => contains b text) servers) /\
  (forall c',
     BootstrapServers c' = BootstrapServers c -> Timeout c' = Timeout c ->
     TLSEnabled c' = TLSEnabled c -> SkipTLSVerify c' = SkipTLSVerify c ->
     Config_String c' = Config_String c).
Proof.
  unfold Config_String. split_and!.
  - by destruct (BootstrapServers c).
  - intros servers text -> [= <-]. apply Forall_forall. intros b Hb.
    by apply contains_append_l, contains_append_r, contains_fmt_strings.
  - intros c' -> -> -> ->. done.
Qed.

(** ** The further properties at sample inputs *)

Ltac acl_exec_given :=
  repeat (simpl; first [ done | split; [reflexivity|] | eexists _, _ ]).

Lemma mutations_hand_on_transport_errors_witness :
  let e := TransportError "no controller" in
  exec (DeleteTopic (H := sarama_iota) client_two_addresses "orders")
    [ControllerEv (Err e)] (Some e) /\
  (@nil Event = [] /\ Some e = Some e).
Proof.
  intros e.
  assert (exec (DeleteTopic (H := sarama_iota) client_two_addresses "orders")
            [ControllerEv (Err e)] (Some e)) as He.
  { subst e. exec_given. }
  split; [exact He|].
  destruct (mutations_hand_on_transport_errors (H := sarama_iota) (fun _ => [])
              client_two_addresses topic_orders "orders") as (_ & _ & Hd & _).
  apply (proj1 (Hd _ _ He) e []). reflexivity.
Defined.

Lemma mutations_report_first_item_witness :
  let b := NewBroker "good:2" in
  let req := {| dt_Topics := ["orders"]; dt_Timeout := seconds 10 |} in
  let r := Some (ErrorString "orders : kafka server: error") in
  Forall (fun x : string * KError => x.2 = 0) [("payments", 0)] /\
  3 <> 0 /\
  exec (DeleteTopic (H := sarama_iota) client_two_addresses "orders")
    [ControllerEv (Ok b);
     DeleteTopicsEv b req
       (Ok {| TopicErrorCodes := [("payments", 0)] ++ ("orders", 3) :: [("billing", 5)] |})] r /\
  r = Some (ErrorString ("orders" +:+ " : " +:+ "kafka server: error")).
Proof.
  intros b req r.
  assert (Forall (fun x : string * KError => x.2 = 0) [("payments", 0)]) as Hok.
  { repeat constructor. }
  assert (3 <> 0) as Hne by lia.
  assert (exec (DeleteTopic (H := sarama_iota) client_two_addresses "orders")
    [ControllerEv (Ok b);
     DeleteTopicsEv b req
       (Ok {| TopicErrorCodes := [("payments", 0)] ++ ("orders", 3) :: [("billing", 5)] |})] r)
    as He.
  { subst b req r. exec_given. }
  split_and!; [exact Hok | exact Hne | exact He |].
  apply (proj1 (mutations_report_first_item (H := sarama_iota) (fun _ => [])
                  client_two_addresses topic_orders "orders" b r)
           req [("payments", 0)] ("orders", 3) [("billing", 5)] Hok Hne He).
Defined.

Lemma topicConfig_explicit_entries_witness :
  let b := NewBroker "good:2" in
  let tr := [ControllerEv (Ok b); DescribeConfigsEv b describe_orders_request (Ok describe_orders)] in
  let r := (topicConfig_entries (H := sarama_iota) 1 (first_configs describe_orders) ∅, None) in
  exec (topicConfig (H := sarama_iota) client_two_addresses "orders") tr r /\
  r.1 !! "retention.ms" = Some (Some "1000") /\
  r.1 !! "cleanup.policy" = None.
Proof.
  intros b tr r.
  assert (exec (topicConfig (H := sarama_iota) client_two_addresses "orders") tr r) as He.
  { subst b tr r. exec_given. }
  split; [exact He|].
  destruct (topicConfig_explicit_entries (H := sarama_iota) client_two_addresses "orders" tr r He)
    as [(e & Htr & _)|[(b' & e & Htr & _)|(b' & cr & Htr & _ & Hk & _)]].
  - discriminate Htr.
  - discriminate Htr.
  - injection Htr as _ Hcr. subst cr. split; rewrite Hk; reflexivity.
Defined.

Lemma ReadTopic_found_witness :
  let e := TransportError "no controller" in
  let tr := [ReplicaCountEv "orders" [0; 1; 2] (Err (TransportError "request timed out"));
             ControllerEv (Err e)] in
  let r := ({| Name := "orders"; Partitions_ := 3; ReplicationFactor := 0; Config_ := ∅ |},
            Some e) in
  exec (ReadTopic (H := sarama_iota) client_two_addresses "orders")
    (RefreshMetadataEv None :: TopicsEv (Ok ["payments"; "orders"]) ::
     PartitionsEv "orders" (Ok [0; 1; 2]) :: tr) r /\
  exists rc tr', tr = ReplicaCountEv "orders" [0; 1; 2] rc :: tr'.
Proof.
  intros e tr r.
  assert (exec (ReadTopic (H := sarama_iota) client_two_addresses "orders")
    (RefreshMetadataEv None :: TopicsEv (Ok ["payments"; "orders"]) ::
     PartitionsEv "orders" (Ok [0; 1; 2]) :: tr) r) as He.
  { subst e tr r. exec_given. }
  split; [exact He|].
  destruct (ReadTopic_found (H := sarama_iota) client_two_addresses "orders"
              ["payments"; "orders"] None [0; 1; 2] tr r He)
    as (rc & tr' & _ & _ & Htr & _).
  exists rc, tr'. exact Htr.
Defined.

Lemma ReadTopic_refresh_and_listing_witness :
  let e := TransportError "out of brokers" in
  exec (ReadTopic (H := sarama_iota) client_two_addresses "orders")
    (RefreshMetadataEv None :: TopicsEv (Err e) :: []) (named "orders", Some e) /\
  exec (ReadTopic (H := sarama_iota) client_two_addresses "orders")
    (RefreshMetadataEv (Some e) :: TopicsEv (Err e) :: []) (named "orders", Some e).
Proof.
  intros e.
  assert (exec (ReadTopic (H := sarama_iota) client_two_addresses "orders")
            (RefreshMetadataEv None :: TopicsEv (Err e) :: []) (named "orders", Some e)) as He.
  { subst e. exec_given. }
  split; [exact He|].
  apply (proj1 (ReadTopic_refresh_and_listing (H := sarama_iota) client_two_addresses "orders")
           None (Some e) _ _ He).
Defined.

Lemma no_bootstrap_address_witness :
  BootstrapServers (config client_no_address) = Some [] /\
  exec (availableBroker client_no_address) []
    (None, Some (ErrorString "No Available Brokers @ []")).
Proof.
  split; [reflexivity|].
  apply (proj1 (proj2 (no_bootstrap_address (H := sarama_iota) client_no_address) eq_refl)).
  split; reflexivity.
Defined.

Lemma ListACLs_run_witness :
  let r := ([acls_of 2 "orders"; acls_of 3 "billing"; acls_of 5 "tx"], None) in
  exec (ListACLs (H := sarama_iota) client_two_addresses) trace_list_acls r /\
  exists attempts rest,
    trace_list_acls = (map (attempt (kafkaConfig client_two_addresses)) attempts ++ rest)%list.
Proof.
  intros r.
  assert (exec (ListACLs (H := sarama_iota) client_two_addresses) trace_list_acls r) as He.
  { subst r. unfold trace_list_acls. exec_given. }
  split; [exact He|].
  destruct (ListACLs_run (H := sarama_iota) client_two_addresses trace_list_acls r He)
    as (attempts & rest & Htr & _).
  exists attempts, rest. exact Htr.
Defined.

Lemma CreateACL_sends_valid_creation_witness :
  let e := ErrorString "Unknown pattern type filter: 'bogus'" in
  exec (availableBroker client_two_addresses) trace_connect
    (Some (NewBroker "good:2"), None) /\
  (AclCreation (H := sarama_iota) acl_bogus_pattern).2 = Some e /\
  acl_exec (CreateACL (H := sarama_iota) client_two_addresses acl_bogus_pattern)
    (map ClientEv trace_connect) (Some e) /\
  creations (map ClientEv trace_connect) = [].
Proof.
  intros e.
  assert (exec (availableBroker client_two_addresses) trace_connect
            (Some (NewBroker "good:2"), None)) as Ha.
  { unfold trace_connect. exec_given. }
  assert (acl_exec (CreateACL (H := sarama_iota) client_two_addresses acl_bogus_pattern)
            (map ClientEv trace_connect) (Some e)) as He.
  { apply (proj1 (CreateACL_sends_valid_creation (H := sarama_iota) client_two_addresses
                    acl_bogus_pattern (map ClientEv trace_connect) (Some e))).
    exists trace_connect, (Some (NewBroker "good:2")), None.
    split; [exact Ha|]. split; reflexivity. }
  split_and!; [exact Ha | reflexivity | exact He |].
  apply (proj1 (proj2 (CreateACL_sends_valid_creation (H := sarama_iota)
                         client_two_addresses acl_bogus_pattern
                         (map ClientEv trace_connect) (Some e)) He) e eq_refl).
Defined.

Lemma CreateACL_reads_codes_witness :
  let req := {| ca_Version := 1;
                ca_AclCreations := [translated_creation (H := sarama_iota) acl_prefixed] |} in
  let res := {| AclCreationResponses := [ {| aclr_Err := 7; aclr_ErrMsg := None |} ] |} in
  acl_exec (CreateACL (H := sarama_iota) client_two_addresses acl_prefixed) trace_create_acl
    (Some (KErrorValue 7)) /\
  CreateAclsEv (NewBroker "good:2") req (Ok res) ∈ trace_create_acl /\
  (Some (KErrorValue 7) = None <->
   Forall (fun x => aclr_Err x = 0) (AclCreationResponses res)).
Proof.
  intros req res.
  assert (acl_exec (CreateACL (H := sarama_iota) client_two_addresses acl_prefixed)
            trace_create_acl (Some (KErrorValue 7))) as He.
  { unfold trace_create_acl. acl_exec_given. }
  assert (CreateAclsEv (NewBroker "good:2") req (Ok res) ∈ trace_create_acl) as Hin.
  { right. right. left. }
  split_and!; [exact He | exact Hin |].
  apply (proj2 (CreateACL_reads_codes (H := sarama_iota) client_two_addresses acl_prefixed
                  trace_create_acl (Some (KErrorValue 7)) (NewBroker "good:2") req He)
           res Hin).
Defined.


Lemma DeleteACL_reads_codes_witness :
  let req := {| dl_Version := 0;
                dl_Filters := [translated_filter (H := sarama_iota) acl_prefixed] |} in
  let res := {| FilterResponses :=
                  [ {| fr_Err := 7; fr_ErrMsg := None; fr_MatchingAcls := [] |} ] |} in
  acl_exec (DeleteACL (H := sarama_iota) client_two_addresses acl_prefixed) trace_delete_acl
    (Some (KErrorValue 7)) /\
  DeleteAclsEv (NewBroker "good:2") req (Ok res) ∈ trace_delete_acl /\
  (Some (KErrorValue 7) = None <-> Forall (fun x => fr_Err x = 0) (FilterResponses res)).
Proof.
  intros req res.
  assert (acl_exec (DeleteACL (H := sarama_iota) client_two_addresses acl_prefixed)
            trace_delete_acl (Some (KErrorValue 7))) as He.
  { apply DeleteACL_runs. exists trace_connect, (Some (NewBroker "good:2")), None.
    split; [unfold trace_connect; exec_given|].
    exists (NewBroker "good:2"), (Ok res). split_and!; reflexivity. }
  assert (DeleteAclsEv (NewBroker "good:2") req (Ok res) ∈ trace_delete_acl) as Hin.
  { right. right. right. left. }
  split_and!; [exact He | exact Hin |].
  apply (proj2 (DeleteACL_reads_codes (H := sarama_iota) client_two_addresses acl_prefixed
                  trace_delete_acl (Some (KErrorValue 7)) (NewBroker "good:2") req He)
           res Hin).
Defined.

Lemma newKafkaConfig_client_certificate_witness :
  let e := ErrorString "open : no such file or directory" in
  TLSEnabled config_half_pair = true /\
  exec (caCertPool (H := sarama_iota) config_half_pair) [ReadFileEv "" (Err e)]
    (None, Some e) /\
  exec (newKafkaConfig (H := sarama_iota) config_half_pair) [ReadFileEv "" (Err e)]
    (kafkaConfig_base (H := sarama_iota) config_half_pair, Some e) /\
  Forall (fun ev => is_LoadX509KeyPair ev = false) [ReadFileEv "" (Err e)].
Proof.
  intros e.
  assert (exec (caCertPool (H := sarama_iota) config_half_pair) [ReadFileEv "" (Err e)]
            (None, Some e)) as Hp.
  { unfold caCertPool. exec_given. }
  assert (exec (newKafkaConfig (H := sarama_iota) config_half_pair) [ReadFileEv "" (Err e)]
            (kafkaConfig_base (H := sarama_iota) config_half_pair, Some e)) as He.
  { apply (proj1 (newKafkaConfig_client_certificate (H := sarama_iota) config_half_pair
                    [ReadFileEv "" (Err e)]
                    (kafkaConfig_base (H := sarama_iota) config_half_pair, Some e) eq_refl)).
    exists (None, Some e). split; [exact Hp | reflexivity]. }
  split_and!; [reflexivity | exact Hp | exact He |].
  apply (proj2 (newKafkaConfig_client_certificate (H := sarama_iota) config_half_pair
                  [ReadFileEv "" (Err e)]
                  (kafkaConfig_base (H := sarama_iota) config_half_pair, Some e) eq_refl) He).
Defined.

Lemma newKafkaConfig_trusted_roots_witness :
  TLSEnabled config_tls_memory = true /\
  exec (newKafkaConfig (H := sarama_iota) config_tls_memory) [] (kafka_tls_memory, None) /\
  roots_of kafka_tls_memory = Some [X509Certificate "ca"].
Proof.
  assert (exec (newKafkaConfig (H := sarama_iota) config_tls_memory) []
            (kafka_tls_memory, None)) as He.
  { unfold newKafkaConfig. exec_given. }
  split_and!; [reflexivity | exact He |].
  apply (proj2 (newKafkaConfig_trusted_roots (H := sarama_iota) config_tls_memory []
                  (kafka_tls_memory, None) eq_refl He)).
  reflexivity.
Defined.

Lemma newKafkaConfig_tls_witness :
  exec (newKafkaConfig (H := sarama_iota) config_tls_memory) [] (kafka_tls_memory, None) /\
  Net_TLS_Enable kafka_tls_memory = true.
Proof.
  assert (exec (newKafkaConfig (H := sarama_iota) config_tls_memory) []
            (kafka_tls_memory, None)) as He.
  { unfold newKafkaConfig. exec_given. }
  split; [exact He|].
  destruct (newKafkaConfig_tls (H := sarama_iota) config_tls_memory []
              (kafka_tls_memory, None) He) as (_ & _ & Hon & _).
  apply (proj1 (Hon eq_refl eq_refl)).
Defined.

Lemma newKafkaConfig_sasl_witness :
  exec (newKafkaConfig (H := sarama_iota) config_tls_memory) [] (kafka_tls_memory, None) /\
  (SASLUsername config_tls_memory <> "" \/ SASLPassword config_tls_memory <> "") /\
  Net_SASL_Enable kafka_tls_memory = true.
Proof.
  assert (exec (newKafkaConfig (H := sarama_iota) config_tls_memory) []
            (kafka_tls_memory, None)) as He.
  { unfold newKafkaConfig. exec_given. }
  assert (SASLUsername config_tls_memory <> "" \/ SASLPassword config_tls_memory <> "") as Hs.
  { left. discriminate. }
  split_and!; [exact He | exact Hs |].
  destruct (newKafkaConfig_sasl (H := sarama_iota) config_tls_memory []
              (kafka_tls_memory, None) He) as (_ & Hon & _).
  apply (proj1 (Hon Hs)).
Defined.

Lemma ListACLs_queries_fit_version_witness :
  let r := ([acls_of 2 "orders"; acls_of 3 "billing"; acls_of 5 "tx"], None) in
  exec (newKafkaConfig (H := sarama_iota) config_tls_memory) [] (kafka_tls_memory, None) /\
  exec (ListACLs (H := sarama_iota) client_two_addresses) trace_list_acls r /\
  Forall (fun d => da_Version d.1 = 1 /\ requiredVersion d.1 = V2_0_0_0)
    (describes trace_list_acls).
Proof.
  intros r.
  assert (exec (newKafkaConfig (H := sarama_iota) config_tls_memory) []
            (kafka_tls_memory, None)) as Hk.
  { unfold newKafkaConfig. exec_given. }
  assert (exec (ListACLs (H := sarama_iota) client_two_addresses) trace_list_acls r) as He.
  { subst r. unfold trace_list_acls. exec_given. }
  split_and!; [exact Hk | exact He |].
  apply (ListACLs_queries_fit_version (H := sarama_iota) config_tls_memory client_two_addresses
           [] trace_list_acls (kafka_tls_memory, None) r Hk He).
Defined.

Lemma TopicMissingError_names_the_topic_witness :
  ("orders" ∉ ["payments"; "billing"]) /\
  exec (ReadTopic (H := sarama_iota) client_two_addresses "orders")
    (RefreshMetadataEv None :: TopicsEv (Ok ["payments"; "billing"]) :: [])
    (named "orders", Some (TopicMissing "orders could not be found")) /\
  exists e, (named "orders", Some (TopicMissing "orders could not be found")).2 = Some e /\
            Error (H := sarama_iota) e = "orders" +:+ " could not be found".
Proof.
  assert ("orders" ∉ ["payments"; "billing"]) as Hn.
  { apply (bool_decide_unpack _). vm_compute. exact I. }
  assert (exec (ReadTopic (H := sarama_iota) client_two_addresses "orders")
            (RefreshMetadataEv None :: TopicsEv (Ok ["payments"; "billing"]) :: [])
            (named "orders", Some (TopicMissing "orders could not be found"))) as He.
  { exec_given. }
  split_and!; [exact Hn | exact He |].
  destruct (TopicMissingError_names_the_topic (H := sarama_iota) client_two_addresses "orders"
              ["payments"; "billing"] None [] _ Hn He) as (e & Hr & Ht & _).
  exists e. split; [exact Hr | exact Ht].
Defined.

Lemma Config_String_text_witness :
  BootstrapServers config_tls_memory = Some ["localhost:9092"] /\
  Config_String config_tls_memory =
    Some ("BootstrapServers: [localhost:9092]" +:+ LF +:+ "Timeout: 10," +:+ LF +:+
          "TLS: true,SkipVerify: true") /\
  Forall (fun b => contains b ("BootstrapServers: [localhost:9092]" +:+ LF +:+
                               "Timeout: 10," +:+ LF +:+ "TLS: true,SkipVerify: true"))
    ["localhost:9092"].
Proof.
  assert (Config_String config_tls_memory =
            Some ("BootstrapServers: [localhost:9092]" +:+ LF +:+ "Timeout: 10," +:+ LF +:+
                  "TLS: true,SkipVerify: true")) as Ht.
  { vm_compute. reflexivity. }
  split_and!; [reflexivity | exact Ht |].
  apply (proj1 (proj2 (Config_String_text config_tls_memory)) ["localhost:9092"] _ eq_refl Ht).
Defined.

(** ** The calls of [ReadTopic] *)

Section TopicCalls.
Context `{Sarama}.

Lemma topicConfig_concerns (c : Client) (topic : string) (tr : list Event)
    (r : gmap string (option string) * option error) :
  exec (topicConfig c topic) tr r -> Forall (concerns topic) tr.
Proof.
  unfold topicConfig. intros He. exec_step He.
  destruct x as [b|e]; exec_step He; [|by repeat constructor].
  destruct x as [cr|e]; simpl in He.
  - destruct (dcr_Resources cr) as [|r0 rs]; [exec_step He; by repeat constructor|].
    destruct (0 <? _)%Z; exec_step He; by repeat constructor.
  - exec_step He. by repeat constructor.
Qed.

Lemma topicConfig_no_partitions (c : Client) (topic : string) (tr : list Event)
    (r : gmap string (option string) * option error) :
  exec (topicConfig c topic) tr r -> partitions_answered tr = [].
Proof.
  unfold topicConfig. intros He. exec_step He.
  destruct x as [b|e]; exec_step He; [|done].
  destruct x as [cr|e]; simpl in He.
  - destruct (dcr_Resources cr) as [|r0 rs]; [by exec_step He|].
    destruct (0 <? _)%Z; by exec_step He.
  - by exec_step He.
Qed.

#[local] Arguments topicConfig : simpl never.

Lemma ReadTopic_topics_concerns (client : Client) (name : string) (topic : Topic)
    (topics : list string) (tr : list Event) (r : Topic * option error) :
  exec (ReadTopic_topics client name topic topics) tr r ->
  Forall (concerns name) tr /\ (length (partitions_answered tr) <= 1)%nat.
Proof.
  revert tr. induction topics as [|t topics IH]; intros tr; cbn [ReadTopic_topics exec].
  - intros [-> _]. split; [done | simpl; lia].
  - destruct (String.eqb_spec name t) as [<-|Hne]; [|by apply IH].
    intros He.
    apply (exec_bind (call (Partitions name))) in He as (tr1 & tr2 & x & -> & Hx & He).
    destruct Hx as (x' & tr0 & -> & -> & ->). destruct x as [p|e].
    + apply (exec_bind (call (ReplicaCount name p))) in He as (tr1 & tr3 & rc & -> & Hrc & He).
      destruct Hrc as (rc' & tr0 & -> & -> & ->).
      apply (exec_bind (topicConfig client name)) in He
        as (tr1 & tr4 & [conf err] & -> & Hc & He).
      assert (tr4 = []) as -> by (destruct err; by destruct He as [-> _]).
      rewrite app_nil_r. split.
      * apply topicConfig_concerns in Hc. simpl. by repeat constructor.
      * apply topicConfig_no_partitions in Hc.
        change (length (p :: partitions_answered tr1) <= 1)%nat. rewrite Hc. simpl. lia.
    + destruct (IH _ He) as [Hall Hlen]. split; [simpl; by constructor | done].
Qed.

(** X23. [ReadTopic] asks the cluster about no topic but the one it is
    given: beside the refresh, the listing and the controller lookup, every
    call it makes is a partition query or a replica count for that name, or a
    describe request naming that one topic; and at most one of its partition
    queries is answered without an error. *)
Theorem ReadTopic_asks_about_its_topic (client : Client) (name : string) (tr : list Event)
    (r : Topic * option error) :
  exec (ReadTopic client name) tr r ->
  Forall (concerns name) tr /\ (length (partitions_answered tr) <= 1)%nat.
Proof.
  intros He. unfold ReadTopic in He. cbv zeta in He.
  apply (exec_bind (call RefreshMetadata)) in He as (tr1 & tr2 & x & -> & Hx & He).
  destruct Hx as (x' & tr0 & -> & -> & ->).
  apply (exec_bind (call Topics)) in He as (tr1 & tr3 & y & -> & Hy & He).
  destruct Hy as (y' & tr0 & -> & -> & ->).
  destruct y as [topics|e].
  - apply ReadTopic_topics_concerns in He as [Hall Hlen]. split; [|done].
    simpl. by repeat constructor.
  - destruct He as [-> _]. split; [simpl; by repeat constructor | simpl; lia].
Qed.

End TopicCalls.

Lemma ReadTopic_asks_about_its_topic_witness :
  let e := TransportError "no controller" in
  let tr := [RefreshMetadataEv None; TopicsEv (Ok ["payments"; "orders"]);
             PartitionsEv "orders" (Ok [0; 1; 2]);
             ReplicaCountEv "orders" [0; 1; 2] (Err (TransportError "request timed out"));
             ControllerEv (Err e)] in
  let r := ({| Name := "orders"; Partitions_ := 3; ReplicationFactor := 0; Config_ := ∅ |},
            Some e) in
  exec (ReadTopic (H := sarama_iota) client_two_addresses "orders") tr r /\
  Forall (concerns "orders") tr.
Proof.
  intros e tr r.
  assert (exec (ReadTopic (H := sarama_iota) client_two_addresses "orders") tr r) as He.
  { subst e tr r. exec_given. }
  split; [exact He|].
  apply (proj1 (ReadTopic_asks_about_its_topic (H := sarama_iota) client_two_addresses
                  "orders" tr r He)).
Defined.
